(** * Register-synchronisation service: table, frame codec, connection
      handler and transaction clients.

    Shallow embedding of
      - server/var_table.py        (class VarTable)
      - server/main.py             (AsyncServer.handle_client, console)
      - server/main_bak.py         (the selector-based _recv_loop)
      - server/byte_stream.py      (ByteStream.recv)
      - web/Communication.py       (_txn, write_var, read_var)
      - web/main.py                (exec_order, delete_order, get_registers,
                                    write_register)
      - Visual_ob/Communication.py (_txn, write_var, read_var)

    Python integers are [Z]; a [bytes] object is a [list byte]; a Python
    list indexed by an integer follows Python's rule for negative
    indices; an exception is a value of [exn] carried by [Raise].

    One thread of control is followed at a time.  Left out: logging and
    printing, the length of sleeps and timeouts (a timeout is the
    exception it raises), contention on [_sock_lock] and on the table's
    lock, [writer.drain()] and the selector registration of a stream. *)

From Stdlib Require Import ZArith Lia Bool.
From Stdlib Require Import Strings.Byte.
From stdpp Require Import base list strings.

Local Open Scope Z_scope.

(** ** Exceptions and results *)

Inductive exn : Type :=
| IndexError        (* list index out of range / VarTable.set guard *)
| StructError       (* struct.error: argument out of range *)
| ConnectionError   (* raised by the client on an empty recv *)
| OSError           (* connect refused, reset, socket.timeout *)
| ValueError        (* wrong reply command in read_var *)
| AssertionError.   (* assert cmd == 0x41 *)

(** [Stuck]: the code has not returned within the run the model was
    given (a loop out of fuel, a poller whose schedule has ended).  It
    is not an exception: no handler catches it and no [finally] block
    runs. *)
Inductive result (A : Type) : Type :=
| Ok (a : A)
| Raise (e : exn)
| Stuck.
Arguments Ok {A} a.
Arguments Raise {A} e.
Arguments Stuck {A}.

(** ** A state-and-exception monad

    [M S A] threads a state [S] through code that may raise.  An
    exception keeps the state reached when it was raised, as a Python
    exception keeps the side effects already performed. *)

Section StateExn.
Context {S : Type}.

Definition M (A : Type) : Type := S -> result A * S.

Definition ret {A} (a : A) : M A := fun s => (Ok a, s).

Definition raise {A} (e : exn) : M A := fun s => (Raise e, s).

Definition stuck {A} : M A := fun s => (Stuck, s).

Definition bind {A B} (m : M A) (k : A -> M B) : M B :=
  fun s => match m s with
           | (Ok a, s') => k a s'
           | (Raise e, s') => (Raise e, s')
           | (Stuck, s') => (Stuck, s')
           end.

Definition get_state : M S := fun s => (Ok s, s).

Definition modify (f : S -> S) : M unit := fun s => (Ok tt, f s).

(** [lift_result r] raises when [r] is an exception. *)
Definition lift_result {A} (r : result A) : M A := fun s => (r, s).

(** [try: body finally: cleanup] *)
Definition try_finally {A} (body : M A) (cleanup : M unit) : M A :=
  fun s => match body s with
           | (Stuck, s') => (Stuck, s')
           | (r, s') =>
               match cleanup s' with
               | (Ok _, s'') => (r, s'')
               | (Raise e, s'') => (Raise e, s'')
               | (Stuck, s'') => (Stuck, s'')
               end
           end.

(** [try: body except Exception: handler] *)
Definition try_except {A} (body : M A) (handler : exn -> M A) : M A :=
  fun s => match body s with
           | (Raise e, s') => handler e s'
           | other => other
           end.
End StateExn.

Declare Scope monad_scope.
Notation "'let!' x ':=' m 'in' k" := (bind m (fun x => k))
  (at level 10, x name, m at level 100, k at level 200) : monad_scope.
Notation "'do!' m 'in' k" := (bind m (fun _ => k))
  (at level 10, m at level 100, k at level 200) : monad_scope.
Local Open Scope monad_scope.

(** ** Python list indexing

    [l[idx]] accepts [-len(l) <= idx < len(l)]; a negative index counts
    from the end; anything else raises IndexError. *)

Definition py_index {A} (l : list A) (idx : Z) : option nat :=
  let n := Z.of_nat (length l) in
  if decide (0 <= idx < n) then Some (Z.to_nat idx)
  else if decide (- n <= idx < 0) then Some (Z.to_nat (n + idx))
  else None.

Definition py_getitem {A} (l : list A) (idx : Z) : result A :=
  match py_index l idx with
  | Some i => match l !! i with
              | Some x => Ok x
              | None => Raise IndexError
              end
  | None => Raise IndexError
  end.

Definition py_setitem {A} (l : list A) (idx : Z) (x : A) : result (list A) :=
  match py_index l idx with
  | Some i => Ok (<[i:=x]> l)
  | None => Raise IndexError
  end.

(** ** The struct module, for the two formats the repository uses

    [struct.pack] checks every argument against its field: 'B' takes
    [0..255], 'H' takes [0..65535], 'I' takes [0..2^32-1]; anything else
    raises struct.error.  '!' is network byte order, no padding. *)

Definition byte_of_Z (z : Z) : byte :=
  match Byte.of_N (Z.to_N z) with
  | Some b => b
  | None => "000"%byte
  end.

Definition Z_of_byte (b : byte) : Z := Z.of_N (Byte.to_N b).

Definition bytes : Type := list byte.

Module struct.

Definition fits (bits : Z) (v : Z) : bool :=
  bool_decide (0 <= v < 2 ^ bits).

(** Big-endian bytes of [v], most significant first, [n] of them. *)
Fixpoint be_bytes (n : nat) (v : Z) : bytes :=
  match n with
  | O => []
  | S n' => byte_of_Z (Z.land (Z.shiftr v (8 * Z.of_nat n')) 255) :: be_bytes n' v
  end.

(** The integer that big-endian bytes stand for. *)
Definition be_int (bs : bytes) : Z :=
  fold_left (fun acc b => Z.lor (Z.shiftl acc 8) (Z_of_byte b)) bs 0.

(** [struct.pack('!BBHI', a, b, h, i)] *)
Definition pack_BBHI (a b h i : Z) : result bytes :=
  if fits 8 a && fits 8 b && fits 16 h && fits 32 i
  then Ok (be_bytes 1 a ++ be_bytes 1 b ++ be_bytes 2 h ++ be_bytes 4 i)
  else Raise StructError.

(** [bytes[offset:offset+n]] when the buffer holds that many. *)
Definition window (data : bytes) (offset n : nat) : option bytes :=
  if decide (offset + n <= length data)%nat
  then Some (take n (drop offset data))
  else None.

(** [struct.unpack_from('!BB', data, offset)] *)
Definition unpack_from_BB (data : bytes) (offset : nat) : result (Z * Z) :=
  match window data offset 2 with
  | Some w => Ok (be_int (take 1 w), be_int (take 1 (drop 1 w)))
  | None => Raise StructError
  end.

(** [struct.unpack_from('!BBHI', data, offset)] *)
Definition unpack_from_BBHI (data : bytes) (offset : nat) : result (Z * Z * Z * Z) :=
  match window data offset 8 with
  | Some w => Ok (be_int (take 1 w), be_int (take 1 (drop 1 w)),
                  be_int (take 2 (drop 2 w)), be_int (take 4 (drop 4 w)))
  | None => Raise StructError
  end.

(** [struct.unpack(fmt, buf)]: the buffer must have the format's size. *)
Definition unpack_BB (buf : bytes) : result (Z * Z) :=
  if decide (length buf = 2%nat) then unpack_from_BB buf 0 else Raise StructError.

Definition unpack_BBHI (buf : bytes) : result (Z * Z * Z * Z) :=
  if decide (length buf = 8%nat) then unpack_from_BBHI buf 0 else Raise StructError.

End struct.

(** ** server/var_table.py *)

(** The callable stored in [on_change]; the table only ever calls it. *)
Inductive hook : Type := Hook (id : nat).

Record VarTable : Type := mkVarTable {
  _vals : list Z;
  on_change : option hook;
  _lock : nat;             (* hold count of the re-entrant lock *)
  _size : Z
}.

(** What a run of the table's methods does, in program order.  A call of
    the hook records the registers and the lock's hold count that the
    callee finds. *)
Inductive event : Type :=
| EvAcquire
| EvRelease
| EvStore (idx : Z) (val : Z)
| EvCall (h : hook) (idx val : Z) (seen : list Z) (held : nat).

Definition tstate : Type := VarTable * list event.

Definition emit (e : event) : M (S:=tstate) unit :=
  modify (fun s => (s.1, s.2 ++ [e])).

Definition with_vals (f : list Z -> list Z) (t : VarTable) : VarTable :=
  mkVarTable (f (_vals t)) (on_change t) (_lock t) (_size t).

Definition with_lock (f : nat -> nat) (t : VarTable) : VarTable :=
  mkVarTable (_vals t) (on_change t) (f (_lock t)) (_size t).

Module VarTableM.

(** [VarTable(size)] *)
Definition init (size : Z) : VarTable :=
  mkVarTable (replicate (Z.to_nat size) 0) None 0%nat size.

Definition acquire : M (S:=tstate) unit :=
  do! modify (fun s => (with_lock S s.1, s.2)) in emit EvAcquire.

Definition release : M (S:=tstate) unit :=
  do! modify (fun s => (with_lock Nat.pred s.1, s.2)) in emit EvRelease.

(** [self._vals[idx]] *)
Definition load (idx : Z) : M (S:=tstate) Z :=
  let! s := get_state in lift_result (py_getitem (_vals s.1) idx).

(** [self._vals[idx] = val] *)
Definition store (idx val : Z) : M (S:=tstate) unit :=
  let! s := get_state in
  let! l := lift_result (py_setitem (_vals s.1) idx val) in
  do! modify (fun s => (with_vals (fun _ => l) s.1, s.2)) in
  emit (EvStore idx val).

(** [self.on_change(idx, val)] *)
Definition call_hook (h : hook) (idx val : Z) : M (S:=tstate) unit :=
  let! s := get_state in
  emit (EvCall h idx val (_vals s.1) (_lock s.1)).

(** [def set(self, idx, val)] *)
Definition set (idx val : Z) : M (S:=tstate) unit :=
  let! s := get_state in
  if negb (bool_decide (0 <= idx < _size s.1)) then raise IndexError
  else
    let! old := load idx in
    if bool_decide (old = val) then ret tt
    else
      do! try_finally (do! acquire in store idx val) release in
      match on_change s.1 with
      | Some h => call_hook h idx val
      | None => ret tt
      end.

(** [def get(self, idx)] *)
Definition get (idx : Z) : M (S:=tstate) Z := load idx.

(** [@property size] *)
Definition size (t : VarTable) : Z := _size t.

(** [def encode_change(self, idx, val)] *)
Definition encode_change (idx val : Z) : result bytes :=
  struct.pack_BBHI 0x30 idx 0 val.

End VarTableM.

(** Running one method on a table, from an empty trace. *)
Definition run {A} (m : M (S:=tstate) A) (t : VarTable) : result A * VarTable * list event :=
  let '(r, (t', tr)) := m (t, []) in (r, t', tr).

(** A table as the constructor builds it and [set] keeps it. *)
Definition table_ok (t : VarTable) : Prop :=
  length (_vals t) = Z.to_nat (_size t).

(** The trace of the hook, as [set] leaves it after a store. *)
Definition hook_trace (t : VarTable) (idx val : Z) (vals' : list Z) : list event :=
  match on_change t with
  | Some h => [EvCall h idx val vals' (_lock t)]
  | None => []
  end.

(** ** The frame loop shared by the two servers

    server/main.py (handle_client) and server/main_bak.py (_recv_loop)
    run the same loop over one buffer [data]; they differ in where the
    table lives and in how a reply leaves.  [Endpoint] is that
    difference. *)

Class Endpoint (St : Type) : Type := {
  on_table : forall {A}, M (S:=tstate) A -> M (S:=St) A;
  reply : bytes -> M (S:=St) unit
}.

(** How one pass of a loop body ends: fall through to the next
    iteration, or execute [return]. *)
Inductive signal : Type := Next | Return.

Definition FRAME_SIZE : nat := 8.

Section FrameLoop.
Context {St : Type} `{Endpoint St}.

(** The body of [while offset + FRAME_SIZE <= len(data)], up to
    [offset += FRAME_SIZE]. *)
Definition dispatch (data : bytes) (offset : nat) : M (S:=St) signal :=
  let! hd := lift_result (struct.unpack_from_BB data offset) in
  let '(cmd, idx) := hd in
  if cmd =? 0x40 then
    let! val := on_table (VarTableM.get idx) in
    let! frame := lift_result (struct.pack_BBHI 0x41 idx 0 val) in
    do! reply frame in
    ret Next
  else if cmd =? 0x42 then
    ret Return
  else if cmd =? 0x50 then
    let! frame := lift_result (struct.pack_BBHI 0x51 idx 0 0) in
    do! reply frame in
    ret Next
  else if cmd =? 0x52 then
    let! fr := lift_result (struct.unpack_from_BBHI data offset) in
    let '(_, idx, _, val) := fr in
    do! on_table (VarTableM.set idx val) in
    let! frame := lift_result (struct.pack_BBHI 0x53 idx 0 0) in
    do! reply frame in
    ret Next
  else
    ret Next.

(** [while offset + FRAME_SIZE <= len(data): ...; offset += FRAME_SIZE] *)
Fixpoint frame_loop (fuel : nat) (data : bytes) (offset : nat) : M (S:=St) signal :=
  if decide (offset + FRAME_SIZE <= length data)%nat then
    match fuel with
    | O => stuck
    | S fuel' =>
        let! sig := dispatch data offset in
        match sig with
        | Next => frame_loop fuel' data (offset + FRAME_SIZE)
        | Return => ret Return
        end
    end
  else ret Next.

(** One buffer, from [offset = 0]. *)
Definition process (data : bytes) : M (S:=St) signal :=
  frame_loop (length data) data 0.
End FrameLoop.

(** ** server/main.py: AsyncServer.handle_client *)

Module AsyncServer.

(** The server object and one connection's writer. *)
Record state : Type := mkState {
  var_table : VarTable;
  table_log : list event;
  written : bytes;          (* everything passed to writer.write *)
  in_clients : bool;        (* writer in self.clients *)
  writer_closed : bool
}.

Definition lift_table {A} (m : M (S:=tstate) A) : M (S:=state) A :=
  fun s =>
    let '(r, (t, tr)) := m (var_table s, table_log s) in
    (r, mkState t tr (written s) (in_clients s) (writer_closed s)).

(** [writer.write(frame)] *)
Definition writer_write (frame : bytes) : M (S:=state) unit :=
  modify (fun s => mkState (var_table s) (table_log s) (written s ++ frame)
                           (in_clients s) (writer_closed s)).

#[global] Instance endpoint : Endpoint state :=
  {| on_table := @lift_table; reply := writer_write |}.

(** [self.clients.add(writer)] *)
Definition clients_add : M (S:=state) unit :=
  modify (fun s => mkState (var_table s) (table_log s) (written s) true (writer_closed s)).

(** The [finally] block: discard the writer and close it. *)
Definition cleanup : M (S:=state) unit :=
  modify (fun s => mkState (var_table s) (table_log s) (written s) false true).

(** [while True: data = await reader.read(4096) ...].  [reads] lists
    what the successive calls of [reader.read] return; an empty
    buffer, or the end of the list, is the end of the stream. *)
Fixpoint serve (reads : list bytes) : M (S:=state) unit :=
  match reads with
  | [] => ret tt
  | data :: reads' =>
      if decide (data = []) then ret tt
      else
        let! sig := process data in
        match sig with
        | Next => serve reads'
        | Return => ret tt
        end
  end.

Definition handle_client (reads : list bytes) : M (S:=state) unit :=
  do! clients_add in
  try_finally (serve reads) cleanup.

(** [AsyncServer()]: a table of 100 registers whose hook is
    [_broadcast_change]. *)
Definition _broadcast_change : hook := Hook 0.

Definition new : state :=
  let t := VarTableM.init 100 in
  mkState (mkVarTable (_vals t) (Some _broadcast_change) (_lock t) (_size t))
          [] [] false false.

(** A server with table [t] ready to accept a connection. *)
Definition with_table (t : VarTable) : state := mkState t [] [] false false.

End AsyncServer.

(** The frame with command [cmd], index [idx], reserved 0 and value
    [val], when the three fit their fields. *)
Definition frame (cmd idx val : Z) : bytes :=
  match struct.pack_BBHI cmd idx 0 val with
  | Ok bs => bs
  | _ => []
  end.

(** ** server/byte_stream.py *)

Module ByteStream.

Record t : Type := mk {
  _rx_buf : bytes;
  _tx_buf : bytes;
  _closed : bool
}.

Definition init : t := mk [] [] false.

(** [def close(self)] *)
Definition close (s : t) : t := mk (_rx_buf s) (_tx_buf s) true.

(** The read branch of [_io_cb], [chunk] being what
    [self._sock.recv(8192)] returned. *)
Definition _io_cb (chunk : bytes) (s : t) : t :=
  if _closed s then s
  else if decide (chunk = []) then close s
  else mk (_rx_buf s ++ chunk) (_tx_buf s) (_closed s).

(** [def recv(self)]: all accumulated data, and the buffer is cleared. *)
Definition recv (s : t) : option bytes * t :=
  if decide (_rx_buf s = []) then (None, s)
  else (Some (_rx_buf s), mk [] (_tx_buf s) (_closed s)).

(** [def send(self, data)] *)
Definition send (data : bytes) (s : t) : t :=
  if decide (data = []) then s
  else if _closed s then s
  else mk (_rx_buf s) (_tx_buf s ++ data) (_closed s).

End ByteStream.

(** ** server/main_bak.py: the selector server's _recv_loop

    main_bak.py builds its stream as [ByteStream(conn, SEL)], without
    the [addr] that byte_stream.py asks for; the loop is followed from a
    stream that exists. *)

Module SelectorServer.

Record state : Type := mkState {
  g_table : VarTable;
  table_log : list event;
  stream : ByteStream.t;
  in_clients : bool
}.

Definition lift_table {A} (m : M (S:=tstate) A) : M (S:=state) A :=
  fun s =>
    let '(r, (t, tr)) := m (g_table s, table_log s) in
    (r, mkState t tr (stream s) (in_clients s)).

Definition on_stream (f : ByteStream.t -> ByteStream.t) : M (S:=state) unit :=
  modify (fun s => mkState (g_table s) (table_log s) (f (stream s)) (in_clients s)).

#[global] Instance endpoint : Endpoint state :=
  {| on_table := @lift_table; reply := fun fr => on_stream (ByteStream.send fr) |}.

(** [data = stream.recv()] *)
Definition stream_recv : M (S:=state) (option bytes) :=
  fun s =>
    let '(d, st) := ByteStream.recv (stream s) in
    (Ok d, mkState (g_table s) (table_log s) st (in_clients s)).

(** [clients.discard(stream)] *)
Definition clients_discard : M (S:=state) unit :=
  modify (fun s => mkState (g_table s) (table_log s) (stream s) false).

(** [def _recv_loop()].  The loop polls; [sched] gives, for each
    iteration, the chunks that [_io_cb] took from the socket since the
    previous one (an empty chunk is the peer's close).  When [sched]
    ends the thread is still polling: [Stuck]. *)
Fixpoint _recv_loop (sched : list (list bytes)) : M (S:=state) unit :=
  match sched with
  | [] => stuck
  | arrived :: sched' =>
      do! on_stream (fun st => fold_left (fun st c => ByteStream._io_cb c st) arrived st) in
      let! data := stream_recv in
      let! sig := match data with
                  | Some d => process d
                  | None => ret Next            (* time.sleep(0.001) *)
                  end in
      match sig with
      | Return => ret tt
      | Next =>
          let! s := get_state in
          if ByteStream._closed (stream s) then clients_discard
          else _recv_loop sched'
      end
  end.

Definition with_table (t : VarTable) : state := mkState t [] ByteStream.init true.

End SelectorServer.

(** ** The socket calls the clients make

    One connection at a time: [create_connection] dials the server,
    [sendall], [recv] and [close] act on the connection dialled last. *)

Class Net (W : Type) : Type := {
  create_connection : M (S:=W) unit;
  sendall : bytes -> M (S:=W) unit;
  recv : nat -> M (S:=W) bytes;
  close : M (S:=W) unit
}.

(** [with socket.create_connection(...) as s: body] *)
Definition with_connection {W} `{Net W} {A} (body : M (S:=W) A) : M (S:=W) A :=
  do! create_connection in try_finally body close.

(** [for attempt in range(n): body], where the body either returns from
    the function ([Some]) or falls through to the next iteration. *)
Fixpoint for_range {W A} (n : nat) (body : M (S:=W) (option A)) (orelse : M (S:=W) A)
  : M (S:=W) A :=
  match n with
  | O => orelse
  | S n' =>
      let! r := body in
      match r with
      | Some a => ret a
      | None => for_range n' body orelse
      end
  end.

(** ** web/Communication.py *)

Module Web.
Section Client.
Context {W : Type} `{Net W}.
Variable RETRY_MAX : nat.

(** [while len(buf) < expect: chunk = s.recv(expect - len(buf)); ...] *)
Fixpoint recv_exact (fuel expect : nat) (buf : bytes) : M (S:=W) bytes :=
  if decide (length buf < expect)%nat then
    match fuel with
    | O => stuck
    | S fuel' =>
        let! chunk := recv (expect - length buf) in
        if decide (chunk = []) then raise ConnectionError
        else recv_exact fuel' expect (buf ++ chunk)
    end
  else ret buf.

(** The [try] body of [_txn]. *)
Definition attempt (req : bytes) (expect : nat) : M (S:=W) bytes :=
  with_connection (do! sendall req in recv_exact expect expect []).

(** [def _txn(req, expect)] *)
Definition _txn (req : bytes) (expect : nat) : M (S:=W) bytes :=
  for_range RETRY_MAX
    (try_except (let! buf := attempt req expect in ret (Some buf))
                (fun _ => ret None))
    (ret []).

(** [len(rsp) == 8 and struct.unpack('!BB', rsp[:2])[0] == cmd] *)
Definition reply_is (rsp : bytes) (cmd : Z) : M (S:=W) bool :=
  if decide (length rsp = 8%nat) then
    let! hd := lift_result (struct.unpack_BB (take 2 rsp)) in
    ret (hd.1 =? cmd)
  else ret false.

(** One pass of the loop of [write_var]. *)
Definition write_round (idx val : Z) : M (S:=W) (option bool) :=
  let! req := lift_result (struct.pack_BBHI 0x50 idx 0 0) in
  let! rsp := _txn req 8 in
  let! ready := reply_is rsp 0x51 in
  if negb ready then ret None
  else
    let! wreq := lift_result (struct.pack_BBHI 0x52 idx 0 val) in
    let! wrsp := _txn wreq 8 in
    let! done := reply_is wrsp 0x53 in
    if done then ret (Some true) else ret None.

(** [def write_var(idx, val) -> bool] *)
Definition write_var (idx val : Z) : M (S:=W) bool :=
  for_range RETRY_MAX (write_round idx val) (ret false).

(** [def read_var(idx) -> int] *)
Definition read_var (idx : Z) : M (S:=W) Z :=
  try_except
    (with_connection
       (let! req := lift_result (struct.pack_BBHI 0x40 idx 0 0) in
        do! sendall req in
        let! buf := recv_exact 8 8 [] in
        let! fr := lift_result (struct.unpack_BBHI buf) in
        let '(cmd, _, _, val) := fr in
        if negb (cmd =? 0x41) then raise ValueError
        else
          let! ack := lift_result (struct.pack_BBHI 0x42 idx 0 0) in
          do! sendall ack in
          ret val))
    (fun _ => ret (-1)).
End Client.
End Web.

(** ** Visual_ob/Communication.py *)

Module VisualOb.
Section Client.
Context {W : Type} `{Net W}.
Variable RETRY_MAX : nat.

(** [while len(buf) < expect: buf += s.recv(expect - len(buf))] *)
Fixpoint recv_exact (fuel expect : nat) (buf : bytes) : M (S:=W) bytes :=
  if decide (length buf < expect)%nat then
    match fuel with
    | O => stuck
    | S fuel' =>
        let! chunk := recv (expect - length buf) in
        recv_exact fuel' expect (buf ++ chunk)
    end
  else ret buf.

(** [def _txn(req, expect)]: one attempt, [b''] on any exception, the
    socket closed on every path. *)
Definition _txn (fuel : nat) (req : bytes) (expect : nat) : M (S:=W) bytes :=
  try_finally
    (try_except
       (do! create_connection in
        do! sendall req in
        recv_exact fuel expect [])
       (fun _ => ret []))
    close.

(** One pass of the loop of [write_var]. *)
Definition write_round (fuel : nat) (idx val : Z) : M (S:=W) (option unit) :=
  let! req := lift_result (struct.pack_BBHI 0x50 idx 0 0) in
  let! rsp := _txn fuel req 8 in
  if negb (bool_decide (length rsp = 8%nat)) then ret None
  else
    let! fr := lift_result (struct.unpack_BBHI rsp) in
    let '(cmd, _, _, _) := fr in
    if negb (cmd =? 0x51) then ret None
    else
      let! wreq := lift_result (struct.pack_BBHI 0x52 idx 0 val) in
      let! wrsp := _txn fuel wreq 8 in
      if negb (bool_decide (length wrsp = 8%nat)) then ret None
      else
        let! wfr := lift_result (struct.unpack_BBHI wrsp) in
        let '(w_ack, _, _, _) := wfr in
        if w_ack =? 0x53 then ret (Some tt) else ret None.

(** [def write_var(idx, val) -> None] *)
Definition write_var (fuel : nat) (idx val : Z) : M (S:=W) unit :=
  for_range RETRY_MAX (write_round fuel idx val) (ret tt).

(** [def read_var(idx) -> int]: no handler around the transaction. *)
Definition read_var (fuel : nat) (idx : Z) : M (S:=W) Z :=
  with_connection
    (let! req := lift_result (struct.pack_BBHI 0x40 idx 0 0) in
     do! sendall req in
     let! buf := recv_exact fuel 8 [] in
     let! fr := lift_result (struct.unpack_BBHI buf) in
     let '(cmd, _, _, val) := fr in
     if negb (cmd =? 0x41) then raise AssertionError
     else
       let! ack := lift_result (struct.pack_BBHI 0x42 idx 0 0) in
       do! sendall ack in
       ret val).
End Client.
End VisualOb.

(** ** A scripted network

    Each dial takes the next script: the server refuses, or it accepts
    and the script fixes how many [sendall] calls succeed, which chunks
    the successive [recv] calls find, and how the stream ends.  When the
    scripts run out the server is unreachable. *)

Module Scripted.

Inductive ending : Type := Eof | Timeout.

Inductive script : Type :=
| Refuse
| Accept (sends : nat) (chunks : list bytes) (fin : ending).

Record world : Type := mk {
  pending : list script;
  current : option (nat * list bytes * ending);
  dialled : nat;             (* calls of create_connection so far *)
  outbox : list bytes        (* what sendall delivered, oldest first *)
}.

Definition dial : M (S:=world) unit :=
  fun w =>
    match pending w with
    | [] => (Raise OSError, mk [] None (S (dialled w)) (outbox w))
    | Refuse :: p => (Raise OSError, mk p None (S (dialled w)) (outbox w))
    | Accept n cs f :: p => (Ok tt, mk p (Some (n, cs, f)) (S (dialled w)) (outbox w))
    end.

Definition send (data : bytes) : M (S:=world) unit :=
  fun w =>
    match current w with
    | Some (S n, cs, f) =>
        (Ok tt, mk (pending w) (Some (n, cs, f)) (dialled w) (outbox w ++ [data]))
    | _ => (Raise OSError, w)
    end.

Definition receive (n : nat) : M (S:=world) bytes :=
  fun w =>
    match current w with
    | Some (k, c :: cs, f) =>
        let rest := if decide (drop n c = []) then cs else drop n c :: cs in
        (Ok (take n c), mk (pending w) (Some (k, rest, f)) (dialled w) (outbox w))
    | Some (k, [], Eof) => (Ok [], w)
    | Some (k, [], Timeout) => (Raise OSError, w)
    | None => (Raise OSError, w)
    end.

Definition hangup : M (S:=world) unit :=
  modify (fun w => mk (pending w) None (dialled w) (outbox w)).

#[global] Instance net : Net world :=
  {| create_connection := dial; sendall := send; recv := receive; close := hangup |}.

Definition start (scripts : list script) : world := mk scripts None 0 [].

End Scripted.

(** ** The client against server/main.py

    Each dial takes the next link: down, or up with a cut.  Over a link
    that is up, the bytes of one [sendall] reach [reader.read] in one
    piece, or in two when the cut falls inside them; the handler runs on
    each piece as it arrives, and [recv] finds what the handler has
    written. *)

Module Live.

Inductive link : Type := Down | Up (cut : nat).

Record world : Type := mk {
  srv : AsyncServer.state;
  links : list link;
  conn : option nat;         (* the cut of the open connection *)
  taken : nat;               (* bytes of [written] already received *)
  dialled : nat
}.

(** One [reader.read] returning [data], if the handler is still
    running. *)
Definition feed (s : AsyncServer.state) (data : bytes) : AsyncServer.state :=
  if AsyncServer.writer_closed s then s
  else match process data s with
       | (Ok Next, s') => s'
       | (_, s') => (AsyncServer.cleanup s').2
       end.

(** The client has closed: [reader.read] returns [b''], the handler
    leaves through [finally]. *)
Definition eof (s : AsyncServer.state) : AsyncServer.state :=
  if AsyncServer.writer_closed s then s else (AsyncServer.cleanup s).2.

Definition pieces (cut : nat) (data : bytes) : list bytes :=
  if decide (data = []) then []
  else if decide (0 < cut < length data)%nat then [take cut data; drop cut data]
  else [data].

Definition dial : M (S:=world) unit :=
  fun w =>
    match links w with
    | [] => (Raise OSError, mk (srv w) [] None 0 (S (dialled w)))
    | Down :: ls => (Raise OSError, mk (srv w) ls None 0 (S (dialled w)))
    | Up cut :: ls =>
        let s := AsyncServer.mkState (AsyncServer.var_table (srv w))
                   (AsyncServer.table_log (srv w)) [] true false in
        (Ok tt, mk s ls (Some cut) 0 (S (dialled w)))
    end.

Definition send (data : bytes) : M (S:=world) unit :=
  fun w =>
    match conn w with
    | Some cut =>
        (Ok tt, mk (fold_left feed (pieces cut data) (srv w)) (links w)
                   (conn w) (taken w) (dialled w))
    | None => (Raise OSError, w)
    end.

Definition receive (n : nat) : M (S:=world) bytes :=
  fun w =>
    match conn w with
    | Some _ =>
        let avail := drop (taken w) (AsyncServer.written (srv w)) in
        if decide (avail = []) then
          if AsyncServer.writer_closed (srv w) then (Ok [], w)
          else (Raise OSError, w)                      (* socket.timeout *)
        else
          (Ok (take n avail),
           mk (srv w) (links w) (conn w) (taken w + length (take n avail)) (dialled w))
    | None => (Raise OSError, w)
    end.

Definition hangup : M (S:=world) unit :=
  fun w =>
    match conn w with
    | Some _ => (Ok tt, mk (eof (srv w)) (links w) None 0 (dialled w))
    | None => (Ok tt, w)
    end.

#[global] Instance net : Net world :=
  {| create_connection := dial; sendall := send; recv := receive; close := hangup |}.

Definition start (t : VarTable) (ls : list link) : world :=
  mk (AsyncServer.with_table t) ls None 0 0.

Definition table (w : world) : VarTable := AsyncServer.var_table (srv w).

End Live.

(** ** Reading a trace *)

(** Acquisitions of the table's lock not yet released at the end of a
    trace. *)
Fixpoint holds (tr : list event) : Z :=
  match tr with
  | [] => 0
  | EvAcquire :: tr' => 1 + holds tr'
  | EvRelease :: tr' => holds tr' - 1
  | _ :: tr' => holds tr'
  end.

Definition is_call (e : event) : bool :=
  match e with EvCall _ _ _ _ _ => true | _ => false end.

(** ** The buffer as a list of frames

    The view of a buffer that the protocol description takes: its
    complete 8-byte frames, left to right, each handled in turn until
    one of them ends the connection.  [process_as_frames] below compares
    the loop of the source with it. *)

Definition complete_frames (data : bytes) : list bytes :=
  map (fun k => take FRAME_SIZE (drop (FRAME_SIZE * k) data))
      (seq 0 (length data / FRAME_SIZE)).

Fixpoint dispatch_all {St} `{Endpoint St} (frames : list bytes) : M (S:=St) signal :=
  match frames with
  | [] => ret Next
  | fr :: frames' =>
      let! sig := dispatch fr 0 in
      match sig with
      | Next => dispatch_all frames'
      | Return => ret Return
      end
  end.

(** The command codes the handler acts on. *)
Definition recognized (cmd : Z) : bool :=
  (cmd =? 0x40) || (cmd =? 0x42) || (cmd =? 0x50) || (cmd =? 0x52).

(** The state in which a connection starts on the server. *)
Definition fresh (s : AsyncServer.state) : AsyncServer.state :=
  AsyncServer.mkState (AsyncServer.var_table s) (AsyncServer.table_log s) [] true false.

(** ** Reading the clients' runs *)

(** A reply of eight bytes whose command byte is [cmd]. *)
Definition reply_ok (rsp : bytes) (cmd : Z) : bool :=
  bool_decide (length rsp = 8%nat) && (struct.be_int (take 1 rsp) =? cmd).

(** Every socket call comes back, with a value or with an exception. *)
Definition net_returns (W : Type) `{Net W} : Prop :=
  (forall w, (create_connection w).1 <> Stuck) /\
  (forall d w, (sendall d w).1 <> Stuck) /\
  (forall n w, (recv n w).1 <> Stuck) /\
  (forall w, (close w).1 <> Stuck).

(** [n] passes of the loop of [Web.write_var] in a row that fall through
    to the next pass, from world [w] to world [w']. *)
Fixpoint failed_rounds {W} `{Net W} (retry_max n : nat) (idx val : Z) (w w' : W) : Prop :=
  match n with
  | O => w = w'
  | S n' => exists w1, Web.write_round retry_max idx val w = (Ok None, w1) /\
                       failed_rounds retry_max n' idx val w1 w'
  end.

(** [m] keeps [P]: from a state where [P] holds it ends, however it
    ends, in a state where [P] holds. *)
Definition preserves {St A} (P : St -> Prop) (m : M (S:=St) A) : Prop :=
  forall s r s', P s -> m s = (r, s') -> P s'.

(** The size of the server's table and the number of its registers. *)
Definition shape (sz : Z) (len : nat) (w : Live.world) : Prop :=
  _size (Live.table w) = sz /\ length (_vals (Live.table w)) = len.

(** What [read_var] may return: the failure value, or the value field
    of an eight-byte reply whose command is READ_ACK. *)
Definition read_result (v : Z) : Prop :=
  v = -1 \/ exists buf i r, struct.unpack_BBHI buf = Ok (0x41, i, r, v).

(** [m] comes back from every state, with a value or an exception. *)
Definition returns {St A} (m : M (S:=St) A) : Prop :=
  forall s, (m s).1 <> Stuck.

(** Every value [m] returns satisfies [Q]. *)
Definition ensures {St A} (Q : A -> Prop) (m : M (S:=St) A) : Prop :=
  forall s a s', m s = (Ok a, s') -> Q a.

(** ** Histories of a table *)

(** The table after the calls [set(idx, val)] of [ps], in order, each
    call ending as it ends (an exception leaves the table as it was). *)
Definition apply_sets (ps : list (Z * Z)) (t : VarTable) : VarTable :=
  fold_left (fun t p => (run (VarTableM.set p.1 p.2) t).1.2) ps t.

(** The value of the last pair of [ps] whose index is [idx]. *)
Fixpoint last_write (idx : Z) (ps : list (Z * Z)) : option Z :=
  match ps with
  | [] => None
  | (i, v) :: ps' =>
      match last_write idx ps' with
      | Some v' => Some v'
      | None => if bool_decide (i = idx) then Some v else None
      end
  end.

(** ** server/byte_stream.py: [_io_cb] whole, and the life of a stream *)

Module StreamIO.

(** What [self._sock.recv(8192)] does on a read event: a chunk (empty
    when the peer has closed), or BlockingIOError / ConnectionError. *)
Inductive sock_recv : Type := Recv (chunk : bytes) | RecvError.

(** What [self._sock.send(self._tx_buf)] does on a write event: it
    takes the first [n] bytes, or raises. *)
Inductive sock_send : Type := Sent (n : nat) | SendError.

(** [def _io_cb(self, mask)]: [readable] and [writable] are the events
    of [mask] with what the socket does; the second component is what
    went onto the wire. *)
Definition _io_cb (readable : option sock_recv) (writable : option sock_send)
    (s : ByteStream.t) : ByteStream.t * bytes :=
  if ByteStream._closed s then (s, [])
  else
    let s1 := match readable with
              | Some (Recv chunk) => ByteStream._io_cb chunk s
              | Some RecvError | None => s
              end in
    if ByteStream._closed s1 then (s1, [])     (* self.close(); return *)
    else
      match writable with
      | Some (Sent n) =>
          if decide (ByteStream._tx_buf s1 = []) then (s1, [])
          else (ByteStream.mk (ByteStream._rx_buf s1) (drop n (ByteStream._tx_buf s1))
                  (ByteStream._closed s1),
                take n (ByteStream._tx_buf s1))
      | Some SendError | None => (s1, [])
      end.

(** What happens to a stream, from either side. *)
Inductive action : Type :=
| Send (data : bytes)                                        (* stream.send(data) *)
| Event (readable : option sock_recv) (writable : option sock_send)  (* _io_cb(mask) *)
| Poll                                                        (* stream.recv() *)
| Close.                                                      (* stream.close() *)

(** A stream with the bytes it has put on the wire and the buffers
    its [recv] has handed out. *)
Record life : Type := mkLife {
  stream : ByteStream.t;
  wire : bytes;
  polled : list bytes
}.

Definition step (l : life) (a : action) : life :=
  match a with
  | Send data => mkLife (ByteStream.send data (stream l)) (wire l) (polled l)
  | Event rd wr =>
      let '(s, out) := _io_cb rd wr (stream l) in mkLife s (wire l ++ out) (polled l)
  | Poll =>
      match ByteStream.recv (stream l) with
      | (Some data, s) => mkLife s (wire l) (polled l ++ [data])
      | (None, s) => mkLife s (wire l) (polled l)
      end
  | Close => mkLife (ByteStream.close (stream l)) (wire l) (polled l)
  end.

Definition run (acts : list action) : life :=
  fold_left step acts (mkLife ByteStream.init [] []).

(** The data of the [send] calls, and the chunks the socket returned,
    in order. *)
Definition sends_of (acts : list action) : bytes :=
  concat (omap (fun a => match a with Send d => Some d | _ => None end) acts).

Definition chunks_of (acts : list action) : bytes :=
  concat (omap (fun a => match a with Event (Some (Recv c)) _ => Some c | _ => None end) acts).

End StreamIO.

(** [m] dials the server at most [k] times. *)
Definition dials_within {A} (k : nat) (m : M (S:=Scripted.world) A) : Prop :=
  forall w r w', m w = (r, w') ->
    (Scripted.dialled w <= Scripted.dialled w' <= Scripted.dialled w + k)%nat.

(** ** web/main.py

    The order book and the register endpoints of the FastAPI
    application.  An [HTTPException] raised by a handler is the
    response the framework sends: it is a value of [http], not an
    exception of [exn].  Orders are the fields of the pydantic model;
    field validation ([ge=0]) happens when an order is created and is a
    hypothesis where it matters.  [ORDER_FILE] holds what
    [_save_orders] wrote last, the JSON text apart. *)

Module WebMain.

Inductive Product : Type := A | B | C.

(** [EXEC_REG_MAP], in the order its items are iterated. *)
Definition EXEC_REG_MAP : list (Product * Z) := [(A, 16); (B, 17); (C, 18)].

Record Order : Type := mkOrder {
  id : string;
  quantity_a : Z;
  quantity_b : Z;
  quantity_c : Z;
  priority : string;
  deliveryDate : string;
  customer : string;
  status : string;
  createdAt : string
}.

(** [def total_quantity(self) -> int] *)
Definition total_quantity (o : Order) : Z :=
  quantity_a o + quantity_b o + quantity_c o.

(** [getattr(order, f"quantity_{product.lower()}")] *)
Definition quantity (o : Order) (p : Product) : Z :=
  match p with
  | A => quantity_a o
  | B => quantity_b o
  | C => quantity_c o
  end.

(** [order.status = st] *)
Definition with_status (st : string) (o : Order) : Order :=
  mkOrder (id o) (quantity_a o) (quantity_b o) (quantity_c o) (priority o)
          (deliveryDate o) (customer o) st (createdAt o).

Inductive http (A : Type) : Type :=
| HTTPException (status_code : Z)
| Response (body : A).
Arguments HTTPException {A} status_code.
Arguments Response {A} body.

(** One entry of [results]: reg, old, new, quantity. *)
Record result_entry : Type := mkEntry {
  reg : Z;
  old : Z;
  new : Z;
  entry_quantity : Z
}.

(** [next((o for o in orders if o.id == order_id), None)] *)
Definition find_order (order_id : string) (os : list Order) : option Order :=
  List.find (fun o => bool_decide (id o = order_id)) os.

(** Assigning [status] on the object [find_order] returned: the first
    order of the list with that id changes, in place. *)
Fixpoint assign_status (order_id st : string) (os : list Order) : list Order :=
  match os with
  | [] => []
  | o :: os' =>
      if bool_decide (id o = order_id) then with_status st o :: os'
      else o :: assign_status order_id st os'
  end.

(** [REG_LIST = list(range(0, 19))] *)
Definition REG_LIST : list Z := map Z.of_nat (seq 0 19).

Section App.
Context {W : Type} `{Net W}.
Variable RETRY_MAX : nat.

(** The process: its socket world, the global [orders] and the file. *)
Record state : Type := mkState {
  world : W;
  orders : list Order;
  ORDER_FILE : option (list Order)
}.

(** A call into Communication.py. *)
Definition comm {A} (m : M (S:=W) A) : M (S:=state) A :=
  fun s => let '(r, w) := m (world s) in (r, mkState w (orders s) (ORDER_FILE s)).

(** [def _save_orders(orders)] *)
Definition _save_orders : M (S:=state) unit :=
  modify (fun s => mkState (world s) (orders s) (Some (orders s))).

(** [def list_orders()] *)
Definition list_orders : M (S:=state) (list Order) :=
  fun s => (Ok (orders s), s).

(** [def delete_order(order_id, force=False)] *)
Definition delete_order (order_id : string) (force : bool) : M (S:=state) (http unit) :=
  let! os := list_orders in
  match find_order order_id os with
  | None => ret (HTTPException 404)
  | Some order =>
      if negb force && negb (bool_decide (status order = "pending"%string)) then
        ret (HTTPException 409)
      else
        do! modify (fun s => mkState (world s)
                               (filter (fun o => id o <> order_id) (orders s))
                               (ORDER_FILE s)) in
        do! _save_orders in
        ret (Response tt)
  end.

(** The value written for one product. *)
Definition new_val (action : string) (old_val quantity : Z) : Z :=
  if bool_decide (action = "produce"%string) then old_val + quantity
  else Z.max 0 (old_val - quantity).

(** One pass of [for product, reg in EXEC_REG_MAP.items()]. *)
Definition exec_product (order : Order) (action : string)
    (results : list (Product * result_entry)) (item : Product * Z) :
    M (S:=W) (list (Product * result_entry)) :=
  let '(product, reg) := item in
  let q := quantity order product in
  if q <=? 0 then ret results
  else
    let! old_val := Web.read_var reg in
    let nv := new_val action old_val q in
    let! _ := Web.write_var RETRY_MAX reg nv in
    ret (results ++ [(product, mkEntry reg old_val nv q)]).

(** The whole loop, [results] starting empty. *)
Fixpoint exec_products (order : Order) (action : string)
    (results : list (Product * result_entry)) (items : list (Product * Z)) :
    M (S:=W) (list (Product * result_entry)) :=
  match items with
  | [] => ret results
  | item :: items' =>
      let! results' := exec_product order action results item in
      exec_products order action results' items'
  end.

(** [def exec_order(order_id, action="produce")] *)
Definition exec_order (order_id action : string) :
    M (S:=state) (http (string * list (Product * result_entry))) :=
  let! os := list_orders in
  match find_order order_id os with
  | None => ret (HTTPException 404)
  | Some order =>
      if bool_decide (action = "produce"%string) &&
         negb (bool_decide (status order = "pending"%string)) then
        ret (HTTPException 409)
      else if bool_decide (action = "return"%string) &&
              negb (bool_decide (status order = "executed"%string)) then
        ret (HTTPException 409)
      else if total_quantity order =? 0 then ret (HTTPException 400)
      else
        let! results := comm (exec_products order action [] EXEC_REG_MAP) in
        do! (if bool_decide (action = "produce"%string) then
               modify (fun s => mkState (world s)
                                  (assign_status order_id "executed" (orders s))
                                  (ORDER_FILE s))
             else if bool_decide (action = "return"%string) then
               modify (fun s => mkState (world s)
                                  (assign_status order_id "returned" (orders s))
                                  (ORDER_FILE s))
             else ret tt) in
        do! _save_orders in
        ret (Response (action, results))
  end.

(** [{addr: read_var(addr) for addr in REG_LIST}], the dict as the list
    of its items in insertion order. *)
Fixpoint read_all (addrs : list Z) : M (S:=W) (list (Z * Z)) :=
  match addrs with
  | [] => ret []
  | addr :: addrs' =>
      let! v := Web.read_var addr in
      let! d := read_all addrs' in
      ret ((addr, v) :: d)
  end.

(** [def get_registers()] *)
Definition get_registers : M (S:=W) (list (Z * Z)) := read_all REG_LIST.

(** [def write_register(reg, val)]: the body [{"ok": True, "reg": reg,
    "val": val}]. *)
Definition write_register (reg val : Z) : M (S:=W) (bool * Z * Z) :=
  let! _ := Web.write_var RETRY_MAX reg val in
  ret (true, reg, val).

End App.

End WebMain.

(** A link that is up and hands each request to the server in one
    piece. *)
Definition delivers (l : Live.link) : Prop :=
  match l with
  | Live.Up cut => ~ (0 < cut < FRAME_SIZE)%nat
  | Live.Down => False
  end.
(** ** server/main.py: the console

    [inputs] lists what the successive calls [int(input(...))] give: an
    integer, or [None] when the call raises (ValueError for text that is
    no integer, EOFError at the end of the input).  When the list is
    used up the console is waiting for the next line. *)

Module ServerMain.

(** [async def console(server)]: the bare [except] ends the loop on
    any exception of the two inputs and of [set]. *)
Fixpoint console (inputs : list (option Z)) : M (S:=tstate) unit :=
  match inputs with
  | [] => stuck
  | None :: _ => ret tt
  | Some idx :: inputs' =>
      match inputs' with
      | [] => stuck
      | None :: _ => ret tt
      | Some val :: rest =>
          let! again := try_except (do! VarTableM.set idx val in ret true)
                                   (fun _ => ret false) in
          if again then console rest else ret tt
      end
  end.

(** The lines typed for the calls [set(idx, val)] of [ps]. *)
Definition typed (ps : list (Z * Z)) : list (option Z) :=
  flat_map (fun p => [Some p.1; Some p.2]) ps.

End ServerMain.

(** * Properties *)

(** ** Worked runs *)

Example set_then_get :
  run (do! VarTableM.set 11 7500 in VarTableM.get 11) (VarTableM.init 100) =
  (Ok 7500, with_vals (fun l => <[11%nat:=7500]> l) (VarTableM.init 100),
   [EvAcquire; EvStore 11 7500; EvRelease]).
Proof. vm_compute. reflexivity. Qed.

Example pack_read_ack :
  struct.pack_BBHI 0x41 11 0 7500 =
  Ok ["A"; "011"; "000"; "000"; "000"; "000"; "029"; "L"]%byte.
Proof. vm_compute. reflexivity. Qed.

Example unpack_read_ack :
  struct.unpack_BBHI ["A"; "011"; "000"; "000"; "000"; "000"; "029"; "L"]%byte =
  Ok (0x41, 11, 0, 7500).
Proof. vm_compute. reflexivity. Qed.

Example serve_write_then_read :
  let '(r, s) := AsyncServer.handle_client
                   [frame 0x50 11 0; frame 0x52 11 7500; frame 0x40 11 0 ++ frame 0x42 11 0]
                   AsyncServer.new in
  r = Ok tt /\
  AsyncServer.written s = frame 0x51 11 0 ++ frame 0x53 11 0 ++ frame 0x41 11 7500 /\
  AsyncServer.writer_closed s = true /\
  _vals (AsyncServer.var_table s) !! 11%nat = Some 7500.
Proof. vm_compute. repeat split. Qed.

Example serve_read_out_of_range :
  let '(r, s) := AsyncServer.handle_client [frame 0x40 150 0] AsyncServer.new in
  r = Raise IndexError /\ AsyncServer.written s = [] /\
  AsyncServer.writer_closed s = true.
Proof. vm_compute. repeat split. Qed.

(** ** Python indexing *)

Lemma py_index_in_range {A} (l : list A) (idx : Z) :
  0 <= idx < Z.of_nat (length l) -> py_index l idx = Some (Z.to_nat idx).
Proof. intros Hr. unfold py_index. rewrite decide_True; auto. Qed.

Lemma py_getitem_in_range {A} (l : list A) (idx : Z) :
  0 <= idx < Z.of_nat (length l) ->
  exists x, l !! Z.to_nat idx = Some x /\ py_getitem l idx = Ok x.
Proof.
  intros Hr. unfold py_getitem. rewrite py_index_in_range by done.
  destruct (lookup_lt_is_Some_2 l (Z.to_nat idx)) as [x Hx]; [lia|].
  exists x. by rewrite Hx.
Qed.

Lemma py_getitem_negative {A} (l : list A) (idx : Z) :
  - Z.of_nat (length l) <= idx < 0 ->
  exists x, l !! Z.to_nat (Z.of_nat (length l) + idx) = Some x /\ py_getitem l idx = Ok x.
Proof.
  intros Hr. unfold py_getitem, py_index.
  rewrite decide_False by lia. rewrite decide_True by lia.
  destruct (lookup_lt_is_Some_2 l (Z.to_nat (Z.of_nat (length l) + idx))) as [x Hx]; [lia|].
  exists x. by rewrite Hx.
Qed.

Lemma py_getitem_outside {A} (l : list A) (idx : Z) :
  ~ (- Z.of_nat (length l) <= idx < Z.of_nat (length l)) ->
  py_getitem l idx = Raise IndexError.
Proof.
  intros Hr. unfold py_getitem, py_index.
  rewrite !decide_False by lia. done.
Qed.

(** ** VarTable *)

Ltac table_unfold :=
  unfold run, VarTableM.set, VarTableM.get, VarTableM.load, VarTableM.store,
    VarTableM.acquire, VarTableM.release, VarTableM.call_hook, emit,
    try_finally, bind, ret, raise, get_state, modify, lift_result; simpl.

Lemma table_ok_init (size : Z) : table_ok (VarTableM.init size).
Proof. unfold table_ok, VarTableM.init; simpl. by rewrite length_replicate. Qed.

Lemma table_ok_range (t : VarTable) (idx : Z) :
  table_ok t -> 0 <= idx < _size t -> 0 <= idx < Z.of_nat (length (_vals t)).
Proof. unfold table_ok. intros -> ?. lia. Qed.

(** [set] on an index outside [0, size): the guard raises before
    anything is touched. *)
Lemma set_out_of_range (t : VarTable) (idx val : Z) :
  ~ (0 <= idx < _size t) ->
  run (VarTableM.set idx val) t = (Raise IndexError, t, []).
Proof.
  intros Hr. table_unfold. rewrite bool_decide_eq_false_2 by done. done.
Qed.

(** [set] of the value the register already holds: the fast path. *)
Lemma set_same_value (t : VarTable) (idx val : Z) :
  table_ok t -> 0 <= idx < _size t ->
  _vals t !! Z.to_nat idx = Some val ->
  run (VarTableM.set idx val) t = (Ok tt, t, []).
Proof.
  intros Hok Hr Hv. table_unfold. rewrite bool_decide_eq_true_2 by done. simpl.
  destruct (py_getitem_in_range (_vals t) idx) as (x & Hx & ->);
    [by apply table_ok_range|].
  simpl. rewrite Hx in Hv. injection Hv as ->.
  rewrite bool_decide_eq_true_2 by done. done.
Qed.

(** [set] of a new value: one store under the lock, then the hook. *)
Lemma set_new_value (t : VarTable) (idx val old : Z) :
  table_ok t -> 0 <= idx < _size t ->
  _vals t !! Z.to_nat idx = Some old -> old <> val ->
  run (VarTableM.set idx val) t =
  (Ok tt, with_vals (fun l => <[Z.to_nat idx:=val]> l) t,
   [EvAcquire; EvStore idx val; EvRelease] ++
   hook_trace t idx val (<[Z.to_nat idx:=val]> (_vals t))).
Proof.
  intros Hok Hr Hv Hne. table_unfold. rewrite bool_decide_eq_true_2 by done. simpl.
  destruct (py_getitem_in_range (_vals t) idx) as (x & Hx & ->);
    [by apply table_ok_range|].
  simpl. rewrite Hx in Hv. injection Hv as ->.
  rewrite bool_decide_eq_false_2 by done.
  unfold py_setitem. rewrite py_index_in_range by (by apply table_ok_range).
  simpl. unfold hook_trace. destruct t as [vals oc lk sz]; simpl.
  destruct oc; reflexivity.
Qed.

Lemma get_in_range (t : VarTable) (tr : list event) (idx : Z) :
  table_ok t -> 0 <= idx < _size t ->
  exists x, _vals t !! Z.to_nat idx = Some x /\
            VarTableM.get idx (t, tr) = (Ok x, (t, tr)).
Proof.
  intros Hok Hr. table_unfold.
  destruct (py_getitem_in_range (_vals t) idx) as (x & Hx & ->);
    [by apply table_ok_range|].
  eauto.
Qed.

Lemma table_ok_with_vals (t : VarTable) (i : nat) (v : Z) :
  table_ok t -> table_ok (with_vals (fun l => <[i:=v]> l) t).
Proof. unfold table_ok; simpl. by rewrite length_insert. Qed.

(** Every outcome of [set] on a well-formed table is one of the three
    above. *)
Lemma set_cases (t : VarTable) (idx val : Z) :
  table_ok t ->
  (~ (0 <= idx < _size t) /\
   run (VarTableM.set idx val) t = (Raise IndexError, t, [])) \/
  (0 <= idx < _size t /\ _vals t !! Z.to_nat idx = Some val /\
   run (VarTableM.set idx val) t = (Ok tt, t, [])) \/
  (exists old, 0 <= idx < _size t /\ _vals t !! Z.to_nat idx = Some old /\ old <> val /\
   run (VarTableM.set idx val) t =
   (Ok tt, with_vals (fun l => <[Z.to_nat idx:=val]> l) t,
    [EvAcquire; EvStore idx val; EvRelease] ++
    hook_trace t idx val (<[Z.to_nat idx:=val]> (_vals t)))).
Proof.
  intros Hok. destruct (decide (0 <= idx < _size t)) as [Hr|Hr].
  - destruct (lookup_lt_is_Some_2 (_vals t) (Z.to_nat idx)) as [old Hold].
    { pose proof (table_ok_range t idx Hok Hr). lia. }
    destruct (decide (old = val)) as [->|Hne].
    + right; left. auto using set_same_value.
    + right; right. exists old. eauto using set_new_value.
  - left. auto using set_out_of_range.
Qed.

Example scenario_write_then_read :
  let w0 := Live.start (VarTableM.init 100) [Live.Up 0; Live.Up 0; Live.Up 0; Live.Up 0] in
  let '(r1, w1) := Web.write_var 5 11 7500 w0 in
  let '(r2, w2) := Web.read_var 11 w1 in
  let '(r3, w3) := Web.read_var 150 w2 in
  r1 = Ok true /\ r2 = Ok 7500 /\ r3 = Ok (-1) /\
  _vals (Live.table w3) !! 11%nat = Some 7500 /\ Live.dialled w3 = 4%nat.
Proof. vm_compute. repeat split. Qed.

(** ** VarTable: the hook, the frame of [set], the bounds *)

Lemma holds_app (tr1 tr2 : list event) : holds (tr1 ++ tr2) = holds tr1 + holds tr2.
Proof. induction tr1 as [|[] tr1 IH]; simpl; lia. Qed.

(** C7.  For a valid index and an installed hook, one call of [set]
    invokes the hook if and only if the new value differs from the old
    one.  The invocation is the last step of [set], it passes [idx] and
    [val], the callee finds [val] already in the register, every
    acquisition of the lock that [set] made is released by then and the
    lock's hold count is what it was before the call.  Setting a
    register to its current value leaves the table as it was and does
    nothing at all: no store, no lock, no hook. *)
Theorem C7_on_change_iff_changed (t : VarTable) (idx val old : Z) (h : hook) :
  table_ok t -> 0 <= idx < _size t -> on_change t = Some h ->
  _vals t !! Z.to_nat idx = Some old ->
  exists t' tr,
    run (VarTableM.set idx val) t = (Ok tt, t', tr) /\
    ((exists seen held, EvCall h idx val seen held ∈ tr) <-> old <> val) /\
    (forall h' i v seen held, EvCall h' i v seen held ∈ tr ->
       h' = h /\ i = idx /\ v = val /\
       seen = _vals t' /\ seen !! Z.to_nat idx = Some val /\
       held = _lock t /\
       exists pre, tr = pre ++ [EvCall h' i v seen held] /\
                   EvStore idx val ∈ pre /\ holds pre = 0 /\
                   forallb (fun e => negb (is_call e)) pre = true) /\
    (old = val -> t' = t /\ tr = []).
Proof.
  intros Hok Hr Hh Hold.
  destruct (decide (old = val)) as [->|Hne].
  - exists t, []. rewrite set_same_value by done.
    split; [done|]. split; [|split].
    + split; [intros (?&?&Hin); by apply elem_of_nil in Hin|done].
    + intros ????? Hin. by apply elem_of_nil in Hin.
    + done.
  - eexists _, _. rewrite (set_new_value t idx val old) by done.
    split; [reflexivity|]. unfold hook_trace. rewrite Hh. simpl.
    assert (Hlen : (Z.to_nat idx < length (_vals t))%nat).
    { pose proof (table_ok_range t idx Hok Hr). lia. }
    split; [|split].
    + split; [done|]. intros _. do 2 eexists.
      rewrite !elem_of_cons. right; right; right; left. reflexivity.
    + intros h' i v seen held Hin.
      rewrite !elem_of_cons in Hin.
      destruct Hin as [Hin|[Hin|[Hin|[Hin|Hin]]]]; try discriminate.
      * injection Hin as -> -> -> -> ->.
        repeat split; try done.
        { by apply list_lookup_insert_eq. }
        exists [EvAcquire; EvStore idx val; EvRelease]. repeat split.
        rewrite !elem_of_cons. right; left. done.
      * by apply elem_of_nil in Hin.
    + done.
Qed.

Lemma C7_witness :
  exists t' tr,
    run (VarTableM.set 11 7500) (AsyncServer.var_table AsyncServer.new) = (Ok tt, t', tr) /\
    ((exists seen held, EvCall AsyncServer._broadcast_change 11 7500 seen held ∈ tr) <-> 0 <> 7500) /\
    (forall h' i v seen held, EvCall h' i v seen held ∈ tr ->
       h' = AsyncServer._broadcast_change /\ i = 11 /\ v = 7500 /\
       seen = _vals t' /\ seen !! Z.to_nat 11 = Some 7500 /\
       held = _lock (AsyncServer.var_table AsyncServer.new) /\
       exists pre, tr = pre ++ [EvCall h' i v seen held] /\
                   EvStore 11 7500 ∈ pre /\ holds pre = 0 /\
                   forallb (fun e => negb (is_call e)) pre = true) /\
    (0 = 7500 -> t' = AsyncServer.var_table AsyncServer.new /\ tr = []).
Proof.
  apply (C7_on_change_iff_changed (AsyncServer.var_table AsyncServer.new) 11 7500 0
           AsyncServer._broadcast_change).
  - reflexivity.
  - simpl. lia.
  - reflexivity.
  - reflexivity.
Defined.

Lemma get_pure (t : VarTable) (tr : list event) (idx : Z) :
  exists r, VarTableM.get idx (t, tr) = (r, (t, tr)).
Proof. table_unfold. eauto. Qed.

(** C10.  [set] touches at most the register at [idx]: the size, the
    number of registers, the hook and every other register are as
    before.  When [set] raises, and when the register already holds
    [val], the table is exactly as before and nothing happened (no
    store, no hook).  [get] leaves the table and the trace as they
    were, whatever it returns. *)
Theorem C10_set_frame (t : VarTable) (idx val : Z) :
  (exists r t' tr,
     run (VarTableM.set idx val) t = (r, t', tr) /\
     _size t' = _size t /\
     length (_vals t') = length (_vals t) /\
     on_change t' = on_change t /\
     (forall j : nat, Z.of_nat j <> idx -> _vals t' !! j = _vals t !! j) /\
     (forall e, r = Raise e -> e = IndexError /\ t' = t /\ tr = []) /\
     (0 <= idx < _size t -> _vals t !! Z.to_nat idx = Some val ->
      r = Ok tt /\ t' = t /\ tr = [])) /\
  (forall (i : Z) (tr0 : list event),
     exists r, VarTableM.get i (t, tr0) = (r, (t, tr0))).
Proof.
  split; [|intros; apply get_pure].
  destruct (decide (0 <= idx < _size t)) as [Hr|Hr].
  2:{ exists (Raise IndexError), t, []. rewrite set_out_of_range by done.
      repeat split; try done; try congruence. }
  table_unfold. rewrite bool_decide_eq_true_2 by done. simpl.
  unfold py_getitem, py_setitem, py_index.
  destruct (decide (0 <= idx < Z.of_nat (length (_vals t)))) as [Hl|Hl].
  2:{ rewrite decide_False by lia. simpl.
      exists (Raise IndexError), t, []. repeat split; try done; try congruence.
      all: try (intros; exfalso; match goal with
                | Hv : _ !! _ = Some _ |- _ => apply lookup_lt_Some in Hv; lia
                end). }
  destruct (lookup_lt_is_Some_2 (_vals t) (Z.to_nat idx)) as [old Hold]; [lia|].
  rewrite Hold. simpl.
  destruct (decide (old = val)) as [->|Hne].
  - rewrite bool_decide_eq_true_2 by done.
    exists (Ok tt), t, []. repeat split; try done; congruence.
  - rewrite bool_decide_eq_false_2 by done. simpl.
    destruct t as [vals oc lk sz]; simpl in *.
    rewrite decide_True by done. simpl.
    destruct oc as [h|]; simpl;
      (eexists _, _, _; split; [reflexivity|]; simpl;
       repeat split; try done; try congruence;
       [ by rewrite length_insert
       | intros j Hj; apply list_lookup_insert_ne; lia ]).
Qed.

(** [get] on a well-formed table, index by index. *)
Lemma get_negative_index (t : VarTable) (idx : Z) :
  table_ok t -> - _size t <= idx < 0 ->
  exists x, _vals t !! Z.to_nat (_size t + idx) = Some x /\
            run (VarTableM.get idx) t = (Ok x, t, []).
Proof.
  intros Hok Hr. table_unfold.
  assert (Hlen : Z.of_nat (length (_vals t)) = _size t) by (rewrite Hok; lia).
  destruct (py_getitem_negative (_vals t) idx) as (x & Hx & ->); [lia|].
  rewrite Hlen in Hx. eauto.
Qed.

Lemma get_far_index (t : VarTable) (idx : Z) :
  table_ok t -> 0 <= _size t -> idx < - _size t \/ _size t <= idx ->
  run (VarTableM.get idx) t = (Raise IndexError, t, []).
Proof.
  intros Hok Hs Hr. table_unfold.
  rewrite py_getitem_outside; [done|]. rewrite Hok. lia.
Qed.

(** C3.  The last register of a table of 100 holds 42.  [get(-1)] does
    not raise: it returns 42, the value of register 99, while [set(-1, 7)]
    is rejected by the guard. *)
Theorem C3_get_negative_index_wraps :
  let t := with_vals (fun l => <[99%nat:=42]> l) (VarTableM.init 100) in
  run (VarTableM.get (-1)) t = (Ok 42, t, []) /\
  run (VarTableM.get 99) t = (Ok 42, t, []) /\
  run (VarTableM.set (-1) 7) t = (Raise IndexError, t, []).
Proof. vm_compute. repeat split. Qed.

(** ** The frame codec *)

Lemma Z_of_byte_range (b : byte) : 0 <= Z_of_byte b < 256.
Proof. unfold Z_of_byte. pose proof (Byte.to_N_bounded b). lia. Qed.

Lemma Z_of_byte_of_Z (z : Z) : 0 <= z < 256 -> Z_of_byte (byte_of_Z z) = z.
Proof.
  intros Hz. unfold Z_of_byte, byte_of_Z.
  destruct (Byte.of_N (Z.to_N z)) as [b|] eqn:E.
  - apply Byte.to_of_N in E. lia.
  - apply Byte.of_N_None_iff in E. lia.
Qed.

Lemma byte_of_Z_of_byte (b : byte) : byte_of_Z (Z_of_byte b) = b.
Proof.
  unfold Z_of_byte, byte_of_Z. rewrite N2Z.id. by rewrite Byte.of_to_N.
Qed.

Lemma lor_shiftl_byte (a b : Z) :
  0 <= a -> 0 <= b < 256 -> Z.lor (Z.shiftl a 8) b = a * 256 + b.
Proof.
  intros Ha Hb. rewrite Z.shiftl_mul_pow2 by lia. change (2 ^ 8) with 256.
  assert (Hland : Z.land (a * 256) b = 0).
  { apply Z.bits_inj'. intros n Hn. rewrite Z.land_spec, Z.bits_0.
    destruct (decide (n < 8)) as [Hlt|Hge].
    - change 256 with (2 ^ 8). rewrite Z.mul_pow2_bits_low by lia. done.
    - assert (Hbn : Z.testbit b n = false).
      { destruct (decide (b = 0)) as [->|Hb0]; [apply Z.bits_0|].
        apply Z.bits_above_log2; [lia|].
        assert (Z.log2 b < 8); [|lia].
        apply Z.log2_lt_pow2; [lia|]. change (2 ^ 8) with 256. lia. }
      rewrite Hbn. apply andb_false_r. }
  rewrite <- Z.lxor_lor by done. symmetry. by apply Z.add_nocarry_lxor.
Qed.

Lemma land_shiftr_byte (v k : Z) :
  0 <= k -> Z.land (Z.shiftr v k) 255 = (v / 2 ^ k) mod 256.
Proof.
  intros Hk. rewrite Z.shiftr_div_pow2 by done.
  change 255 with (Z.ones 8). rewrite Z.land_ones by lia. done.
Qed.

(** The eight bytes of a frame, written with division. *)
Lemma pack_BBHI_in_range (a b i : Z) :
  0 <= a < 256 -> 0 <= b < 256 -> 0 <= i < 2 ^ 32 ->
  struct.pack_BBHI a b 0 i =
  Ok [byte_of_Z a; byte_of_Z b; byte_of_Z 0; byte_of_Z 0;
      byte_of_Z (i / 2 ^ 24 mod 256); byte_of_Z (i / 2 ^ 16 mod 256);
      byte_of_Z (i / 2 ^ 8 mod 256); byte_of_Z (i mod 256)].
Proof.
  intros Ha Hb Hi. unfold struct.pack_BBHI, struct.fits.
  rewrite !bool_decide_eq_true_2 by (change (2 ^ 8) with 256; lia).
  simpl andb. cbv iota. unfold struct.be_bytes.
  change (8 * Z.of_nat 0) with 0. change (8 * Z.of_nat 1) with 8.
  change (8 * Z.of_nat 2) with 16. change (8 * Z.of_nat 3) with 24.
  rewrite !land_shiftr_byte by lia.
  change (2 ^ 0) with 1. rewrite !Z.div_1_r.
  rewrite (Z.mod_small a 256), (Z.mod_small b 256) by lia.
  reflexivity.
Qed.

Lemma pack_BBHI_out_of_range (a b i : Z) :
  ~ (0 <= a < 256 /\ 0 <= b < 256 /\ 0 <= i < 2 ^ 32) ->
  struct.pack_BBHI a b 0 i = Raise StructError.
Proof.
  intros Hn. unfold struct.pack_BBHI, struct.fits.
  change (2 ^ 8) with 256.
  destruct (decide (0 <= a < 256)); [|by rewrite (bool_decide_eq_false_2 (0 <= a < 256))].
  destruct (decide (0 <= b < 256));
    [|by rewrite (bool_decide_eq_false_2 (0 <= b < 256)), andb_false_r].
  rewrite (bool_decide_eq_false_2 (0 <= i < 2 ^ 32)) by tauto.
  by rewrite andb_false_r.
Qed.

Lemma be_recompose (i : Z) :
  0 <= i < 4294967296 ->
  (((i / 16777216 mod 256) * 256 + i / 65536 mod 256) * 256 + i / 256 mod 256) * 256
  + i mod 256 = i.
Proof.
  intros Hi.
  assert (E1 : i / 16777216 = i / 256 / 256 / 256) by (rewrite !Z.div_div by lia; reflexivity).
  assert (E2 : i / 65536 = i / 256 / 256) by (rewrite Z.div_div by lia; reflexivity).
  assert (E3 : i / 256 / 256 / 256 / 256 = 0).
  { rewrite !Z.div_div by lia. apply Z.div_small. lia. }
  rewrite E1, E2.
  pose proof (Z.div_mod i 256 ltac:(lia)).
  pose proof (Z.div_mod (i / 256) 256 ltac:(lia)).
  pose proof (Z.div_mod (i / 256 / 256) 256 ltac:(lia)).
  pose proof (Z.div_mod (i / 256 / 256 / 256) 256 ltac:(lia)) as H4.
  rewrite E3 in H4. lia.
Qed.

Lemma unpack_pack_BBHI (a b i : Z) (bs : bytes) :
  0 <= a < 256 -> 0 <= b < 256 -> 0 <= i < 2 ^ 32 ->
  struct.pack_BBHI a b 0 i = Ok bs ->
  struct.unpack_BBHI bs = Ok (a, b, 0, i).
Proof.
  intros Ha Hb Hi. rewrite pack_BBHI_in_range by done. intros [= <-].
  unfold struct.unpack_BBHI, struct.unpack_from_BBHI, struct.window. simpl.
  unfold struct.be_int. simpl fold_left.
  assert (H24 : 0 <= i / 2 ^ 24 mod 256 < 256) by (apply Z.mod_pos_bound; lia).
  assert (H16 : 0 <= i / 2 ^ 16 mod 256 < 256) by (apply Z.mod_pos_bound; lia).
  assert (H8 : 0 <= i / 2 ^ 8 mod 256 < 256) by (apply Z.mod_pos_bound; lia).
  assert (H0 : 0 <= i mod 256 < 256) by (apply Z.mod_pos_bound; lia).
  rewrite !Z_of_byte_of_Z by lia.
  rewrite !Z.shiftl_0_l, !Z.lor_0_l.
  change (2 ^ 24) with 16777216 in *. change (2 ^ 16) with 65536 in *.
  change (2 ^ 8) with 256 in *. change (2 ^ 32) with 4294967296 in *.
  rewrite (lor_shiftl_byte (i / 16777216 mod 256)) by lia.
  rewrite (lor_shiftl_byte (_ * 256 + _)) by lia.
  rewrite (lor_shiftl_byte (_ * 256 + _)) by lia.
  by rewrite be_recompose.
Qed.

(** C8.  [struct.pack('!BBHI', command, index, 0, value)] yields eight
    bytes exactly when [command] and [index] are in [0, 255] and [value]
    is in [0, 2^32 - 1]: the command, the index, two zero bytes, then
    the value most significant byte first; unpacking gives the arguments
    back.  Any argument outside its field makes [pack] raise
    struct.error: nothing is truncated. *)
Theorem C8_pack_layout (cmd idx val : Z) :
  struct.pack_BBHI cmd idx 0 val =
    (if decide (0 <= cmd < 256 /\ 0 <= idx < 256 /\ 0 <= val < 2 ^ 32)
     then Ok [byte_of_Z cmd; byte_of_Z idx; byte_of_Z 0; byte_of_Z 0;
              byte_of_Z (val / 2 ^ 24 mod 256); byte_of_Z (val / 2 ^ 16 mod 256);
              byte_of_Z (val / 2 ^ 8 mod 256); byte_of_Z (val mod 256)]
     else Raise StructError) /\
  (forall bs, struct.pack_BBHI cmd idx 0 val = Ok bs ->
     length bs = 8%nat /\ struct.unpack_BBHI bs = Ok (cmd, idx, 0, val)) /\
  VarTableM.encode_change idx val = struct.pack_BBHI 0x30 idx 0 val.
Proof.
  destruct (decide (0 <= cmd < 256 /\ 0 <= idx < 256 /\ 0 <= val < 2 ^ 32))
    as [(Hc & Hi & Hv)|Hn].
  - split; [by apply pack_BBHI_in_range|]. split; [|done].
    intros bs Hbs. split; [|by apply unpack_pack_BBHI].
    rewrite pack_BBHI_in_range in Hbs by done. by injection Hbs as <-.
  - rewrite pack_BBHI_out_of_range by done. repeat split; discriminate.
Qed.

(** C8, the claim as written fails: an index of 256 is not truncated to
    0, the encoder raises and produces no frame. *)
Lemma C8_counterexample :
  VarTableM.encode_change 256 1 = Raise StructError /\
  struct.pack_BBHI 0x52 11 0 (2 ^ 32) = Raise StructError /\
  ~ (exists bs, VarTableM.encode_change 256 1 = Ok bs /\ length bs = 8%nat).
Proof.
  split; [reflexivity|]. split; [reflexivity|].
  intros (bs & Hbs & _). discriminate Hbs.
Qed.

(** ** The frame loop *)

Section FrameLoopFacts.
Context {St : Type} `{Endpoint St}.

Lemma window_of_frame (data : bytes) (offset n : nat) :
  (n <= FRAME_SIZE)%nat -> (offset + FRAME_SIZE <= length data)%nat ->
  struct.window (take FRAME_SIZE (drop offset data)) 0 n = struct.window data offset n.
Proof.
  intros Hn Hlen. unfold struct.window.
  rewrite length_take, length_drop. unfold FRAME_SIZE in *.
  destruct (decide (0 + n <= 8 `min` (length data - offset))%nat);
    destruct (decide (offset + n <= length data)%nat); try lia.
  rewrite drop_0, take_take. do 2 f_equal. lia.
Qed.

(** [dispatch] looks at the eight bytes at [offset] and at nothing
    else. *)
Lemma dispatch_window (data : bytes) (offset : nat) (s : St) :
  (offset + FRAME_SIZE <= length data)%nat ->
  dispatch data offset s = dispatch (take FRAME_SIZE (drop offset data)) 0 s.
Proof.
  intros Hlen. unfold dispatch, struct.unpack_from_BB, struct.unpack_from_BBHI.
  rewrite !window_of_frame by (unfold FRAME_SIZE in *; lia). reflexivity.
Qed.

Lemma frame_loop_eq (fuel : nat) (data : bytes) (offset : nat) :
  frame_loop fuel data offset =
  if decide (offset + FRAME_SIZE <= length data)%nat then
    match fuel with
    | O => stuck
    | S fuel' =>
        let! sig := dispatch data offset in
        match sig with
        | Next => frame_loop fuel' data (offset + FRAME_SIZE)
        | Return => ret Return
        end
    end
  else ret Next.
Proof. destruct fuel; reflexivity. Qed.

Lemma frame_loop_frames (fuel : nat) (data : bytes) (k : nat) (s : St) :
  (length data / FRAME_SIZE - k <= fuel)%nat ->
  frame_loop fuel data (FRAME_SIZE * k) s =
  dispatch_all (map (fun j => take FRAME_SIZE (drop (FRAME_SIZE * j) data))
                    (seq k (length data / FRAME_SIZE - k))) s.
Proof.
  pose proof (Nat.div_mod_eq (length data) FRAME_SIZE) as Hdm.
  pose proof (Nat.mod_upper_bound (length data) FRAME_SIZE ltac:(done)) as Hub.
  remember (length data / FRAME_SIZE)%nat as n eqn:En.
  remember (length data mod FRAME_SIZE)%nat as r eqn:Er.
  clear En Er.
  revert k s. induction fuel as [|fuel IH]; intros k s Hfuel;
    rewrite frame_loop_eq.
  - rewrite decide_False by (unfold FRAME_SIZE in *; lia).
    replace (n - k)%nat with 0%nat by lia. reflexivity.
  - destruct (decide (FRAME_SIZE * k + FRAME_SIZE <= length data)%nat) as [Hle|Hgt].
    + replace (n - k)%nat with (S (n - S k)) by (unfold FRAME_SIZE in *; lia).
      cbn [seq map dispatch_all]. unfold bind.
      rewrite (dispatch_window data (FRAME_SIZE * k)) by done.
      destruct (dispatch (take FRAME_SIZE (drop (FRAME_SIZE * k) data)) 0 s)
        as [[[|]| |] s']; try reflexivity.
      replace (FRAME_SIZE * k + FRAME_SIZE)%nat with (FRAME_SIZE * S k)%nat by lia.
      apply IH. lia.
    + replace (n - k)%nat with 0%nat by (unfold FRAME_SIZE in *; lia). reflexivity.
Qed.

(** The loop of the source handles the complete frames of the
    buffer, left to right, and never runs out of fuel. *)
Lemma process_as_frames (data : bytes) (s : St) :
  process data s = dispatch_all (complete_frames data) s.
Proof.
  unfold process, complete_frames.
  change 0%nat with (FRAME_SIZE * 0)%nat at 1.
  rewrite frame_loop_frames.
  - by rewrite Nat.sub_0_r.
  - pose proof (Nat.Div0.div_le_upper_bound (length data) FRAME_SIZE (length data)).
    unfold FRAME_SIZE in *. lia.
Qed.

End FrameLoopFacts.

(** ** Frames of a buffer *)

Lemma complete_frames_short (data : bytes) :
  (length data < FRAME_SIZE)%nat -> complete_frames data = [].
Proof.
  intros Hlt. unfold complete_frames. by rewrite Nat.div_small.
Qed.

Lemma complete_frames_cons (fr rest : bytes) :
  length fr = FRAME_SIZE -> complete_frames (fr ++ rest) = fr :: complete_frames rest.
Proof.
  intros Hfr. unfold complete_frames. rewrite length_app, Hfr.
  replace ((FRAME_SIZE + length rest) / FRAME_SIZE)%nat
    with (S (length rest / FRAME_SIZE)).
  2:{ replace (FRAME_SIZE + length rest)%nat with (1 * FRAME_SIZE + length rest)%nat by lia.
      by rewrite Nat.div_add_l. }
  cbn [seq map]. f_equal.
  - rewrite Nat.mul_0_r, drop_0. by apply take_app_length'.
  - rewrite <- seq_shift, map_map. apply map_ext. intros j.
    replace (FRAME_SIZE * S j)%nat with (length fr + FRAME_SIZE * j)%nat by lia.
    by rewrite drop_app_add.
Qed.

Lemma complete_frames_app (pre post : bytes) (k : nat) :
  length pre = (FRAME_SIZE * k)%nat ->
  complete_frames (pre ++ post) = complete_frames pre ++ complete_frames post.
Proof.
  revert pre. induction k as [|k IH]; intros pre Hlen.
  - destruct pre; [|simpl in Hlen; lia]. reflexivity.
  - rewrite <- (take_drop FRAME_SIZE pre).
    assert (Hhd : length (take FRAME_SIZE pre) = FRAME_SIZE).
    { rewrite length_take. unfold FRAME_SIZE in *. lia. }
    rewrite <- app_assoc.
    rewrite (complete_frames_cons (take FRAME_SIZE pre) (drop FRAME_SIZE pre ++ post)) by done.
    rewrite (complete_frames_cons (take FRAME_SIZE pre) (drop FRAME_SIZE pre)) by done.
    rewrite (IH (drop FRAME_SIZE pre)); [reflexivity|].
    rewrite length_drop. unfold FRAME_SIZE in *. lia.
Qed.

Lemma complete_frames_trailing (pre tail : bytes) (k : nat) :
  length pre = (FRAME_SIZE * k)%nat -> (length tail < FRAME_SIZE)%nat ->
  complete_frames (pre ++ tail) = complete_frames pre.
Proof.
  intros Hpre Htail. rewrite (complete_frames_app pre tail k) by done.
  rewrite (complete_frames_short tail) by done. apply app_nil_r.
Qed.

Section DispatchAllFacts.
Context {St : Type} `{Endpoint St}.

Lemma dispatch_all_app (fs1 fs2 : list bytes) (s : St) :
  dispatch_all (fs1 ++ fs2) s =
  match dispatch_all fs1 s with
  | (Ok Next, s') => dispatch_all fs2 s'
  | other => other
  end.
Proof.
  revert s. induction fs1 as [|fr fs1 IH]; intros s; [reflexivity|].
  cbn [app dispatch_all]. unfold bind.
  destruct (dispatch fr 0 s) as [[[|]| |] s']; try reflexivity.
  apply IH.
Qed.

(** Frames before a point are handled first; what follows is handled
    from the state they leave, if they leave the loop running. *)
Lemma process_app (pre post : bytes) (k : nat) (s : St) :
  length pre = (FRAME_SIZE * k)%nat ->
  process (pre ++ post) s =
  match process pre s with
  | (Ok Next, s') => process post s'
  | other => other
  end.
Proof.
  intros Hpre. rewrite !process_as_frames.
  rewrite (complete_frames_app pre post k) by done.
  rewrite dispatch_all_app.
  destruct (dispatch_all (complete_frames pre) s) as [[[|]| |] s']; try reflexivity.
  by rewrite process_as_frames.
Qed.

Lemma process_one (fr post : bytes) (s : St) :
  length fr = FRAME_SIZE ->
  process (fr ++ post) s =
  match dispatch fr 0 s with
  | (Ok Next, s') => process post s'
  | other => other
  end.
Proof.
  intros Hfr. rewrite process_as_frames, complete_frames_cons by done.
  cbn [dispatch_all]. unfold bind.
  destruct (dispatch fr 0 s) as [[[|]| |] s']; try reflexivity.
  by rewrite process_as_frames.
Qed.

Lemma dispatch_confirm (fr : bytes) (idx : Z) (s : St) :
  struct.unpack_from_BB fr 0 = Ok (0x42, idx) ->
  dispatch fr 0 s = (Ok Return, s).
Proof. intros Hhd. unfold dispatch, bind, lift_result. rewrite Hhd. reflexivity. Qed.

Lemma dispatch_unrecognized (fr : bytes) (cmd idx : Z) (s : St) :
  struct.unpack_from_BB fr 0 = Ok (cmd, idx) -> recognized cmd = false ->
  dispatch fr 0 s = (Ok Next, s).
Proof.
  intros Hhd Hun. unfold dispatch, bind, lift_result. rewrite Hhd.
  unfold recognized in Hun. rewrite !orb_false_iff in Hun.
  destruct Hun as (((-> & ->) & ->) & ->). reflexivity.
Qed.
End DispatchAllFacts.

(** ** The handlers return *)

Arguments VarTableM.set : simpl never.
Arguments VarTableM.get : simpl never.
Arguments struct.pack_BBHI : simpl never.
Arguments struct.unpack_from_BB : simpl never.
Arguments struct.unpack_from_BBHI : simpl never.

Lemma pack_not_stuck (a b h i : Z) : struct.pack_BBHI a b h i <> Stuck.
Proof. unfold struct.pack_BBHI. by case_match. Qed.

Lemma unpack_from_BB_not_stuck (data : bytes) (offset : nat) :
  struct.unpack_from_BB data offset <> Stuck.
Proof. unfold struct.unpack_from_BB. by case_match. Qed.

Lemma unpack_from_BBHI_not_stuck (data : bytes) (offset : nat) :
  struct.unpack_from_BBHI data offset <> Stuck.
Proof. unfold struct.unpack_from_BBHI. by case_match. Qed.

Lemma get_not_stuck (idx : Z) (st : tstate) : (VarTableM.get idx st).1 <> Stuck.
Proof.
  table_unfold. unfold py_getitem. repeat case_match; simpl; congruence.
Qed.

Lemma set_not_stuck (idx val : Z) (st : tstate) : (VarTableM.set idx val st).1 <> Stuck.
Proof.
  table_unfold. unfold py_getitem, py_setitem.
  repeat (case_match; simpl in *; try congruence).
Qed.

Ltac server_unfold :=
  unfold dispatch, on_table, reply, AsyncServer.endpoint, SelectorServer.endpoint,
    AsyncServer.lift_table, AsyncServer.writer_write,
    SelectorServer.lift_table, SelectorServer.on_stream,
    bind, ret, raise, lift_result, modify; cbn beta iota.

Lemma async_dispatch_not_stuck (fr : bytes) (s : AsyncServer.state) :
  (dispatch fr 0 s).1 <> Stuck.
Proof.
  server_unfold.
  repeat (case_match; simplify_eq; cbn [fst snd] in *; try congruence);
    match goal with
    | Hx : VarTableM.get ?i ?st = (Stuck, _) |- _ =>
        pose proof (get_not_stuck i st) as Hn; rewrite Hx in Hn; by destruct Hn
    | Hx : VarTableM.set ?i ?v ?st = (Stuck, _) |- _ =>
        pose proof (set_not_stuck i v st) as Hn; rewrite Hx in Hn; by destruct Hn
    | Hx : struct.pack_BBHI _ _ _ _ = Stuck |- _ => by apply pack_not_stuck in Hx
    | Hx : struct.unpack_from_BBHI _ _ = Stuck |- _ => by apply unpack_from_BBHI_not_stuck in Hx
    | Hx : struct.unpack_from_BB _ _ = Stuck |- _ => by apply unpack_from_BB_not_stuck in Hx
    end.
Qed.

Lemma async_dispatch_all_not_stuck (frames : list bytes) (s : AsyncServer.state) :
  (dispatch_all frames s).1 <> Stuck.
Proof.
  revert s. induction frames as [|fr frames IH]; intros s; [simpl; congruence|].
  cbn [dispatch_all]. unfold bind.
  pose proof (async_dispatch_not_stuck fr s) as Hd.
  destruct (dispatch fr 0 s) as [[[|]| |] s']; simpl in *; try congruence; apply IH.
Qed.

Lemma async_process_not_stuck (data : bytes) (s : AsyncServer.state) :
  (process data s).1 <> Stuck.
Proof. rewrite process_as_frames. apply async_dispatch_all_not_stuck. Qed.



(** ** READ_CONFIRM and unrecognized commands *)

Lemma frame_not_nil (fr post : bytes) : length fr = FRAME_SIZE -> fr ++ post <> [].
Proof. destruct fr; [discriminate|done]. Qed.

Lemma async_serve_cons (data : bytes) (reads : list bytes) (s : AsyncServer.state) :
  data <> [] ->
  AsyncServer.serve (data :: reads) s =
  match process data s with
  | (Ok Next, s') => AsyncServer.serve reads s'
  | (Ok Return, s') => (Ok tt, s')
  | (Raise e, s') => (Raise e, s')
  | (Stuck, s') => (Stuck, s')
  end.
Proof.
  intros Hne. cbn [AsyncServer.serve]. rewrite decide_False by done.
  unfold bind. by destruct (process data s) as [[[|]| |] s'].
Qed.

(** C9.  A frame whose command byte is 0x42 ends the connection: the
    frame loop executes [return] in the state the earlier frames left,
    with no reply and no access to the table; nothing after the frame,
    in this buffer or in later reads, is looked at; [handle_client]
    returns normally through [finally].  A frame whose command byte is
    none of 0x40, 0x42, 0x50, 0x52 is skipped: the handler behaves as if
    the frame were not in the buffer, and goes on with the next frame
    or the next read.  Both hold for the loop of either server. *)
Theorem C9_confirm_closes_unknown_ignored (fr : bytes) (cmd idx : Z) :
  length fr = FRAME_SIZE ->
  struct.unpack_from_BB fr 0 = Ok (cmd, idx) ->
  (cmd = 0x42 ->
     (forall St (E : Endpoint St) (pre post : bytes) (k : nat) (s s' : St),
        length pre = (FRAME_SIZE * k)%nat -> process pre s = (Ok Next, s') ->
        process (pre ++ fr ++ post) s = (Ok Return, s')) /\
     (forall post reads s,
        AsyncServer.serve ((fr ++ post) :: reads) s = (Ok tt, s)) /\
     (forall post reads s,
        AsyncServer.handle_client ((fr ++ post) :: reads) s =
        (Ok tt, AsyncServer.mkState (AsyncServer.var_table s) (AsyncServer.table_log s)
                  (AsyncServer.written s) false true)) /\
     (forall post sched t tr tx,
        SelectorServer._recv_loop ([fr ++ post] :: sched)
          (SelectorServer.mkState t tr (ByteStream.mk [] tx false) true) =
        (Ok tt, SelectorServer.mkState t tr (ByteStream.mk [] tx false) true))) /\
  (recognized cmd = false ->
     (forall St (E : Endpoint St) (pre post : bytes) (k : nat) (s : St),
        length pre = (FRAME_SIZE * k)%nat ->
        process (pre ++ fr ++ post) s = process (pre ++ post) s) /\
     (forall reads s,
        AsyncServer.serve (fr :: reads) s = AsyncServer.serve reads s) /\
     (forall post reads s, post <> [] ->
        AsyncServer.serve ((fr ++ post) :: reads) s = AsyncServer.serve (post :: reads) s)).
Proof.
  intros Hlen Hhd. split.
  - intros ->.
    assert (Hproc : forall St (E : Endpoint St) post (s : St),
               process (fr ++ post) s = (Ok Return, s)).
    { intros. rewrite process_one by done. by rewrite (dispatch_confirm fr idx). }
    repeat split.
    + intros St E pre post k s s' Hpre Hrun.
      rewrite (process_app pre (fr ++ post) k) by done. rewrite Hrun. apply Hproc.
    + intros. rewrite async_serve_cons by (by apply frame_not_nil). by rewrite Hproc.
    + intros. unfold AsyncServer.handle_client, bind, try_finally,
        AsyncServer.clients_add, AsyncServer.cleanup, modify.
      rewrite async_serve_cons by (by apply frame_not_nil). by rewrite Hproc.
    + intros. cbn [SelectorServer._recv_loop]. unfold bind, SelectorServer.on_stream,
        SelectorServer.stream_recv, modify. cbn [fold_left SelectorServer.stream].
      unfold ByteStream._io_cb. cbn -[process ByteStream.recv].
      rewrite (decide_False (P:=fr ++ post = [])) by (by apply frame_not_nil).
      unfold ByteStream.recv. cbn -[process].
      rewrite (decide_False (P:=fr ++ post = [])) by (by apply frame_not_nil).
      cbn -[process]. by rewrite Hproc.
  - intros Hun.
    assert (Hproc : forall St (E : Endpoint St) post (s : St),
               process (fr ++ post) s = process post s).
    { intros. rewrite process_one by done.
      by rewrite (dispatch_unrecognized fr cmd idx). }
    repeat split.
    + intros St E pre post k s Hpre.
      rewrite (process_app pre (fr ++ post) k), (process_app pre post k) by done.
      destruct (process pre s) as [[[|]| |] s']; try reflexivity. apply Hproc.
    + intros. rewrite <- (app_nil_r fr).
      rewrite async_serve_cons by (by apply frame_not_nil). by rewrite Hproc.
    + intros post reads s Hpost.
      rewrite !async_serve_cons by (done || by apply frame_not_nil).
      by rewrite Hproc.
Qed.

Lemma C9_witness :
  AsyncServer.handle_client [frame 0x42 5 0 ++ frame 0x52 5 9; frame 0x52 5 9]
    AsyncServer.new =
  (Ok tt, AsyncServer.mkState (AsyncServer.var_table AsyncServer.new) [] [] false true).
Proof.
  apply (C9_confirm_closes_unknown_ignored (frame 0x42 5 0) 0x42 5);
    reflexivity.
Defined.

(** ** Reads, remainders and out-of-range requests *)

Lemma be_int_single (b : byte) : struct.be_int [b] = Z_of_byte b.
Proof. reflexivity. Qed.

Lemma be_int_byte_range (w : bytes) : 0 <= struct.be_int (take 1 w) < 256.
Proof.
  destruct w as [|b w]; [by compute|].
  cbn [take]. rewrite take_0, be_int_single. apply Z_of_byte_range.
Qed.

(** Command and index come from one byte each. *)
Lemma unpack_from_BB_range (data : bytes) (offset : nat) (cmd idx : Z) :
  struct.unpack_from_BB data offset = Ok (cmd, idx) ->
  0 <= cmd < 256 /\ 0 <= idx < 256.
Proof.
  unfold struct.unpack_from_BB. destruct (struct.window data offset 2); [|discriminate].
  intros [= <- <-]. split; apply be_int_byte_range.
Qed.

Lemma async_dispatch_read_req (fr : bytes) (idx : Z) (s : AsyncServer.state) :
  struct.unpack_from_BB fr 0 = Ok (0x40, idx) ->
  dispatch fr 0 s =
  match py_getitem (_vals (AsyncServer.var_table s)) idx with
  | Ok v =>
      match struct.pack_BBHI 0x41 idx 0 v with
      | Ok ack => (Ok Next,
                   AsyncServer.mkState (AsyncServer.var_table s) (AsyncServer.table_log s)
                     (AsyncServer.written s ++ ack) (AsyncServer.in_clients s)
                     (AsyncServer.writer_closed s))
      | Raise e => (Raise e, s)
      | Stuck => (Stuck, s)
      end
  | Raise e => (Raise e, s)
  | Stuck => (Stuck, s)
  end.
Proof.
  intros Hhd. server_unfold. rewrite Hhd. cbn beta iota.
  change (64 =? 64) with true. cbn beta iota.
  unfold VarTableM.get, VarTableM.load, bind, get_state, lift_result. cbn [fst snd].
  destruct s as [t tr w c k]. cbn [AsyncServer.var_table AsyncServer.table_log
    AsyncServer.written AsyncServer.in_clients AsyncServer.writer_closed].
  destruct (py_getitem (_vals t) idx) as [v| |]; reflexivity.
Qed.

(** A READ_REQ that is answered is answered with the value of the
    register it names, which is then one of the table's. *)
Lemma read_req_serves_own_register (fr : bytes) (idx : Z) (s s' : AsyncServer.state) :
  table_ok (AsyncServer.var_table s) ->
  struct.unpack_from_BB fr 0 = Ok (0x40, idx) ->
  dispatch fr 0 s = (Ok Next, s') ->
  exists v ack,
    0 <= idx < _size (AsyncServer.var_table s) /\
    _vals (AsyncServer.var_table s) !! Z.to_nat idx = Some v /\
    struct.pack_BBHI 0x41 idx 0 v = Ok ack /\
    AsyncServer.written s' = AsyncServer.written s ++ ack /\
    AsyncServer.var_table s' = AsyncServer.var_table s.
Proof.
  intros Hok Hhd. rewrite (async_dispatch_read_req fr idx) by done.
  pose proof (unpack_from_BB_range _ _ _ _ Hhd) as [_ Hidx].
  unfold py_getitem, py_index.
  destruct (decide (0 <= idx < Z.of_nat (length (_vals (AsyncServer.var_table s)))))
    as [Hr|Hr].
  - destruct (_vals (AsyncServer.var_table s) !! Z.to_nat idx) as [v|] eqn:Hv;
      [|discriminate].
    destruct (struct.pack_BBHI 65 idx 0 v) as [ack| |] eqn:Hp; try discriminate.
    intros [= <-]. exists v, ack. repeat split; try done; try lia.
    unfold table_ok in Hok. lia.
  - rewrite decide_False by lia. discriminate.
Qed.

(** C2.  A READ_REQ frame whose index byte is not below the table's
    size (the byte is unsigned, so this is [size <= idx <= 255]) gets no
    reply: [get] raises IndexError, the exception leaves the frame loop
    in the state it found, nothing later is processed, and
    [handle_client] ends with that exception after the [finally] block
    has removed and closed the writer.  No byte is written and the
    table is as before: no register value is served. *)
Theorem C2_read_out_of_range_no_reply (t : VarTable) (fr : bytes) (idx : Z) :
  table_ok t -> length fr = FRAME_SIZE ->
  struct.unpack_from_BB fr 0 = Ok (0x40, idx) ->
  ~ (0 <= idx < _size t) ->
  _size t <= idx < 256 /\
  (forall post s, AsyncServer.var_table s = t ->
     process (fr ++ post) s = (Raise IndexError, s)) /\
  (forall post reads,
     AsyncServer.handle_client ((fr ++ post) :: reads) (AsyncServer.with_table t) =
     (Raise IndexError, AsyncServer.mkState t [] [] false true)).
Proof.
  intros Hok Hlen Hhd Hout.
  pose proof (unpack_from_BB_range _ _ _ _ Hhd) as [_ Hidx].
  assert (Hget : py_getitem (_vals t) idx = Raise IndexError).
  { apply py_getitem_outside. rewrite Hok. lia. }
  assert (Hproc : forall post s, AsyncServer.var_table s = t ->
            process (fr ++ post) s = (Raise IndexError, s)).
  { intros post s Ht. rewrite process_one by done.
    rewrite (async_dispatch_read_req fr idx) by done. by rewrite Ht, Hget. }
  split; [lia|]. split; [done|].
  intros post reads. unfold AsyncServer.handle_client, bind, try_finally,
    AsyncServer.clients_add, AsyncServer.cleanup, modify.
  rewrite async_serve_cons by (by apply frame_not_nil).
  by rewrite Hproc.
Qed.

Lemma C2_witness :
  AsyncServer.handle_client [frame 0x40 150 0 ++ frame 0x40 11 0; frame 0x40 11 0]
    (AsyncServer.with_table (VarTableM.init 100)) =
  (Raise IndexError, AsyncServer.mkState (VarTableM.init 100) [] [] false true).
Proof.
  apply (C2_read_out_of_range_no_reply (VarTableM.init 100) (frame 0x40 150 0) 150).
  - apply table_ok_init.
  - reflexivity.
  - reflexivity.
  - simpl. lia.
Defined.

(** C2, the claim as written fails: READ_REQ for register 150 of a
    table of 100 is answered by no READ_ACK at all, with value 0 or
    otherwise; the handler leaves with IndexError. *)
Lemma C2_counterexample :
  let '(r, s) := AsyncServer.handle_client [frame 0x40 150 0] AsyncServer.new in
  r = Raise IndexError /\ AsyncServer.written s = [] /\
  AsyncServer.written s <> frame 0x41 150 0.
Proof. vm_compute. repeat split. discriminate. Qed.

(** C6.  Within one read, the loop handles every complete 8-byte frame
    of the buffer, left to right, stopping early only at READ_CONFIRM
    or at an exception, and it always ends.  Fewer than eight trailing
    bytes are no error; they are not kept either: the next read starts
    a new buffer, so the handler goes on as if they had never arrived,
    and [ByteStream.recv] hands out the accumulated bytes and leaves the
    stream's buffer empty. *)
Theorem C6_frames_in_order_remainder_dropped :
  (forall St (E : Endpoint St) (data : bytes) (s : St),
     process data s = dispatch_all (complete_frames data) s) /\
  (forall (data : bytes) (s : AsyncServer.state), (process data s).1 <> Stuck) /\
  (forall St (E : Endpoint St) (pre tail : bytes) (k : nat) (s : St),
     length pre = (FRAME_SIZE * k)%nat -> (length tail < FRAME_SIZE)%nat ->
     process (pre ++ tail) s = process pre s) /\
  (forall (tail : bytes) (reads : list bytes) (s : AsyncServer.state),
     tail <> [] -> (length tail < FRAME_SIZE)%nat ->
     AsyncServer.serve (tail :: reads) s = AsyncServer.serve reads s) /\
  (forall (pre tail : bytes) (k : nat) (reads : list bytes) (s : AsyncServer.state),
     pre <> [] -> length pre = (FRAME_SIZE * k)%nat -> (length tail < FRAME_SIZE)%nat ->
     AsyncServer.serve ((pre ++ tail) :: reads) s = AsyncServer.serve (pre :: reads) s) /\
  (forall st : ByteStream.t, ByteStream._rx_buf (ByteStream.recv st).2 = []).
Proof.
  assert (Htail : forall St (E : Endpoint St) (pre tail : bytes) (k : nat) (s : St),
     length pre = (FRAME_SIZE * k)%nat -> (length tail < FRAME_SIZE)%nat ->
     process (pre ++ tail) s = process pre s).
  { intros. rewrite !process_as_frames.
    by rewrite (complete_frames_trailing pre tail k). }
  split; [intros; apply process_as_frames|].
  split; [apply async_process_not_stuck|].
  split; [done|]. split; [|split].
  - intros tail reads s Hne Hlt. rewrite async_serve_cons by done.
    rewrite process_as_frames, complete_frames_short by done. reflexivity.
  - intros pre tail k reads s Hne Hpre Hlt.
    rewrite !async_serve_cons by (done || by destruct pre).
    by rewrite (Htail _ _ pre tail k).
  - intros st. unfold ByteStream.recv. by case_match.
Qed.

(** C6, the claim as written fails: a READ_REQ frame that arrives as 3
    bytes and then 5 bytes is never parsed; the same frame in one read
    is answered. *)
Lemma C6_counterexample :
  let fr := frame 0x40 11 0 in
  AsyncServer.handle_client [take 3 fr; drop 3 fr] AsyncServer.new =
  (Ok tt, AsyncServer.mkState (AsyncServer.var_table AsyncServer.new) [] [] false true) /\
  AsyncServer.written (AsyncServer.handle_client [fr] AsyncServer.new).2 = frame 0x41 11 0 /\
  ByteStream._tx_buf
    (SelectorServer.stream
       (SelectorServer._recv_loop [[take 3 fr]; [drop 3 fr]]
          (SelectorServer.with_table (VarTableM.init 100))).2) = [].
Proof. vm_compute. repeat split. Qed.

(** ** web/Communication.py over any network *)

Section WebFacts.
Context {W : Type} `{Net W}.
Variable RETRY_MAX : nat.
Hypothesis Hnet : net_returns W.

Lemma web_recv_exact_eq (fuel expect : nat) (buf : bytes) :
  Web.recv_exact fuel expect buf =
  if decide (length buf < expect)%nat then
    match fuel with
    | O => stuck
    | S fuel' =>
        let! chunk := recv (expect - length buf) in
        if decide (chunk = []) then raise ConnectionError
        else Web.recv_exact fuel' expect (buf ++ chunk)
    end
  else ret buf.
Proof. destruct fuel; reflexivity. Qed.

(** The receive loop ends within [expect - len(buf)] passes: each pass
    raises or adds at least one byte. *)
Lemma web_recv_exact_returns (fuel expect : nat) (buf : bytes) (w : W) :
  (expect - length buf <= fuel)%nat ->
  (Web.recv_exact fuel expect buf w).1 <> Stuck.
Proof.
  destruct Hnet as (_ & _ & Hrecv & _).
  revert buf w. induction fuel as [|fuel IH]; intros buf w Hfuel;
    rewrite web_recv_exact_eq.
  - rewrite decide_False by lia. discriminate.
  - destruct (decide (length buf < expect)%nat); [|discriminate].
    unfold bind. pose proof (Hrecv (expect - length buf)%nat w) as Hr.
    destruct (recv (expect - length buf) w) as [[chunk|e|] w1]; simpl in *;
      try congruence.
    destruct (decide (chunk = [])); [discriminate|].
    apply IH. rewrite length_app. destruct chunk; [done|]. simpl. lia.
Qed.

Lemma web_recv_exact_length (fuel expect : nat) (buf out : bytes) (w w' : W) :
  Web.recv_exact fuel expect buf w = (Ok out, w') -> (expect <= length out)%nat.
Proof.
  revert buf w. induction fuel as [|fuel IH]; intros buf w;
    rewrite web_recv_exact_eq.
  - destruct (decide (length buf < expect)%nat); [discriminate|].
    intros [= <- <-]. lia.
  - destruct (decide (length buf < expect)%nat); [|intros [= <- <-]; lia].
    unfold bind. destruct (recv (expect - length buf) w) as [[chunk|e|] w1];
      try discriminate.
    destruct (decide (chunk = [])); [discriminate|]. apply IH.
Qed.

Lemma web_attempt_returns (req : bytes) (expect : nat) (w : W) :
  (Web.attempt req expect w).1 <> Stuck.
Proof.
  destruct Hnet as (Hconn & Hsend & _ & Hclose).
  unfold Web.attempt, with_connection, bind, try_finally.
  pose proof (Hconn w) as Hc.
  destruct (create_connection w) as [[[]|e|] w1]; simpl in *; try congruence.
  pose proof (Hsend req w1) as Hs.
  destruct (sendall req w1) as [[[]|e|] w2]; simpl in *; try congruence.
  - pose proof (web_recv_exact_returns expect expect [] w2 ltac:(simpl; lia)) as Hr.
    destruct (Web.recv_exact expect expect [] w2) as [[out|e|] w3]; simpl in *;
      try congruence;
      pose proof (Hclose w3) as Hcl;
      destruct (close w3) as [[[]|e'|] w4]; simpl in *; congruence.
  - pose proof (Hclose w2) as Hcl.
    destruct (close w2) as [[[]|e'|] w4]; simpl in *; congruence.
Qed.

(** One pass of the loop of [_txn]: [Some buf] on success, [None] on any
    exception. *)
Lemma web_txn_pass (req : bytes) (expect : nat) (w : W) :
  exists r w',
    try_except (let! buf := Web.attempt req expect in ret (Some buf))
               (fun _ => ret None) w = (Ok r, w') /\
    match r with
    | Some buf => Web.attempt req expect w = (Ok buf, w')
    | None => exists e, Web.attempt req expect w = (Raise e, w')
    end.
Proof.
  unfold try_except, bind, ret.
  pose proof (web_attempt_returns req expect w) as Ha.
  destruct (Web.attempt req expect w) as [[buf|e|] w1]; simpl in *; try congruence.
  - by exists (Some buf), w1.
  - exists None, w1. eauto.
Qed.

(** [_txn] never raises: it returns the reply of an attempt that
    succeeded, or [b''] when every attempt raised. *)
Lemma web_txn_returns (req : bytes) (expect : nat) (w : W) :
  exists buf w', Web._txn RETRY_MAX req expect w = (Ok buf, w').
Proof.
  unfold Web._txn. generalize RETRY_MAX as n. intros n. revert w.
  induction n as [|n IH]; intros w; cbn [for_range].
  - unfold ret. eauto.
  - unfold bind at 1.
    destruct (web_txn_pass req expect w) as (r & w1 & -> & _).
    destruct r as [buf|]; [unfold ret; eauto|]. apply IH.
Qed.
End WebFacts.

Lemma pack_frame (cmd idx val : Z) :
  0 <= cmd < 256 -> 0 <= idx < 256 -> 0 <= val < 2 ^ 32 ->
  struct.pack_BBHI cmd idx 0 val = Ok (frame cmd idx val) /\
  length (frame cmd idx val) = 8%nat.
Proof.
  intros Hc Hi Hv. unfold frame.
  rewrite pack_BBHI_in_range by done. done.
Qed.

Lemma unpack_BB_take (rsp : bytes) :
  length rsp = 8%nat ->
  exists idx, struct.unpack_BB (take 2 rsp) = Ok (struct.be_int (take 1 rsp), idx).
Proof.
  intros Hlen. unfold struct.unpack_BB, struct.unpack_from_BB, struct.window.
  rewrite length_take, Hlen. cbn [Nat.min Nat.add]. rewrite !decide_True by done.
  rewrite drop_0, !take_take. cbn [Nat.min]. eauto.
Qed.

Section WebRounds.
Context {W : Type} `{Net W}.
Variable RETRY_MAX : nat.
Hypothesis Hnet : net_returns W.

Lemma web_reply_is (rsp : bytes) (cmd : Z) (w : W) :
  Web.reply_is rsp cmd w = (Ok (reply_ok rsp cmd), w).
Proof.
  unfold Web.reply_is, reply_ok.
  destruct (decide (length rsp = 8%nat)) as [Hlen|Hlen].
  - rewrite bool_decide_eq_true_2 by done.
    destruct (unpack_BB_take rsp Hlen) as (idx & Hu).
    unfold bind, lift_result, ret. rewrite Hu. reflexivity.
  - rewrite bool_decide_eq_false_2 by done. reflexivity.
Qed.

(** One pass of the loop of [write_var], for arguments that fit their
    fields: WRITE_REQ, and only after a WRITE_READY reply WRITE_DATA;
    the pass returns [True] exactly on a WRITE_DONE reply. *)
Lemma web_write_round_eq (idx val : Z) (w : W) :
  0 <= idx < 256 -> 0 <= val < 2 ^ 32 ->
  exists rsp w1,
    Web._txn RETRY_MAX (frame 0x50 idx 0) 8 w = (Ok rsp, w1) /\
    if reply_ok rsp 0x51 then
      exists wrsp w2,
        Web._txn RETRY_MAX (frame 0x52 idx val) 8 w1 = (Ok wrsp, w2) /\
        Web.write_round RETRY_MAX idx val w =
        (Ok (if reply_ok wrsp 0x53 then Some true else None), w2)
    else Web.write_round RETRY_MAX idx val w = (Ok None, w1).
Proof.
  intros Hi Hv.
  destruct (pack_frame 0x50 idx 0) as [Hreq _]; [lia..|].
  destruct (pack_frame 0x52 idx val) as [Hwreq _]; [lia..|].
  destruct (web_txn_returns RETRY_MAX Hnet (frame 0x50 idx 0) 8 w) as (rsp & w1 & Ht1).
  exists rsp, w1. split; [done|].
  unfold Web.write_round, bind, lift_result. rewrite Hreq, Ht1, web_reply_is.
  destruct (reply_ok rsp 0x51) eqn:Hready; cbn [negb]; [|reflexivity].
  destruct (web_txn_returns RETRY_MAX Hnet (frame 0x52 idx val) 8 w1) as (wrsp & w2 & Ht2).
  exists wrsp, w2. split; [done|].
  rewrite Hwreq, Ht2, web_reply_is. by destruct (reply_ok wrsp 0x53).
Qed.

Lemma web_write_round_cases (idx val : Z) (w : W) :
  0 <= idx < 256 -> 0 <= val < 2 ^ 32 ->
  exists w', Web.write_round RETRY_MAX idx val w = (Ok None, w') \/
             Web.write_round RETRY_MAX idx val w = (Ok (Some true), w').
Proof.
  intros Hi Hv.
  destruct (web_write_round_eq idx val w Hi Hv) as (rsp & w1 & _ & Hr).
  destruct (reply_ok rsp 0x51).
  - destruct Hr as (wrsp & w2 & _ & ->). exists w2.
    destruct (reply_ok wrsp 0x53); auto.
  - rewrite Hr. eauto.
Qed.

(** A pass returns [True] only after a WRITE_READY reply to WRITE_REQ
    and then a WRITE_DONE reply to WRITE_DATA. *)
Lemma web_write_round_true (idx val : Z) (w w' : W) :
  0 <= idx < 256 -> 0 <= val < 2 ^ 32 ->
  Web.write_round RETRY_MAX idx val w = (Ok (Some true), w') ->
  exists rsp w1 wrsp,
    Web._txn RETRY_MAX (frame 0x50 idx 0) 8 w = (Ok rsp, w1) /\
    reply_ok rsp 0x51 = true /\
    Web._txn RETRY_MAX (frame 0x52 idx val) 8 w1 = (Ok wrsp, w') /\
    reply_ok wrsp 0x53 = true.
Proof.
  intros Hi Hv Hrun.
  destruct (web_write_round_eq idx val w Hi Hv) as (rsp & w1 & Ht1 & Hr).
  destruct (reply_ok rsp 0x51) eqn:Hready.
  - destruct Hr as (wrsp & w2 & Ht2 & Hr). rewrite Hr in Hrun.
    destruct (reply_ok wrsp 0x53) eqn:Hdone; [|discriminate].
    injection Hrun as <-. by exists rsp, w1, wrsp.
  - rewrite Hr in Hrun. discriminate.
Qed.

Lemma web_write_loop (n : nat) (idx val : Z) (w : W) :
  0 <= idx < 256 -> 0 <= val < 2 ^ 32 ->
  exists b w',
    for_range n (Web.write_round RETRY_MAX idx val) (ret false) w = (Ok b, w') /\
    if b then
      exists k w1, (k < n)%nat /\ failed_rounds RETRY_MAX k idx val w w1 /\
                   Web.write_round RETRY_MAX idx val w1 = (Ok (Some true), w')
    else failed_rounds RETRY_MAX n idx val w w'.
Proof.
  intros Hi Hv. revert w. induction n as [|n IH]; intros w; cbn [for_range].
  - exists false, w. by split.
  - unfold bind at 1.
    destruct (web_write_round_cases idx val w Hi Hv) as (w1 & [Hr|Hr]); rewrite Hr.
    + destruct (IH w1) as (b & w' & -> & Hb). exists b, w'. split; [done|].
      destruct b.
      * destruct Hb as (k & w2 & Hk & Hf & Hs).
        exists (S k), w2. split; [lia|]. split; [|done]. cbn. eauto.
      * cbn. eauto.
    + exists true, w1. split; [done|]. exists 0%nat, w. repeat split; [lia|done].
Qed.
End WebRounds.

(** ** Tables behind a server *)

(** [set] appends its trace to the log it finds. *)
Lemma set_with_log (t : VarTable) (tr0 : list event) (idx val : Z) :
  VarTableM.set idx val (t, tr0) =
  let '(r, t', tr) := run (VarTableM.set idx val) t in (r, (t', tr0 ++ tr)).
Proof.
  table_unfold. unfold py_getitem, py_setitem.
  repeat (case_match; simplify_eq; cbn [fst snd] in *; try congruence);
    rewrite ?app_nil_r, <- ?app_assoc; reflexivity.
Qed.

(** What [set] leaves behind for a valid index. *)
Lemma set_post (t : VarTable) (idx val : Z) :
  table_ok t -> 0 <= idx < _size t ->
  exists t' tr,
    run (VarTableM.set idx val) t = (Ok tt, t', tr) /\
    table_ok t' /\ _size t' = _size t /\
    _vals t' !! Z.to_nat idx = Some val.
Proof.
  intros Hok Hr.
  destruct (set_cases t idx val Hok) as [[Hn _]|[(_ & Hv & ->)|(old & _ & Hv & Hne & ->)]].
  - done.
  - by exists t, [].
  - eexists _, _. split; [reflexivity|]. split; [by apply table_ok_with_vals|].
    split; [done|]. simpl. apply list_lookup_insert_eq.
    pose proof (table_ok_range t idx Hok Hr). lia.
Qed.

Lemma set_preserves_shape (t t' : VarTable) (tr0 tr' : list event) (idx val : Z)
    (r : result unit) :
  VarTableM.set idx val (t, tr0) = (r, (t', tr')) ->
  _size t' = _size t /\ length (_vals t') = length (_vals t).
Proof.
  table_unfold. unfold py_getitem, py_setitem.
  repeat (case_match; simplify_eq; cbn [fst snd] in *; try congruence);
    intros; simplify_eq; simpl; rewrite ?length_insert; done.
Qed.

Lemma get_preserves (t t' : VarTable) (tr0 tr' : list event) (idx : Z) (r : result Z) :
  VarTableM.get idx (t, tr0) = (r, (t', tr')) -> t' = t /\ tr' = tr0.
Proof.
  destruct (get_pure t tr0 idx) as [r0 ->]. by intros [= _ <- <-].
Qed.

(** The handler keeps the table well formed and of the same size,
    whatever the peer sends. *)
Lemma async_dispatch_keeps_shape (fr : bytes) (s s' : AsyncServer.state)
    (r : result signal) :
  dispatch fr 0 s = (r, s') ->
  _size (AsyncServer.var_table s') = _size (AsyncServer.var_table s) /\
  length (_vals (AsyncServer.var_table s')) = length (_vals (AsyncServer.var_table s)).
Proof.
  server_unfold.
  repeat (case_match; simplify_eq; cbn [fst snd] in *; try congruence);
    intros; simplify_eq; cbn; try done;
    match goal with
    | Hx : VarTableM.get _ _ = _ |- _ => by apply get_preserves in Hx as [-> _]
    | Hx : VarTableM.set _ _ _ = _ |- _ => by apply set_preserves_shape in Hx
    end.
Qed.

Lemma async_process_keeps_shape (data : bytes) (s s' : AsyncServer.state)
    (r : result signal) :
  process data s = (r, s') ->
  _size (AsyncServer.var_table s') = _size (AsyncServer.var_table s) /\
  length (_vals (AsyncServer.var_table s')) = length (_vals (AsyncServer.var_table s)).
Proof.
  rewrite process_as_frames. generalize (complete_frames data) as frames.
  intros frames. revert s. induction frames as [|fr frames IH]; intros s.
  - by intros [= _ <-].
  - cbn [dispatch_all]. unfold bind.
    destruct (dispatch fr 0 s) as [[[|]| |] s1] eqn:Hd;
      apply async_dispatch_keeps_shape in Hd as [Hs Hl].
    + intros Hrest. apply IH in Hrest as [Hs' Hl']. split; congruence.
    + by intros [= _ <-].
    + by intros [= _ <-].
    + by intros [= _ <-].
Qed.

(** ** Frames built by [pack], seen by the handler *)

Lemma unpack_from_BB_of_BBHI (fr : bytes) (a b h i : Z) :
  struct.unpack_from_BBHI fr 0 = Ok (a, b, h, i) ->
  struct.unpack_from_BB fr 0 = Ok (a, b).
Proof.
  unfold struct.unpack_from_BBHI, struct.unpack_from_BB, struct.window.
  destruct (decide (0 + 8 <= length fr)%nat) as [H8|]; [|discriminate].
  rewrite decide_True by lia. rewrite drop_0.
  intros [= <- <- _ _]. rewrite !take_take. cbn [Nat.min].
  change (drop 1 (take 2 fr)) with (drop 1 (take (1 + 1) fr)).
  change (drop 1 (take 8 fr)) with (drop 1 (take (1 + 7) fr)).
  rewrite <- !take_drop_commute, !take_take. reflexivity.
Qed.

Lemma frame_fields (cmd idx val : Z) :
  0 <= cmd < 256 -> 0 <= idx < 256 -> 0 <= val < 2 ^ 32 ->
  length (frame cmd idx val) = FRAME_SIZE /\
  struct.unpack_from_BB (frame cmd idx val) 0 = Ok (cmd, idx) /\
  struct.unpack_from_BBHI (frame cmd idx val) 0 = Ok (cmd, idx, 0, val) /\
  struct.unpack_BBHI (frame cmd idx val) = Ok (cmd, idx, 0, val) /\
  reply_ok (frame cmd idx val) cmd = true.
Proof.
  intros Hc Hi Hv. destruct (pack_frame cmd idx val Hc Hi Hv) as [Hp Hlen].
  pose proof (unpack_pack_BBHI cmd idx val _ Hc Hi Hv Hp) as Hu.
  assert (Hu' : struct.unpack_from_BBHI (frame cmd idx val) 0 = Ok (cmd, idx, 0, val)).
  { unfold struct.unpack_BBHI in Hu. by rewrite decide_True in Hu. }
  pose proof (unpack_from_BB_of_BBHI _ _ _ _ _ Hu') as Hbb.
  repeat split; try done.
  unfold reply_ok. rewrite bool_decide_eq_true_2 by done. cbn [andb].
  unfold struct.unpack_from_BB, struct.window in Hbb.
  rewrite decide_True in Hbb by (rewrite Hlen; lia).
  rewrite drop_0, !take_take in Hbb. cbn [Nat.min] in Hbb.
  injection Hbb as -> _. apply Z.eqb_refl.
Qed.

Lemma process_nil {St} `{Endpoint St} (s : St) : process [] s = (Ok Next, s).
Proof. reflexivity. Qed.

Lemma process_single {St} `{Endpoint St} (fr : bytes) (s : St) :
  length fr = FRAME_SIZE -> process fr s = dispatch fr 0 s.
Proof.
  intros Hlen. rewrite <- (app_nil_r fr) at 1. rewrite process_one by done.
  by destruct (dispatch fr 0 s) as [[[|]| |] s'].
Qed.

Lemma process_short {St} `{Endpoint St} (data : bytes) (s : St) :
  (length data < FRAME_SIZE)%nat -> process data s = (Ok Next, s).
Proof.
  intros Hlt. by rewrite process_as_frames, complete_frames_short.
Qed.

Lemma async_dispatch_write_req (fr : bytes) (idx : Z) (s : AsyncServer.state) :
  struct.unpack_from_BB fr 0 = Ok (0x50, idx) ->
  dispatch fr 0 s =
  (Ok Next, AsyncServer.mkState (AsyncServer.var_table s) (AsyncServer.table_log s)
              (AsyncServer.written s ++ frame 0x51 idx 0) (AsyncServer.in_clients s)
              (AsyncServer.writer_closed s)).
Proof.
  intros Hhd. pose proof (unpack_from_BB_range _ _ _ _ Hhd) as [_ Hidx].
  destruct (pack_frame 0x51 idx 0) as [Hp _]; [lia..|].
  server_unfold. rewrite Hhd. cbn beta iota.
  change (80 =? 64) with false. change (80 =? 66) with false.
  change (80 =? 80) with true. cbn beta iota. by rewrite Hp.
Qed.

Lemma async_dispatch_write_data (fr : bytes) (idx val h : Z) (s : AsyncServer.state) :
  struct.unpack_from_BB fr 0 = Ok (0x52, idx) ->
  struct.unpack_from_BBHI fr 0 = Ok (0x52, idx, h, val) ->
  dispatch fr 0 s =
  match run (VarTableM.set idx val) (AsyncServer.var_table s) with
  | (Ok _, t', tr) =>
      (Ok Next, AsyncServer.mkState t' (AsyncServer.table_log s ++ tr)
                  (AsyncServer.written s ++ frame 0x53 idx 0) (AsyncServer.in_clients s)
                  (AsyncServer.writer_closed s))
  | (Raise e, t', tr) =>
      (Raise e, AsyncServer.mkState t' (AsyncServer.table_log s ++ tr)
                  (AsyncServer.written s) (AsyncServer.in_clients s)
                  (AsyncServer.writer_closed s))
  | (Stuck, t', tr) =>
      (Stuck, AsyncServer.mkState t' (AsyncServer.table_log s ++ tr)
                (AsyncServer.written s) (AsyncServer.in_clients s)
                (AsyncServer.writer_closed s))
  end.
Proof.
  intros Hhd Hfr. pose proof (unpack_from_BB_range _ _ _ _ Hhd) as [_ Hidx].
  destruct (pack_frame 0x53 idx 0) as [Hp _]; [lia..|].
  server_unfold. rewrite Hhd. cbn beta iota.
  change (82 =? 64) with false. change (82 =? 66) with false.
  change (82 =? 80) with false. change (82 =? 82) with true. cbn beta iota.
  rewrite Hfr. cbn beta iota. rewrite set_with_log.
  destruct (run (VarTableM.set idx val) (AsyncServer.var_table s)) as [[[[]|e|] t'] tr];
    cbn; try reflexivity.
  by rewrite Hp.
Qed.

(** ** The client against the live server *)

Lemma scripted_net_returns : net_returns Scripted.world.
Proof.
  repeat split; intros; cbn; unfold Scripted.dial, Scripted.send, Scripted.receive,
    Scripted.hangup, modify; repeat case_match; cbn; congruence.
Qed.

Lemma live_net_returns : net_returns Live.world.
Proof.
  repeat split; intros; cbn; unfold Live.dial, Live.send, Live.receive,
    Live.hangup; repeat case_match; cbn; congruence.
Qed.

Lemma live_feed_short (s : AsyncServer.state) (piece : bytes) :
  (length piece < FRAME_SIZE)%nat -> Live.feed s piece = s.
Proof.
  intros Hlt. unfold Live.feed. destruct (AsyncServer.writer_closed s); [done|].
  by rewrite process_short.
Qed.

Lemma live_pieces_cut (cut : nat) (req : bytes) (s : AsyncServer.state) :
  length req = FRAME_SIZE -> (0 < cut < FRAME_SIZE)%nat ->
  fold_left Live.feed (Live.pieces cut req) s = s.
Proof.
  intros Hlen Hcut. unfold Live.pieces.
  rewrite decide_False by (by destruct req).
  rewrite decide_True by lia. cbn [fold_left].
  rewrite !live_feed_short; [done|..].
  - rewrite length_take. lia.
  - rewrite length_drop. lia.
Qed.

Lemma live_pieces_whole (cut : nat) (req : bytes) (s : AsyncServer.state) :
  length req = FRAME_SIZE -> ~ (0 < cut < FRAME_SIZE)%nat ->
  fold_left Live.feed (Live.pieces cut req) s = Live.feed s req.
Proof.
  intros Hlen Hcut. unfold Live.pieces.
  rewrite decide_False by (by destruct req).
  rewrite decide_False by lia. reflexivity.
Qed.

Lemma live_attempt_down (req : bytes) (expect : nat) (w : Live.world) :
  Live.links w = [] \/ (exists ls, Live.links w = Live.Down :: ls) ->
  Web.attempt req expect w =
  (Raise OSError, Live.mk (Live.srv w) (tail (Live.links w)) None 0 (S (Live.dialled w))).
Proof.
  intros Hl. unfold Web.attempt, with_connection, bind. cbn [create_connection Live.net].
  unfold Live.dial. destruct Hl as [->|[ls ->]]; reflexivity.
Qed.

Lemma live_attempt_open (req : bytes) (expect cut : nat) (ls : list Live.link)
    (w : Live.world) :
  Live.links w = Live.Up cut :: ls ->
  Web.attempt req expect w =
  try_finally (Web.recv_exact expect expect []) close
    (Live.mk (fold_left Live.feed (Live.pieces cut req) (fresh (Live.srv w)))
       ls (Some cut) 0 (S (Live.dialled w))).
Proof.
  intros Hl. unfold Web.attempt, with_connection, bind at 1.
  cbn [create_connection Live.net]. unfold Live.dial. rewrite Hl.
  unfold try_finally, bind. cbn [sendall Live.net]. unfold Live.send.
  cbn [Live.conn Live.srv Live.links Live.taken Live.dialled]. reflexivity.
Qed.

(** One attempt over a link that is up: the request reaches the handler
    in its pieces, the client takes the first eight bytes the handler
    wrote, the connection is closed on both sides. *)
Lemma live_attempt_up (req : bytes) (cut : nat) (ls : list Live.link) (w : Live.world) :
  Live.links w = Live.Up cut :: ls ->
  let s1 := fold_left Live.feed (Live.pieces cut req) (fresh (Live.srv w)) in
  let w' := Live.mk (Live.eof s1) ls None 0 (S (Live.dialled w)) in
  (AsyncServer.written s1 = [] ->
   Web.attempt req 8 w =
   (Raise (if AsyncServer.writer_closed s1 then ConnectionError else OSError), w')) /\
  (length (AsyncServer.written s1) = 8%nat ->
   Web.attempt req 8 w = (Ok (AsyncServer.written s1), w')).
Proof.
  intros Hl s1 w'. rewrite (live_attempt_open req 8 cut ls w Hl). fold s1.
  unfold try_finally. rewrite web_recv_exact_eq. cbn [length].
  rewrite decide_True by lia.
  unfold bind. cbn [recv Live.net]. unfold Live.receive.
  cbn [Live.conn Live.srv Live.links Live.taken Live.dialled]. rewrite drop_0.
  split.
  - intros Hw. rewrite Hw. rewrite decide_True by done.
    destruct (AsyncServer.writer_closed s1) eqn:Hc.
    + rewrite decide_True by done. unfold raise. cbn [close Live.net].
      unfold Live.hangup. cbn [Live.conn Live.srv Live.links Live.taken Live.dialled].
      reflexivity.
    + cbn [close Live.net].
      unfold Live.hangup. cbn [Live.conn Live.srv Live.links Live.taken Live.dialled].
      reflexivity.
  - intros Hw. rewrite decide_False by (by destruct (AsyncServer.written s1)).
    rewrite take_ge by lia.
    rewrite decide_False by (by destruct (AsyncServer.written s1)).
    rewrite app_nil_l, web_recv_exact_eq. rewrite decide_False by lia.
    unfold ret. cbn [close Live.net].
    unfold Live.hangup. cbn [Live.conn Live.srv Live.links Live.taken Live.dialled].
    reflexivity.
Qed.

(** ** Properties kept along a run *)

Section Preserves.
Context {St : Type} (P : St -> Prop).

Lemma preserves_ret {A} (a : A) : preserves P (ret a).
Proof. by intros s r s' HP [= _ <-]. Qed.

Lemma preserves_raise {A} (e : exn) : preserves P (raise (A:=A) e).
Proof. by intros s r s' HP [= _ <-]. Qed.

Lemma preserves_lift_result {A} (x : result A) : preserves P (lift_result x).
Proof. by intros s r s' HP [= _ <-]. Qed.

Lemma preserves_bind {A B} (m : M (S:=St) A) (k : A -> M (S:=St) B) :
  preserves P m -> (forall a, preserves P (k a)) -> preserves P (bind m k).
Proof.
  intros Hm Hk s r s' HP. unfold bind.
  destruct (m s) as [[a|e|] s1] eqn:Em; specialize (Hm _ _ _ HP Em).
  - by apply Hk.
  - by intros [= _ <-].
  - by intros [= _ <-].
Qed.

Lemma preserves_try_finally {A} (body : M (S:=St) A) (cleanup : M (S:=St) unit) :
  preserves P body -> preserves P cleanup -> preserves P (try_finally body cleanup).
Proof.
  intros Hb Hc s r s' HP. unfold try_finally.
  destruct (body s) as [[a|e|] s1] eqn:Eb; specialize (Hb _ _ _ HP Eb).
  - destruct (cleanup s1) as [[[]|e'|] s2] eqn:Ec; specialize (Hc _ _ _ Hb Ec);
      by intros [= _ <-].
  - destruct (cleanup s1) as [[[]|e'|] s2] eqn:Ec; specialize (Hc _ _ _ Hb Ec);
      by intros [= _ <-].
  - by intros [= _ <-].
Qed.

Lemma preserves_try_except {A} (body : M (S:=St) A) (handler : exn -> M (S:=St) A) :
  preserves P body -> (forall e, preserves P (handler e)) ->
  preserves P (try_except body handler).
Proof.
  intros Hb Hh s r s' HP. unfold try_except.
  destruct (body s) as [[a|e|] s1] eqn:Eb; specialize (Hb _ _ _ HP Eb).
  - by intros [= _ <-].
  - by apply Hh.
  - by intros [= _ <-].
Qed.

Lemma preserves_for_range {A} (n : nat) (body : M (S:=St) (option A))
    (orelse : M (S:=St) A) :
  preserves P body -> preserves P orelse -> preserves P (for_range n body orelse).
Proof.
  intros Hb Ho. induction n as [|n IH]; cbn [for_range]; [done|].
  apply preserves_bind; [done|]. intros [a|]; [apply preserves_ret|done].
Qed.
End Preserves.

Section WebPreserves.
Context {W : Type} `{Net W} (P : W -> Prop).
Hypothesis Hconn : preserves P create_connection.
Hypothesis Hsend : forall d, preserves P (sendall d).
Hypothesis Hrecv : forall n, preserves P (recv n).
Hypothesis Hclose : preserves P close.

Lemma web_recv_exact_preserves (fuel expect : nat) (buf : bytes) :
  preserves P (Web.recv_exact fuel expect buf).
Proof.
  revert buf. induction fuel as [|fuel IH]; intros buf; rewrite web_recv_exact_eq;
    destruct (decide (length buf < expect)%nat); try apply preserves_ret.
  - by intros s r s' HP [= _ <-].
  - apply preserves_bind; [done|]. intros chunk.
    destruct (decide (chunk = [])); [apply preserves_raise|apply IH].
Qed.

Lemma web_attempt_preserves (req : bytes) (expect : nat) :
  preserves P (Web.attempt req expect).
Proof.
  unfold Web.attempt, with_connection.
  apply preserves_bind; [done|]. intros _.
  apply preserves_try_finally; [|done].
  apply preserves_bind; [done|]. intros _. apply web_recv_exact_preserves.
Qed.

Lemma web_txn_preserves (n : nat) (req : bytes) (expect : nat) :
  preserves P (Web._txn n req expect).
Proof.
  unfold Web._txn. apply preserves_for_range; [|apply preserves_ret].
  apply preserves_try_except; [|intros; apply preserves_ret].
  apply preserves_bind; [apply web_attempt_preserves|]. intros; apply preserves_ret.
Qed.

Lemma web_write_round_preserves (n : nat) (idx val : Z) :
  preserves P (Web.write_round n idx val).
Proof.
  assert (Hreply : forall rsp cmd, preserves P (Web.reply_is rsp cmd)).
  { intros. unfold Web.reply_is. case_match; [|apply preserves_ret].
    apply preserves_bind; [apply preserves_lift_result|]. intros; apply preserves_ret. }
  unfold Web.write_round.
  apply preserves_bind; [apply preserves_lift_result|]. intros req.
  apply preserves_bind; [apply web_txn_preserves|]. intros rsp.
  apply preserves_bind; [done|]. intros ready.
  destruct (negb ready); [apply preserves_ret|].
  apply preserves_bind; [apply preserves_lift_result|]. intros wreq.
  apply preserves_bind; [apply web_txn_preserves|]. intros wrsp.
  apply preserves_bind; [done|]. intros done'.
  destruct done'; apply preserves_ret.
Qed.

Lemma failed_rounds_preserve (n k : nat) (idx val : Z) (w w' : W) :
  P w -> failed_rounds n k idx val w w' -> P w'.
Proof.
  revert w. induction k as [|k IH]; intros w HP; cbn [failed_rounds].
  - by intros <-.
  - intros (w1 & Hr & Hrest). apply (IH w1); [|done].
    exact (web_write_round_preserves n idx val w _ w1 HP Hr).
Qed.
End WebPreserves.

(** ** The server's table along the client's run *)

Lemma live_feed_keeps_shape (s : AsyncServer.state) (piece : bytes) :
  _size (AsyncServer.var_table (Live.feed s piece)) = _size (AsyncServer.var_table s) /\
  length (_vals (AsyncServer.var_table (Live.feed s piece))) =
  length (_vals (AsyncServer.var_table s)).
Proof.
  unfold Live.feed. destruct (AsyncServer.writer_closed s); [done|].
  destruct (process piece s) as [r s'] eqn:Hp.
  apply async_process_keeps_shape in Hp. by destruct r as [[|]| |].
Qed.

Lemma live_feeds_keep_shape (ps : list bytes) (s : AsyncServer.state) :
  _size (AsyncServer.var_table (fold_left Live.feed ps s)) = _size (AsyncServer.var_table s) /\
  length (_vals (AsyncServer.var_table (fold_left Live.feed ps s))) =
  length (_vals (AsyncServer.var_table s)).
Proof.
  revert s. induction ps as [|p ps IH]; intros s; [done|]. cbn [fold_left].
  destruct (IH (Live.feed s p)) as [-> ->]. apply live_feed_keeps_shape.
Qed.

Lemma live_eof_table (s : AsyncServer.state) :
  AsyncServer.var_table (Live.eof s) = AsyncServer.var_table s.
Proof. unfold Live.eof. by destruct (AsyncServer.writer_closed s). Qed.

Section LiveShape.
Variables (sz : Z) (len : nat).

Lemma live_dial_shape : preserves (shape sz len) create_connection.
Proof.
  intros w r w' HP. cbn. unfold Live.dial.
  destruct (Live.links w) as [|[|cut] ls]; by intros [= _ <-].
Qed.

Lemma live_send_shape (d : bytes) : preserves (shape sz len) (sendall d).
Proof.
  intros w r w' [Hs Hl]. cbn. unfold Live.send.
  destruct (Live.conn w) as [cut|]; intros [= _ <-]; [|done].
  unfold shape, Live.table. cbn.
  destruct (live_feeds_keep_shape (Live.pieces cut d) (Live.srv w)) as [-> ->]. done.
Qed.

Lemma live_recv_shape (n : nat) : preserves (shape sz len) (recv n).
Proof.
  intros w r w' HP. cbn. unfold Live.receive.
  repeat case_match; by intros [= _ <-].
Qed.

Lemma live_close_shape : preserves (shape sz len) close.
Proof.
  intros w r w' HP. cbn. unfold Live.hangup.
  destruct (Live.conn w); intros [= _ <-]; [|done].
  unfold shape, Live.table. cbn. by rewrite live_eof_table.
Qed.
End LiveShape.

Lemma shape_table_ok (w : Live.world) :
  table_ok (Live.table w) <->
  shape (_size (Live.table w)) (Z.to_nat (_size (Live.table w))) w.
Proof. unfold shape, table_ok. tauto. Qed.

(** A WRITE_DATA attempt that brings back a reply has stored the
    value. *)
Lemma live_attempt_write_data (idx val : Z) (out : bytes) (w w' : Live.world) :
  table_ok (Live.table w) -> 0 <= idx < _size (Live.table w) ->
  0 <= idx < 256 -> 0 <= val < 2 ^ 32 ->
  Web.attempt (frame 0x52 idx val) 8 w = (Ok out, w') ->
  _vals (Live.table w') !! Z.to_nat idx = Some val /\ out = frame 0x53 idx 0.
Proof.
  intros Hok Hr Hi Hv.
  destruct (frame_fields 0x52 idx val) as (Hlen & Hbb & Hbbhi & _); [lia..|].
  destruct (frame_fields 0x53 idx 0) as (Hlen3 & _); [lia..|].
  destruct (Live.links w) as [|[|cut] ls] eqn:Hl.
  - rewrite live_attempt_down by auto. discriminate.
  - rewrite live_attempt_down by eauto. discriminate.
  - destruct (live_attempt_up (frame 0x52 idx val) cut ls w Hl) as [Hnone Hsome].
    destruct (decide (0 < cut < FRAME_SIZE)%nat) as [Hcut|Hcut].
    + rewrite live_pieces_cut in Hnone by done. rewrite Hnone by done. discriminate.
    + rewrite live_pieces_whole in Hsome by done.
      unfold Live.feed in Hsome. cbn [fresh AsyncServer.writer_closed] in Hsome.
      rewrite process_single in Hsome by done.
      rewrite (async_dispatch_write_data _ idx val 0) in Hsome by done.
      cbn [fresh AsyncServer.var_table] in Hsome.
      destruct (set_post (AsyncServer.var_table (Live.srv w)) idx val Hok Hr)
        as (t' & tr & Hrun & Hok' & Hsz & Hval).
      rewrite Hrun in Hsome. cbn in Hsome.
      rewrite Hsome by done. intros [= <- <-]. done.
Qed.

(** [_txn] with WRITE_DATA: a non-empty reply means the value is in the
    table when [_txn] returns. *)
Lemma live_txn_write_data (n : nat) (idx val : Z) (wrsp : bytes) (w w' : Live.world) :
  table_ok (Live.table w) -> 0 <= idx < _size (Live.table w) ->
  0 <= idx < 256 -> 0 <= val < 2 ^ 32 ->
  Web._txn n (frame 0x52 idx val) 8 w = (Ok wrsp, w') ->
  wrsp <> [] ->
  _vals (Live.table w') !! Z.to_nat idx = Some val.
Proof.
  intros Hok Hr Hi Hv. unfold Web._txn. revert w Hok Hr.
  induction n as [|n IH]; intros w Hok Hr; cbn [for_range].
  - by intros [= <- _].
  - unfold bind at 1, try_except, bind, ret.
    destruct (Web.attempt (frame 0x52 idx val) 8 w) as [[out|e|] w1] eqn:Ha.
    + intros [= <- <-] _. by apply (live_attempt_write_data idx val out w w1).
    + assert (Hsh : shape (_size (Live.table w)) (Z.to_nat (_size (Live.table w))) w1).
      { eapply (web_attempt_preserves _ (live_dial_shape _ _) (live_send_shape _ _)
                  (live_recv_shape _ _) (live_close_shape _ _));
          [by apply shape_table_ok|exact Ha]. }
      destruct Hsh as [Hsz Hlen].
      apply IH; [unfold table_ok; congruence|congruence].
    + discriminate.
Qed.

Ltac live_ops :=
  cbn [create_connection sendall recv close Live.net];
  unfold Live.dial, Live.send, Live.receive, Live.hangup;
  cbn [Live.conn Live.srv Live.links Live.taken Live.dialled].

(** [read_var] over a link that is up and delivers the request whole:
    the value of the register comes back. *)
Lemma live_read_var_whole (idx v : Z) (cut : nat) (ls : list Live.link) (w : Live.world) :
  Live.links w = Live.Up cut :: ls -> ~ (0 < cut < FRAME_SIZE)%nat ->
  0 <= idx < 256 -> 0 <= v < 2 ^ 32 ->
  _vals (Live.table w) !! Z.to_nat idx = Some v ->
  exists w', Web.read_var idx w = (Ok v, w') /\ Live.table w' = Live.table w /\
             Live.dialled w' = S (Live.dialled w).
Proof.
  intros Hl Hcut Hi Hv Hval.
  destruct (pack_frame 0x40 idx 0) as [Hp40 _]; [lia..|].
  destruct (pack_frame 0x41 idx v) as [Hp41 Hlen41]; [lia..|].
  destruct (pack_frame 0x42 idx 0) as [Hp42 _]; [lia..|].
  destruct (frame_fields 0x40 idx 0) as (Hl40 & Hbb40 & _); [lia..|].
  destruct (frame_fields 0x41 idx v) as (_ & _ & _ & Hu41 & _); [lia..|].
  destruct (frame_fields 0x42 idx 0) as (Hl42 & Hbb42 & _); [lia..|].
  assert (Hget : py_getitem (_vals (AsyncServer.var_table (Live.srv w))) idx = Ok v).
  { unfold py_getitem. rewrite py_index_in_range.
    - unfold Live.table in Hval. by rewrite Hval.
    - apply lookup_lt_Some in Hval. unfold Live.table in Hval. lia. }
  assert (Hne : frame 0x41 idx v <> []) by (by destruct (frame 0x41 idx v)).
  unfold Web.read_var, try_except, with_connection, try_finally, bind, lift_result, ret.
  live_ops. rewrite Hl. rewrite Hp40. live_ops.
  rewrite live_pieces_whole by done.
  unfold Live.feed at 1. cbn [fresh AsyncServer.writer_closed].
  rewrite process_single by done.
  rewrite (async_dispatch_read_req _ idx) by done.
  cbn [AsyncServer.var_table AsyncServer.table_log AsyncServer.written
       AsyncServer.in_clients AsyncServer.writer_closed].
  rewrite Hget, Hp41. rewrite app_nil_l.
  rewrite web_recv_exact_eq. cbn [length]. rewrite decide_True by lia.
  unfold bind. live_ops. cbn [AsyncServer.written]. rewrite drop_0.
  rewrite (decide_False (P:=frame 0x41 idx v = [])) by done.
  rewrite take_ge by lia.
  rewrite (decide_False (P:=frame 0x41 idx v = [])) by done.
  rewrite app_nil_l, web_recv_exact_eq. rewrite decide_False by lia.
  unfold ret. rewrite Hu41. cbn beta iota. change (65 =? 65) with true. cbn [negb].
  rewrite Hp42. live_ops.
  rewrite live_pieces_whole by done.
  unfold Live.feed at 1. cbn [AsyncServer.writer_closed].
  rewrite process_single by done.
  rewrite (dispatch_confirm _ idx) by done.
  cbn [AsyncServer.cleanup modify snd]. unfold Live.eof.
  cbn [AsyncServer.var_table AsyncServer.table_log AsyncServer.written
       AsyncServer.in_clients AsyncServer.writer_closed].
  eexists. split; [reflexivity|]. split; reflexivity.
Qed.

(** ** Runs that come back, and what they bring *)

Section Returns.
Context {St : Type}.

Lemma returns_ret {A} (a : A) : returns (St:=St) (ret a).
Proof. by intros s. Qed.

Lemma returns_raise {A} (e : exn) : returns (St:=St) (raise (A:=A) e).
Proof. by intros s. Qed.

Lemma returns_lift_result {A} (x : result A) :
  x <> Stuck -> returns (St:=St) (lift_result x).
Proof. by intros Hx s. Qed.

Lemma returns_bind {A B} (m : M (S:=St) A) (k : A -> M (S:=St) B) :
  returns m -> (forall a, returns (k a)) -> returns (bind m k).
Proof.
  intros Hm Hk s. unfold bind. specialize (Hm s).
  destruct (m s) as [[a|e|] s1]; simpl in *; [apply Hk|congruence..].
Qed.

Lemma returns_try_finally {A} (body : M (S:=St) A) (cleanup : M (S:=St) unit) :
  returns body -> returns cleanup -> returns (try_finally body cleanup).
Proof.
  intros Hb Hc s. unfold try_finally. specialize (Hb s).
  destruct (body s) as [[a|e|] s1]; simpl in *; [| |congruence];
    specialize (Hc s1); destruct (cleanup s1) as [[[]|e'|] s2]; simpl in *; congruence.
Qed.

Lemma returns_try_except {A} (body : M (S:=St) A) (handler : exn -> M (S:=St) A) :
  returns body -> (forall e, returns (handler e)) -> returns (try_except body handler).
Proof.
  intros Hb Hh s. unfold try_except. specialize (Hb s).
  destruct (body s) as [[a|e|] s1]; simpl in *; [congruence|apply Hh|congruence].
Qed.

Lemma ensures_ret {A} (Q : A -> Prop) (a : A) : Q a -> ensures (St:=St) Q (ret a).
Proof. by intros Ha s a' s' [= <- _]. Qed.

Lemma ensures_raise {A} (Q : A -> Prop) (e : exn) : ensures (St:=St) Q (raise e).
Proof. by intros s a' s'. Qed.

Lemma ensures_bind {A B} (Q : B -> Prop) (m : M (S:=St) A) (k : A -> M (S:=St) B) :
  (forall a, ensures Q (k a)) -> ensures Q (bind m k).
Proof.
  intros Hk s b s'. unfold bind.
  destruct (m s) as [[a|e|] s1]; try discriminate. apply Hk.
Qed.

Lemma ensures_try_finally {A} (Q : A -> Prop) (body : M (S:=St) A)
    (cleanup : M (S:=St) unit) :
  ensures Q body -> ensures Q (try_finally body cleanup).
Proof.
  intros Hb s a s'. unfold try_finally.
  destruct (body s) as [[a0|e|] s1] eqn:Eb; try discriminate.
  - destruct (cleanup s1) as [[[]|e'|] s2]; try discriminate.
    intros [= <- _]. by apply (Hb s a0 s1).
  - by destruct (cleanup s1) as [[[]|e'|] s2].
Qed.

Lemma ensures_try_except {A} (Q : A -> Prop) (body : M (S:=St) A)
    (handler : exn -> M (S:=St) A) :
  ensures Q body -> (forall e, ensures Q (handler e)) ->
  ensures Q (try_except body handler).
Proof.
  intros Hb Hh s a s'. unfold try_except.
  destruct (body s) as [[a0|e|] s1] eqn:Eb; try discriminate.
  - intros [= <- _]. by apply (Hb s a0 s1).
  - apply Hh.
Qed.
End Returns.

Section WebRead.
Context {W : Type} `{Net W}.
Hypothesis Hnet : net_returns W.

Lemma web_read_var_returns (idx : Z) (w : W) :
  exists v w', Web.read_var idx w = (Ok v, w') /\ read_result v.
Proof.
  destruct Hnet as (Hconn & Hsend & Hrecv & Hclose).
  assert (Hret : returns (Web.read_var (W:=W) idx)).
  { unfold Web.read_var, with_connection.
    apply returns_try_except; [|intros; apply returns_ret].
    apply returns_bind; [done|]. intros _.
    apply returns_try_finally; [|done].
    apply returns_bind; [apply returns_lift_result, pack_not_stuck|]. intros req.
    apply returns_bind; [intros s; apply Hsend|]. intros _.
    apply returns_bind.
    { intros s. apply (web_recv_exact_returns Hnet). simpl. lia. }
    intros buf. apply returns_bind.
    { apply returns_lift_result. unfold struct.unpack_BBHI.
      case_match; [apply unpack_from_BBHI_not_stuck|done]. }
    intros [[[cmd i] r] v]. destruct (negb (cmd =? 65)); [apply returns_raise|].
    apply returns_bind; [apply returns_lift_result, pack_not_stuck|]. intros ack.
    apply returns_bind; [intros s; apply Hsend|]. intros _. apply returns_ret. }
  assert (Hens : ensures read_result (Web.read_var (W:=W) idx)).
  { unfold Web.read_var, with_connection.
    apply ensures_try_except; [|intros; apply ensures_ret; by left].
    apply ensures_bind. intros _. apply ensures_try_finally.
    apply ensures_bind. intros req. apply ensures_bind. intros _.
    apply ensures_bind. intros buf.
    intros s v s'. unfold bind, lift_result.
    destruct (struct.unpack_BBHI buf) as [[[[cmd i] r] v0]| |] eqn:Hu; try discriminate.
    destruct (cmd =? 65) eqn:Hcmd; cbn [negb]; [|discriminate].
    apply Z.eqb_eq in Hcmd. subst cmd.
    destruct (struct.pack_BBHI 66 idx 0 0); try discriminate.
    destruct (sendall a s) as [[[]|e|] s1]; try discriminate.
    intros [= <- _]. right. eauto. }
  specialize (Hret w).
  destruct (Web.read_var idx w) as [[v|e|] w'] eqn:Hrun; simpl in Hret; try congruence.
  - exists v, w'. split; [done|]. by apply (Hens w v w').
  - exfalso. revert Hrun. unfold Web.read_var, try_except.
    destruct (with_connection _ w) as [[v|e'|] w1]; discriminate.
Qed.
End WebRead.

(** ** The clients on a scripted network *)

Section ScriptedDials.
Variable k : nat.
Abbreviation at_k := (fun w : Scripted.world => Scripted.dialled w = k).



End ScriptedDials.




Lemma scripted_txn_unreachable (n : nat) (req : bytes) (d : nat) (out : list bytes) :
  Web._txn n req 8 (Scripted.mk [] None d out) = (Ok [], Scripted.mk [] None (n + d) out).
Proof.
  unfold Web._txn. revert d. induction n as [|n IH]; intros d; [reflexivity|].
  cbn [for_range]. unfold bind at 1, try_except, bind at 1.
  unfold Web.attempt, with_connection, bind at 1.
  cbn [create_connection Scripted.net]. unfold Scripted.dial.
  cbn [Scripted.pending Scripted.dialled Scripted.outbox]. unfold ret at 1.
  rewrite IH. do 2 f_equal. lia.
Qed.

Lemma scripted_write_round_unreachable (n : nat) (idx val : Z) (d : nat) (out : list bytes) :
  0 <= idx < 256 ->
  Web.write_round n idx val (Scripted.mk [] None d out) =
  (Ok None, Scripted.mk [] None (n + d) out).
Proof.
  intros Hi. destruct (pack_frame 0x50 idx 0) as [Hp _]; [lia..|].
  unfold Web.write_round, bind, lift_result. rewrite Hp.
  rewrite scripted_txn_unreachable. rewrite (web_reply_is [] 81). reflexivity.
Qed.

(** With the server unreachable [write_var] gives up after RETRY_MAX
    passes of RETRY_MAX dials each. *)
Lemma scripted_write_var_unreachable (n : nat) (idx val : Z) :
  0 <= idx < 256 ->
  Web.write_var n idx val (Scripted.start []) = (Ok false, Scripted.mk [] None (n * n) []).
Proof.
  intros Hi. unfold Web.write_var, Scripted.start.
  assert (Hloop : forall k d,
    for_range k (Web.write_round n idx val) (ret false) (Scripted.mk [] None d []) =
    (Ok false, Scripted.mk [] None (k * n + d) [])).
  { induction k as [|k IH]; intros d; [reflexivity|].
    cbn [for_range]. unfold bind at 1.
    rewrite scripted_write_round_unreachable by done. rewrite IH.
    do 2 f_equal. lia. }
  rewrite Hloop. do 2 f_equal. lia.
Qed.

(** C5.  For an index in [0, 255] and a value in [0, 2^32 - 1],
    [write_var] of web/Communication.py returns a boolean on every
    network and never raises.  It returns [True] only when, in one pass,
    [_txn] brought back an eight-byte WRITE_READY (0x51) reply to
    WRITE_REQ and then an eight-byte WRITE_DONE (0x53) reply to
    WRITE_DATA; every earlier pass fell through.  It returns [False]
    only when RETRY_MAX passes fell through; with the server unreachable
    that is after RETRY_MAX * RETRY_MAX dials. *)
Theorem C5_write_var_bool (RETRY_MAX : nat) (idx val : Z) :
  0 <= idx < 256 -> 0 <= val < 2 ^ 32 ->
  (forall (W : Type) (N : Net W), net_returns W -> forall w : W,
     exists b w',
       Web.write_var RETRY_MAX idx val w = (Ok b, w') /\
       if b then
         exists k w1 w2 rsp wrsp,
           (k < RETRY_MAX)%nat /\
           failed_rounds RETRY_MAX k idx val w w1 /\
           Web._txn RETRY_MAX (frame 0x50 idx 0) 8 w1 = (Ok rsp, w2) /\
           reply_ok rsp 0x51 = true /\
           Web._txn RETRY_MAX (frame 0x52 idx val) 8 w2 = (Ok wrsp, w') /\
           reply_ok wrsp 0x53 = true
       else failed_rounds RETRY_MAX RETRY_MAX idx val w w') /\
  Web.write_var RETRY_MAX idx val (Scripted.start []) =
  (Ok false, Scripted.mk [] None (RETRY_MAX * RETRY_MAX) []).
Proof.
  intros Hi Hv. split; [|by apply scripted_write_var_unreachable].
  intros W N Hnet w.
  destruct (web_write_loop RETRY_MAX Hnet RETRY_MAX idx val w Hi Hv) as (b & w' & Hrun & Hb).
  exists b, w'. split; [done|]. destruct b; [|done].
  destruct Hb as (k & w1 & Hk & Hf & Hs).
  destruct (web_write_round_true RETRY_MAX Hnet idx val w1 w' Hi Hv Hs)
    as (rsp & w2 & wrsp & Ht1 & Hr1 & Ht2 & Hr2).
  by exists k, w1, w2, rsp, wrsp.
Qed.

Lemma C5_witness :
  Web.write_var 5 11 7500 (Scripted.start []) = (Ok false, Scripted.mk [] None 25 []).
Proof.
  apply (C5_write_var_bool 5 11 7500); lia.
Defined.

(** C5, the claim as written fails: an index of 256 does not fit its
    byte, [struct.pack] raises inside [write_var] and the exception
    reaches the caller before any connection is made. *)
Lemma C5_counterexample :
  Web.write_var 5 256 0 (Scripted.start [Scripted.Accept 1 [frame 0x51 0 0] Scripted.Eof]) =
  (Raise StructError, Scripted.start [Scripted.Accept 1 [frame 0x51 0 0] Scripted.Eof]).
Proof. vm_compute. reflexivity. Qed.

(** ** Write, then read, against the live server *)

Lemma live_read_var_down (idx : Z) (w : Live.world) :
  Live.links w = [] \/ (exists ls, Live.links w = Live.Down :: ls) ->
  (Web.read_var idx w).1 = Ok (-1).
Proof.
  intros Hl. unfold Web.read_var, try_except, with_connection, bind.
  live_ops. by destruct Hl as [->|[ls ->]].
Qed.

Lemma live_read_var_cut (idx : Z) (cut : nat) (ls : list Live.link) (w : Live.world) :
  Live.links w = Live.Up cut :: ls -> (0 < cut < FRAME_SIZE)%nat ->
  (Web.read_var idx w).1 = Ok (-1).
Proof.
  intros Hl Hcut.
  unfold Web.read_var, try_except, with_connection, try_finally, bind, lift_result, ret.
  live_ops. rewrite Hl.
  destruct (struct.pack_BBHI 64 idx 0 0) as [req| |] eqn:Hp.
  - assert (Hlen : length req = FRAME_SIZE).
    { destruct (decide (0 <= idx < 256)) as [Hi|Hi].
      - destruct (pack_frame 0x40 idx 0) as [Hq Hl8]; [lia..|].
        rewrite Hq in Hp. by injection Hp as <-.
      - rewrite pack_BBHI_out_of_range in Hp by lia. discriminate. }
    live_ops. rewrite live_pieces_cut by done.
    rewrite web_recv_exact_eq. cbn [length]. rewrite decide_True by lia.
    unfold bind. live_ops. cbn [fresh AsyncServer.written AsyncServer.writer_closed].
    rewrite drop_0. rewrite decide_True by done. live_ops. reflexivity.
  - live_ops. reflexivity.
  - by apply pack_not_stuck in Hp.
Qed.

Lemma web_write_var_bad_index (n : nat) (idx val : Z) {W} `{Net W} (w w' : W) :
  ~ (0 <= idx < 256) -> Web.write_var n idx val w <> (Ok true, w').
Proof.
  intros Hi. unfold Web.write_var. destruct n as [|n]; cbn [for_range]; [discriminate|].
  unfold bind at 1, Web.write_round, bind at 1, lift_result.
  rewrite pack_BBHI_out_of_range by lia. discriminate.
Qed.

Lemma web_write_var_bad_value (n k : nat) (idx val : Z) {W} `{Net W} (w w' : W) :
  net_returns W -> ~ (0 <= val < 2 ^ 32) ->
  for_range k (Web.write_round n idx val) (ret false) w <> (Ok true, w').
Proof.
  intros Hnet Hv. revert w. induction k as [|k IH]; intros w; cbn [for_range];
    [discriminate|].
  remember (for_range k (Web.write_round n idx val) (ret false)) as rest eqn:Erest.
  unfold bind at 1, Web.write_round, bind at 1, lift_result.
  destruct (struct.pack_BBHI 80 idx 0 0) as [req| |]; try discriminate.
  unfold bind at 1.
  destruct (web_txn_returns n Hnet req 8 w) as (rsp & w1 & ->).
  unfold bind at 1. rewrite web_reply_is.
  destruct (reply_ok rsp 81); cbn [negb].
  - unfold bind at 1. rewrite pack_BBHI_out_of_range by tauto. discriminate.
  - unfold ret at 1. subst rest. apply IH.
Qed.

(** C1.  Against the server of server/main.py, whatever the links do:
    when [write_var(idx, val)] returns [True] for a valid index, the
    register holds [val]; a following [read_var(idx)] over a link that
    delivers the request returns [val], and over any link it returns
    [val] or the failure value -1, never another register's or an older
    value.  On the table itself, [set(idx, val)] followed by [get(idx)]
    returns [val]. *)
Theorem C1_write_then_read (RETRY_MAX : nat) (idx val : Z) (w w' : Live.world) :
  table_ok (Live.table w) -> 0 <= idx < _size (Live.table w) ->
  Web.write_var RETRY_MAX idx val w = (Ok true, w') ->
  0 <= val < 2 ^ 32 /\
  _vals (Live.table w') !! Z.to_nat idx = Some val /\
  (forall cut ls, Live.links w' = Live.Up cut :: ls -> ~ (0 < cut < FRAME_SIZE)%nat ->
     exists w'', Web.read_var idx w' = (Ok val, w'')) /\
  (forall v w'', Web.read_var idx w' = (Ok v, w'') -> v = val \/ v = -1) /\
  (exists t' tr,
     run (let! _ := VarTableM.set idx val in VarTableM.get idx) (Live.table w) =
     (Ok val, t', tr)).
Proof.
  intros Hok Hr Hrun.
  assert (Hi : 0 <= idx < 256).
  { destruct (decide (0 <= idx < 256)); [done|].
    by destruct (web_write_var_bad_index RETRY_MAX idx val w w'). }
  assert (Hv : 0 <= val < 2 ^ 32).
  { destruct (decide (0 <= val < 2 ^ 32)); [done|].
    by destruct (web_write_var_bad_value RETRY_MAX RETRY_MAX idx val w w'
                   live_net_returns). }
  split; [done|].
  set (sz := _size (Live.table w)). set (len := Z.to_nat sz).
  assert (Hsh : shape sz len w) by (by apply shape_table_ok).
  destruct (web_write_loop RETRY_MAX live_net_returns RETRY_MAX idx val w Hi Hv)
    as (b & w0 & Hrun' & Hb).
  unfold Web.write_var in Hrun. rewrite Hrun in Hrun'. injection Hrun' as <- <-.
  destruct Hb as (k & w1 & Hk & Hf & Hs).
  pose proof (failed_rounds_preserve (shape sz len) (live_dial_shape _ _)
                (live_send_shape _ _) (live_recv_shape _ _) (live_close_shape _ _)
                RETRY_MAX k idx val w w1 Hsh Hf) as Hsh1.
  destruct (web_write_round_true RETRY_MAX live_net_returns idx val w1 w' Hi Hv Hs)
    as (rsp & w2 & wrsp & Ht1 & Hr1 & Ht2 & Hr2).
  pose proof (web_txn_preserves (shape sz len) (live_dial_shape _ _)
                (live_send_shape _ _) (live_recv_shape _ _) (live_close_shape _ _)
                RETRY_MAX _ 8 w1 _ w2 Hsh1 Ht1) as [Hsz2 Hlen2].
  assert (Hval : _vals (Live.table w') !! Z.to_nat idx = Some val).
  { apply (live_txn_write_data RETRY_MAX idx val wrsp w2 w'); try done.
    - unfold table_ok. rewrite Hsz2, Hlen2. done.
    - by rewrite Hsz2.
    - intros ->. discriminate. }
  split; [done|]. split; [|split].
  - intros cut ls Hl Hcut.
    destruct (live_read_var_whole idx val cut ls w' Hl Hcut Hi Hv Hval) as (w'' & Hrd & _).
    by exists w''.
  - intros v w'' Hrd.
    destruct (Live.links w') as [|[|cut] ls] eqn:Hl.
    + pose proof (live_read_var_down idx w' ltac:(auto)) as Hd.
      rewrite Hrd in Hd. injection Hd as ->. by right.
    + pose proof (live_read_var_down idx w' ltac:(eauto)) as Hd.
      rewrite Hrd in Hd. injection Hd as ->. by right.
    + destruct (decide (0 < cut < FRAME_SIZE)%nat) as [Hcut|Hcut].
      * pose proof (live_read_var_cut idx cut ls w' Hl Hcut) as Hd.
        rewrite Hrd in Hd. injection Hd as ->. by right.
      * destruct (live_read_var_whole idx val cut ls w' Hl Hcut Hi Hv Hval)
          as (w3 & Hrd' & _).
        rewrite Hrd in Hrd'. injection Hrd' as -> _. by left.
  - destruct (set_post (Live.table w) idx val Hok Hr) as (t' & tr & Hset & Hok' & Hsz & Hv').
    unfold run in *. unfold bind.
    destruct (VarTableM.set idx val (Live.table w, [])) as [r [t1 tr1]] eqn:Es.
    injection Hset as -> -> ->.
    destruct (get_in_range t' tr idx Hok' ltac:(by rewrite Hsz)) as (x & Hx & ->).
    rewrite Hx in Hv'. injection Hv' as ->. eauto.
Qed.

Lemma C1_witness :
  let w := Live.start (VarTableM.init 100) [Live.Down; Live.Up 3; Live.Up 0; Live.Up 0] in
  let w' := (Web.write_var 5 11 7500 w).2 in
  0 <= 7500 < 2 ^ 32 /\
  _vals (Live.table w') !! Z.to_nat 11 = Some 7500 /\
  (forall cut ls, Live.links w' = Live.Up cut :: ls -> ~ (0 < cut < FRAME_SIZE)%nat ->
     exists w'', Web.read_var 11 w' = (Ok 7500, w'')) /\
  (forall v w'', Web.read_var 11 w' = (Ok v, w'') -> v = 7500 \/ v = -1) /\
  (exists t' tr,
     run (let! _ := VarTableM.set 11 7500 in VarTableM.get 11) (Live.table w) =
     (Ok 7500, t', tr)).
Proof.
  apply (C1_write_then_read 5 11 7500
           (Live.start (VarTableM.init 100) [Live.Down; Live.Up 3; Live.Up 0; Live.Up 0])).
  - apply table_ok_init.
  - simpl. lia.
  - vm_compute. reflexivity.
Defined.

(** ** The live server is [handle_client], one read at a time *)

Lemma async_dispatch_keeps_writer (fr : bytes) (s s' : AsyncServer.state)
    (r : result signal) :
  dispatch fr 0 s = (r, s') ->
  AsyncServer.writer_closed s' = AsyncServer.writer_closed s /\
  AsyncServer.in_clients s' = AsyncServer.in_clients s.
Proof.
  server_unfold.
  repeat (case_match; simplify_eq; cbn [fst snd] in *; try congruence);
    intros; simplify_eq; cbn; done.
Qed.

Lemma async_process_keeps_writer (data : bytes) (s s' : AsyncServer.state)
    (r : result signal) :
  process data s = (r, s') ->
  AsyncServer.writer_closed s' = AsyncServer.writer_closed s /\
  AsyncServer.in_clients s' = AsyncServer.in_clients s.
Proof.
  rewrite process_as_frames. generalize (complete_frames data) as frames.
  intros frames. revert s. induction frames as [|fr frames IH]; intros s.
  - by intros [= _ <-].
  - cbn [dispatch_all]. unfold bind.
    destruct (dispatch fr 0 s) as [[[|]| |] s1] eqn:Hd;
      apply async_dispatch_keeps_writer in Hd as [Hc Hi].
    + intros Hrest. apply IH in Hrest as [Hc' Hi']. split; congruence.
    + by intros [= _ <-].
    + by intros [= _ <-].
    + by intros [= _ <-].
Qed.

Lemma live_feed_closed (reads : list bytes) (s : AsyncServer.state) :
  AsyncServer.writer_closed s = true -> fold_left Live.feed reads s = s.
Proof.
  intros Hc. induction reads as [|data reads IH]; [done|].
  cbn [fold_left]. unfold Live.feed at 2. by rewrite Hc.
Qed.

(** Feeding the handler the reads one by one and then the end of the
    stream leaves the server where [handle_client] on the whole list
    leaves it. *)
Lemma live_feed_handle_client (reads : list bytes) (s : AsyncServer.state) :
  Forall (fun data => data <> []) reads ->
  AsyncServer.writer_closed s = false ->
  (AsyncServer.handle_client reads s).2 =
  Live.eof (fold_left Live.feed reads (AsyncServer.clients_add s).2).
Proof.
  intros Hne Hopen.
  unfold AsyncServer.handle_client, bind, AsyncServer.clients_add, modify.
  cbn [fst snd].
  set (s0 := AsyncServer.mkState _ _ _ true _).
  assert (Hopen0 : AsyncServer.writer_closed s0 = false) by done.
  clearbody s0. clear Hopen. revert s0 Hopen0.
  induction Hne as [|data reads Hd Hne IH]; intros s0 Hopen.
  - unfold try_finally, Live.eof. cbn. by rewrite Hopen.
  - unfold try_finally. rewrite async_serve_cons by done.
    cbn [fold_left]. unfold Live.feed at 2. rewrite Hopen.
    destruct (process data s0) as [[[|]|e|] s1] eqn:Hp;
      pose proof (async_process_keeps_writer _ _ _ _ Hp) as [Hc _].
    + specialize (IH s1 ltac:(congruence)). unfold try_finally in IH. exact IH.
    + cbn. rewrite live_feed_closed by done. reflexivity.
    + cbn. rewrite live_feed_closed by done. reflexivity.
    + destruct (async_process_not_stuck data s0). by rewrite Hp.
Qed.

(** ** Visual_ob/Communication.py at the end of a stream *)

Lemma visual_ob_recv_exact_eq {W} `{Net W} (fuel expect : nat) (buf : bytes) :
  VisualOb.recv_exact fuel expect buf =
  if decide (length buf < expect)%nat then
    match fuel with
    | O => stuck
    | S fuel' =>
        let! chunk := recv (expect - length buf) in
        VisualOb.recv_exact fuel' expect (buf ++ chunk)
    end
  else ret buf.
Proof. destruct fuel; reflexivity. Qed.

(** Once the server has closed the connection, [recv] returns [b'']
    for ever: the receive loop of the Visual_ob client never ends,
    while the loop of the web client raises ConnectionError. *)
Lemma visual_ob_recv_spins_at_eof (fuel sends d : nat) (p : list Scripted.script)
    (out : list bytes) (buf : bytes) :
  (length buf < 8)%nat ->
  let w := Scripted.mk p (Some (sends, [], Scripted.Eof)) d out in
  VisualOb.recv_exact fuel 8 buf w = (Stuck, w) /\
  Web.recv_exact (S fuel) 8 buf w = (Raise ConnectionError, w).
Proof.
  intros Hlt w. split.
  - induction fuel as [|fuel IH]; rewrite visual_ob_recv_exact_eq;
      rewrite decide_True by done; [reflexivity|].
    unfold bind. cbn [recv Scripted.net]. unfold Scripted.receive. cbn.
    rewrite app_nil_r. apply IH.
  - rewrite web_recv_exact_eq. rewrite decide_True by done.
    unfold bind. cbn [recv Scripted.net]. unfold Scripted.receive. cbn.
    reflexivity.
Qed.

(** * Further properties of the code *)

(** ** VarTable over a history of calls *)

Lemma run_set_table_ok (t : VarTable) (idx val : Z) :
  table_ok t ->
  table_ok (run (VarTableM.set idx val) t).1.2 /\
  _size (run (VarTableM.set idx val) t).1.2 = _size t.
Proof.
  intros Hok. unfold run.
  destruct (VarTableM.set idx val (t, [])) as [r [t' tr]] eqn:Hs. cbn.
  apply set_preserves_shape in Hs as [Hsz Hlen].
  unfold table_ok in *. split; congruence.
Qed.

Lemma apply_sets_table_ok (ps : list (Z * Z)) (t : VarTable) :
  table_ok t -> table_ok (apply_sets ps t) /\ _size (apply_sets ps t) = _size t.
Proof.
  revert t. induction ps as [|[i v] ps IH]; intros t Hok; [done|].
  change (apply_sets ((i, v) :: ps) t)
    with (apply_sets ps (run (VarTableM.set i v) t).1.2).
  destruct (run_set_table_ok t i v Hok) as [Hok' Hsz].
  destruct (IH _ Hok') as [Hok'' Hsz'']. split; [done|]. by rewrite Hsz''.
Qed.

(** Whatever calls of [set] a table built by [VarTable(size)] has
    seen, with valid or invalid indices, it still has [size] registers
    and [get] answers every index of [0, size) without touching it. *)
Theorem table_invariant (size : Z) (ps : list (Z * Z)) (idx : Z) :
  let t := apply_sets ps (VarTableM.init size) in
  table_ok t /\ _size t = size /\
  (0 <= idx < size -> exists v, run (VarTableM.get idx) t = (Ok v, t, [])).
Proof.
  intros t.
  destruct (apply_sets_table_ok ps (VarTableM.init size) (table_ok_init size))
    as [Hok Hsz].
  split; [done|]. split; [done|]. intros Hr.
  destruct (get_in_range t [] idx Hok) as (v & _ & Hg); [fold t in Hsz; cbn in Hsz; lia|].
  exists v. unfold run. by rewrite Hg.
Qed.

Lemma run_set_lookup (t : VarTable) (i v idx : Z) :
  table_ok t -> 0 <= idx < _size t ->
  _vals (run (VarTableM.set i v) t).1.2 !! Z.to_nat idx =
  if bool_decide (i = idx) then Some v else _vals t !! Z.to_nat idx.
Proof.
  intros Hok Hr.
  destruct (set_cases t i v Hok) as [[Hn ->]|[(Hi & Hv & ->)|(old & Hi & Hv & Hne & ->)]];
    cbn [fst snd].
  - rewrite bool_decide_eq_false_2; [done|]. intros ->. done.
  - case_bool_decide as Heq; [by subst|done].
  - cbn. case_bool_decide as Heq.
    + subst. apply list_lookup_insert_eq.
      pose proof (table_ok_range t idx Hok Hr). lia.
    + apply list_lookup_insert_ne. lia.
Qed.

(** A register of a table that started at zero holds the value of the
    last [set] that named it, and zero when none did; calls with other
    indices, and calls that were rejected, do not disturb it. *)
Theorem last_write_wins (size : Z) (ps : list (Z * Z)) (idx : Z) :
  0 <= idx < size ->
  _vals (apply_sets ps (VarTableM.init size)) !! Z.to_nat idx =
  Some (default 0 (last_write idx ps)).
Proof.
  intros Hr.
  assert (Hgen : forall t, table_ok t -> _size t = size ->
            _vals (apply_sets ps t) !! Z.to_nat idx =
            match last_write idx ps with
            | Some v => Some v
            | None => _vals t !! Z.to_nat idx
            end).
  { induction ps as [|[i v] ps IH]; intros t Hok Hsz; [done|].
    change (apply_sets ((i, v) :: ps) t)
      with (apply_sets ps (run (VarTableM.set i v) t).1.2).
    cbn [last_write].
    destruct (run_set_table_ok t i v Hok) as [Hok' Hsz'].
    rewrite IH by (done || congruence).
    destruct (last_write idx ps); [done|].
    rewrite run_set_lookup by (done || lia).
    by case_bool_decide. }
  rewrite Hgen by (apply table_ok_init || done).
  destruct (last_write idx ps); [done|]. cbn.
  apply lookup_replicate_2. lia.
Qed.

Lemma last_write_wins_witness :
  _vals (apply_sets [(11, 7500); (150, 3); (11, 42); (12, 9)] (VarTableM.init 100))
    !! Z.to_nat 11 = Some 42.
Proof. apply (last_write_wins 100 [(11, 7500); (150, 3); (11, 42); (12, 9)] 11). lia. Defined.

(** [get] index by index on a well-formed table: a valid index gives
    its register, an index of [-size, 0) gives register [size + idx],
    any other index raises IndexError; the table is never touched. *)
Theorem get_by_index (t : VarTable) (idx : Z) :
  table_ok t -> 0 <= _size t ->
  exists r, run (VarTableM.get idx) t = (r, t, []) /\
    if decide (0 <= idx < _size t) then
      exists v, r = Ok v /\ _vals t !! Z.to_nat idx = Some v
    else if decide (- _size t <= idx < 0) then
      exists v, r = Ok v /\ _vals t !! Z.to_nat (_size t + idx) = Some v
    else r = Raise IndexError.
Proof.
  intros Hok Hsz.
  destruct (decide (0 <= idx < _size t)) as [Hr|Hr].
  - destruct (get_in_range t [] idx Hok Hr) as (v & Hv & Hg).
    exists (Ok v). unfold run. rewrite Hg. eauto.
  - destruct (decide (- _size t <= idx < 0)) as [Hn|Hn].
    + destruct (get_negative_index t idx Hok Hn) as (v & Hv & ->). eauto.
    + rewrite get_far_index by (done || lia). eauto.
Qed.

Lemma get_by_index_witness :
  exists r, run (VarTableM.get 100) (VarTableM.init 100) = (r, VarTableM.init 100, []) /\
            r = Raise IndexError.
Proof.
  destruct (get_by_index (VarTableM.init 100) 100 (table_ok_init 100) ltac:(simpl; lia))
    as (r & Hrun & Hr).
  exists r. split; [exact Hrun|]. exact Hr.
Defined.

(** ** The frame codec, decode then encode *)

Lemma be_bytes_length (n : nat) (v : Z) : length (struct.be_bytes n v) = n.
Proof. induction n as [|n IH]; [done|]. cbn [struct.be_bytes length]. by rewrite IH. Qed.


Lemma shift_in_byte (x y : Z) :
  0 <= y < 256 -> (x * 256 + y) / 256 = x /\ (x * 256 + y) mod 256 = y.
Proof. intros Hy. Z.div_mod_to_equations. lia. Qed.

Lemma be_bytes_two (x y : Z) :
  0 <= x < 256 -> 0 <= y < 256 ->
  struct.be_bytes 2 (x * 256 + y) = [byte_of_Z x; byte_of_Z y].
Proof.
  intros Hx Hy. unfold struct.be_bytes.
  change (8 * Z.of_nat 1) with 8. change (8 * Z.of_nat 0) with 0.
  rewrite !land_shiftr_byte by lia.
  change (2 ^ 8) with 256. change (2 ^ 0) with 1. rewrite Z.div_1_r.
  destruct (shift_in_byte x y Hy) as [-> ->].
  by rewrite (Z.mod_small x) by lia.
Qed.

Lemma be_bytes_four (x3 x2 x1 x0 : Z) :
  0 <= x3 < 256 -> 0 <= x2 < 256 -> 0 <= x1 < 256 -> 0 <= x0 < 256 ->
  struct.be_bytes 4 (((x3 * 256 + x2) * 256 + x1) * 256 + x0) =
  [byte_of_Z x3; byte_of_Z x2; byte_of_Z x1; byte_of_Z x0].
Proof.
  intros H3 H2 H1 H0. unfold struct.be_bytes.
  change (8 * Z.of_nat 3) with 24. change (8 * Z.of_nat 2) with 16.
  change (8 * Z.of_nat 1) with 8. change (8 * Z.of_nat 0) with 0.
  rewrite !land_shiftr_byte by lia.
  change (2 ^ 24) with (256 * (256 * 256)). change (2 ^ 16) with (256 * 256).
  change (2 ^ 8) with 256. change (2 ^ 0) with 1.
  rewrite Z.div_1_r, <- !Z.div_div by lia.
  destruct (shift_in_byte ((x3 * 256 + x2) * 256 + x1) x0 H0) as [-> ->].
  destruct (shift_in_byte (x3 * 256 + x2) x1 H1) as [-> ->].
  destruct (shift_in_byte x3 x2 H2) as [-> ->].
  by rewrite (Z.mod_small x3) by lia.
Qed.

(** Every buffer of eight bytes unpacks, to fields within their
    ranges, and packing those fields gives the same eight bytes back;
    a buffer of any other length makes [struct.unpack] raise
    struct.error. *)
Theorem unpack_then_pack (bs : bytes) :
  if decide (length bs = 8%nat) then
    exists a b h i,
      struct.unpack_BBHI bs = Ok (a, b, h, i) /\
      0 <= a < 256 /\ 0 <= b < 256 /\ 0 <= h < 2 ^ 16 /\ 0 <= i < 2 ^ 32 /\
      struct.pack_BBHI a b h i = Ok bs
  else struct.unpack_BBHI bs = Raise StructError.
Proof.
  destruct (decide (length bs = 8%nat)) as [Hlen|Hlen].
  2:{ unfold struct.unpack_BBHI. by rewrite decide_False. }
  destruct bs as [|b0 [|b1 [|b2 [|b3 [|b4 [|b5 [|b6 [|b7 [|? ?]]]]]]]]];
    try discriminate.
  pose proof (Z_of_byte_range b0). pose proof (Z_of_byte_range b1).
  pose proof (Z_of_byte_range b2). pose proof (Z_of_byte_range b3).
  pose proof (Z_of_byte_range b4). pose proof (Z_of_byte_range b5).
  pose proof (Z_of_byte_range b6). pose proof (Z_of_byte_range b7).
  exists (Z_of_byte b0), (Z_of_byte b1),
    (Z_of_byte b2 * 256 + Z_of_byte b3),
    (((Z_of_byte b4 * 256 + Z_of_byte b5) * 256 + Z_of_byte b6) * 256 + Z_of_byte b7).
  split.
  { unfold struct.unpack_BBHI, struct.unpack_from_BBHI, struct.window.
    cbn [length Nat.add decide]. rewrite !decide_True by (cbn; lia).
    cbn [take drop]. unfold struct.be_int. cbn [fold_left].
    rewrite !Z.shiftl_0_l, !Z.lor_0_l.
    rewrite (lor_shiftl_byte (Z_of_byte b2)) by lia.
    rewrite (lor_shiftl_byte (Z_of_byte b4)) by lia.
    rewrite (lor_shiftl_byte (_ * 256 + _)) by lia.
    rewrite (lor_shiftl_byte (_ * 256 + _)) by lia.
    reflexivity. }
  change (2 ^ 16) with 65536. change (2 ^ 32) with 4294967296.
  repeat (split; [lia|]).
  unfold struct.pack_BBHI, struct.fits.
  change (2 ^ 8) with 256. change (2 ^ 16) with 65536. change (2 ^ 32) with 4294967296.
  rewrite !bool_decide_eq_true_2 by lia. cbn [andb].
  rewrite be_bytes_two, be_bytes_four by lia.
  unfold struct.be_bytes. change (8 * Z.of_nat 0) with 0.
  rewrite !land_shiftr_byte by lia. change (2 ^ 0) with 1. rewrite !Z.div_1_r.
  rewrite !Z.mod_small by lia.
  by rewrite !byte_of_Z_of_byte.
Qed.

(** ** What a connection can and cannot do to the server *)

Lemma dispatch_all_preserves {St} `{Endpoint St} (P : St -> Prop) (frames : list bytes) :
  Forall (fun fr => preserves P (dispatch fr 0)) frames ->
  preserves P (dispatch_all frames).
Proof.
  induction 1 as [|fr frames Hfr _ IH]; cbn [dispatch_all]; [apply preserves_ret|].
  apply preserves_bind; [done|]. intros [|]; [done|apply preserves_ret].
Qed.

Lemma async_serve_preserves (P : AsyncServer.state -> Prop) (reads : list bytes) :
  Forall (fun data => preserves P (process data)) reads ->
  preserves P (AsyncServer.serve reads).
Proof.
  induction 1 as [|data reads Hd _ IH]; cbn [AsyncServer.serve]; [apply preserves_ret|].
  destruct (decide (data = [])); [apply preserves_ret|].
  apply preserves_bind; [done|]. intros [|]; [done|apply preserves_ret].
Qed.

Lemma async_handle_client_preserves (P : AsyncServer.state -> Prop) (reads : list bytes) :
  (forall t tr w c k c' k', P (AsyncServer.mkState t tr w c k) ->
                            P (AsyncServer.mkState t tr w c' k')) ->
  Forall (fun data => preserves P (process data)) reads ->
  preserves P (AsyncServer.handle_client reads).
Proof.
  intros Hflags Hreads. unfold AsyncServer.handle_client.
  apply preserves_bind.
  { intros s r s' HP [= _ <-]. destruct s. by eapply Hflags. }
  intros _. apply preserves_try_finally; [by apply async_serve_preserves|].
  intros s r s' HP [= _ <-]. destruct s. by eapply Hflags.
Qed.


(** A frame whose command is not WRITE_DATA leaves the table and its
    log as they were. *)
Lemma async_dispatch_reads_only (fr : bytes) (s s' : AsyncServer.state) (r : result signal) :
  (forall cmd idx, struct.unpack_from_BB fr 0 = Ok (cmd, idx) -> cmd <> 0x52) ->
  dispatch fr 0 s = (r, s') ->
  AsyncServer.var_table s' = AsyncServer.var_table s /\
  AsyncServer.table_log s' = AsyncServer.table_log s.
Proof.
  intros Hcmd. server_unfold.
  destruct (struct.unpack_from_BB fr 0) as [[cmd idx]| |] eqn:Hhd;
    try (by intros [= _ <-]).
  specialize (Hcmd cmd idx eq_refl).
  destruct (cmd =? 64).
  { destruct (VarTableM.get idx _) as [[v| |] [t tr]] eqn:Hg;
      apply get_preserves in Hg as [-> ->]; try (by intros [= _ <-]).
    destruct (struct.pack_BBHI 65 idx 0 v); by intros [= _ <-]. }
  destruct (cmd =? 66); [by intros [= _ <-]|].
  destruct (cmd =? 80).
  { destruct (struct.pack_BBHI 81 idx 0 0); by intros [= _ <-]. }
  destruct (cmd =? 82) eqn:Hc; [apply Z.eqb_eq in Hc; done|].
  by intros [= _ <-].
Qed.



(** Only WRITE_DATA frames change the table: reads none of whose
    complete frames has command 0x52 leave every register, and the
    table's log, as they were, however the connection ends. *)
Theorem table_changes_only_by_write_data (reads : list bytes) (s : AsyncServer.state) :
  Forall (fun data =>
            Forall (fun fr => forall cmd idx,
                      struct.unpack_from_BB fr 0 = Ok (cmd, idx) -> cmd <> 0x52)
                   (complete_frames data)) reads ->
  AsyncServer.var_table (AsyncServer.handle_client reads s).2 = AsyncServer.var_table s /\
  AsyncServer.table_log (AsyncServer.handle_client reads s).2 = AsyncServer.table_log s.
Proof.
  intros Hreads.
  pose (P := fun x : AsyncServer.state =>
    AsyncServer.var_table x = AsyncServer.var_table s /\
    AsyncServer.table_log x = AsyncServer.table_log s).
  destruct (AsyncServer.handle_client reads s) as [r s'] eqn:Hrun.
  apply (async_handle_client_preserves P reads) with (s := s) (r := r); [done| |done|done].
  eapply Forall_impl; [exact Hreads|]. intros data Hdata x rx x' [Ht Hl].
  rewrite process_as_frames. intros Hp.
  apply (dispatch_all_preserves P (complete_frames data)) with (s := x) (r := rx);
    [|done|done].
  eapply Forall_impl; [exact Hdata|]. intros fr Hfr y ry y' [Hty Hly] Hd.
  apply async_dispatch_reads_only in Hd as [Ht' Hl']; [|done].
  split; congruence.
Qed.

Lemma table_changes_only_by_write_data_witness :
  AsyncServer.var_table
    (AsyncServer.handle_client [frame 0x50 11 0 ++ frame 0x40 11 0; frame 0x99 1 2]
       AsyncServer.new).2 = AsyncServer.var_table AsyncServer.new.
Proof.
  apply (table_changes_only_by_write_data
           [frame 0x50 11 0 ++ frame 0x40 11 0; frame 0x99 1 2] AsyncServer.new).
  repeat constructor; intros cmd idx [= <- _]; discriminate.
Defined.

(** A WRITE_DATA frame takes effect on its own: with no WRITE_REQ
    before it on the connection, a valid index is written and answered
    with WRITE_DONE. *)
Theorem write_data_needs_no_write_req (t : VarTable) (idx val : Z) :
  table_ok t -> 0 <= idx < _size t -> 0 <= idx < 256 -> 0 <= val < 2 ^ 32 ->
  exists t' tr,
    AsyncServer.handle_client [frame 0x52 idx val] (AsyncServer.with_table t) =
    (Ok tt, AsyncServer.mkState t' tr (frame 0x53 idx 0) false true) /\
    _vals t' !! Z.to_nat idx = Some val /\
    (forall j : nat, Z.of_nat j <> idx -> _vals t' !! j = _vals t !! j).
Proof.
  intros Hok Hr Hi Hv.
  destruct (frame_fields 0x52 idx val) as (Hlen & Hbb & Hbbhi & _); [lia..|].
  destruct (set_cases t idx val Hok) as [[Hn _]|[(_ & Hval & Hrun)|(old & _ & Hold & Hne & Hrun)]];
    [done| |].
  - exists t, []. split; [|by split].
    unfold AsyncServer.handle_client, bind, try_finally, AsyncServer.clients_add,
      AsyncServer.cleanup, modify.
    rewrite async_serve_cons by (by destruct (frame 0x52 idx val)).
    rewrite process_single by done.
    rewrite (async_dispatch_write_data _ idx val 0) by done.
    cbn [AsyncServer.var_table AsyncServer.with_table]. rewrite Hrun. reflexivity.
  - eexists _, _. split; [|split].
    + unfold AsyncServer.handle_client, bind, try_finally, AsyncServer.clients_add,
        AsyncServer.cleanup, modify.
      rewrite async_serve_cons by (by destruct (frame 0x52 idx val)).
      rewrite process_single by done.
      rewrite (async_dispatch_write_data _ idx val 0) by done.
      cbn [AsyncServer.var_table AsyncServer.with_table]. rewrite Hrun. reflexivity.
    + cbn. apply list_lookup_insert_eq.
      pose proof (table_ok_range t idx Hok Hr). lia.
    + intros j Hj. cbn. apply list_lookup_insert_ne. lia.
Qed.

Lemma write_data_needs_no_write_req_witness :
  exists t' tr,
    AsyncServer.handle_client [frame 0x52 11 7500]
      (AsyncServer.with_table (VarTableM.init 100)) =
    (Ok tt, AsyncServer.mkState t' tr (frame 0x53 11 0) false true) /\
    _vals t' !! Z.to_nat 11 = Some 7500 /\
    (forall j : nat, Z.of_nat j <> 11 ->
       _vals t' !! j = _vals (VarTableM.init 100) !! j).
Proof.
  apply (write_data_needs_no_write_req (VarTableM.init 100) 11 7500).
  - apply table_ok_init.
  - simpl. lia.
  - lia.
  - lia.
Defined.

(** A WRITE_DATA frame whose index byte is not below the table's size
    stores nothing and gets no reply: [set] raises IndexError before it
    touches the table, and the handler ends with that exception through
    [finally]. *)
Theorem write_data_out_of_range (t : VarTable) (fr post : bytes) (reads : list bytes)
    (idx h val : Z) :
  length fr = FRAME_SIZE ->
  struct.unpack_from_BBHI fr 0 = Ok (0x52, idx, h, val) ->
  ~ (0 <= idx < _size t) ->
  AsyncServer.handle_client ((fr ++ post) :: reads) (AsyncServer.with_table t) =
  (Raise IndexError, AsyncServer.mkState t [] [] false true).
Proof.
  intros Hlen Hfr Hout.
  pose proof (unpack_from_BB_of_BBHI _ _ _ _ _ Hfr) as Hbb.
  unfold AsyncServer.handle_client, bind, try_finally, AsyncServer.clients_add,
    AsyncServer.cleanup, modify.
  rewrite async_serve_cons by (by apply frame_not_nil).
  rewrite process_one by done.
  rewrite (async_dispatch_write_data _ idx val h) by done.
  cbn [AsyncServer.var_table AsyncServer.with_table].
  rewrite set_out_of_range by done. reflexivity.
Qed.

Lemma write_data_out_of_range_witness :
  AsyncServer.handle_client [frame 0x52 150 7 ++ frame 0x52 11 7; frame 0x52 11 7]
    (AsyncServer.with_table (VarTableM.init 100)) =
  (Raise IndexError, AsyncServer.mkState (VarTableM.init 100) [] [] false true).
Proof.
  apply (write_data_out_of_range (VarTableM.init 100) (frame 0x52 150 7) _ _ 150 0 7).
  - reflexivity.
  - reflexivity.
  - simpl. lia.
Defined.

(** A register can hold a value that does not fit 32 bits unsigned
    (the console and [set] take any integer).  READ_REQ for such a
    register is not answered: packing the READ_ACK raises struct.error,
    which ends the handler. *)
Theorem read_req_of_unpackable_value (t : VarTable) (fr post : bytes)
    (reads : list bytes) (idx v : Z) :
  length fr = FRAME_SIZE ->
  struct.unpack_from_BB fr 0 = Ok (0x40, idx) ->
  0 <= idx < Z.of_nat (length (_vals t)) ->
  _vals t !! Z.to_nat idx = Some v -> ~ (0 <= v < 2 ^ 32) ->
  AsyncServer.handle_client ((fr ++ post) :: reads) (AsyncServer.with_table t) =
  (Raise StructError, AsyncServer.mkState t [] [] false true).
Proof.
  intros Hlen Hhd Hr Hv Hbig.
  unfold AsyncServer.handle_client, bind, try_finally, AsyncServer.clients_add,
    AsyncServer.cleanup, modify.
  rewrite async_serve_cons by (by apply frame_not_nil).
  rewrite process_one by done.
  rewrite (async_dispatch_read_req _ idx) by done.
  cbn [AsyncServer.var_table AsyncServer.with_table].
  unfold py_getitem. rewrite py_index_in_range by done. rewrite Hv.
  rewrite pack_BBHI_out_of_range by tauto. reflexivity.
Qed.

Lemma read_req_of_unpackable_value_witness :
  AsyncServer.handle_client [frame 0x40 11 0]
    (AsyncServer.with_table (apply_sets [(11, -1)] (VarTableM.init 100))) =
  (Raise StructError,
   AsyncServer.mkState (apply_sets [(11, -1)] (VarTableM.init 100)) [] [] false true).
Proof.
  rewrite <- (app_nil_r (frame 0x40 11 0)).
  apply (read_req_of_unpackable_value _ (frame 0x40 11 0) [] [] 11 (-1)).
  - reflexivity.
  - reflexivity.
  - vm_compute. split; [discriminate|reflexivity].
  - reflexivity.
  - lia.
Defined.

(** ** ByteStream: nothing lost, nothing twice, nothing out of order *)

Ltac stream_fin :=
  cbn -[concat]; rewrite ?concat_app; cbn;
  rewrite ?app_nil_r, <- ?app_assoc, ?take_drop, ?app_nil_r;
  repeat split; intros; try discriminate; try reflexivity;
  try (by apply prefix_app_r).

Lemma stream_step_conserves (l : StreamIO.life) (a : StreamIO.action) (S C : bytes) :
  let l' := StreamIO.step l a in
  let S' := S ++ StreamIO.sends_of [a] in
  let C' := C ++ StreamIO.chunks_of [a] in
  (StreamIO.wire l ++ ByteStream._tx_buf (StreamIO.stream l)) `prefix_of` S /\
  (concat (StreamIO.polled l) ++ ByteStream._rx_buf (StreamIO.stream l)) `prefix_of` C /\
  (ByteStream._closed (StreamIO.stream l) = false ->
   StreamIO.wire l ++ ByteStream._tx_buf (StreamIO.stream l) = S /\
   concat (StreamIO.polled l) ++ ByteStream._rx_buf (StreamIO.stream l) = C) ->
  (StreamIO.wire l' ++ ByteStream._tx_buf (StreamIO.stream l')) `prefix_of` S' /\
  (concat (StreamIO.polled l') ++ ByteStream._rx_buf (StreamIO.stream l')) `prefix_of` C' /\
  (ByteStream._closed (StreamIO.stream l') = false ->
   StreamIO.wire l' ++ ByteStream._tx_buf (StreamIO.stream l') = S' /\
   concat (StreamIO.polled l') ++ ByteStream._rx_buf (StreamIO.stream l') = C').
Proof.
  destruct l as [[rx tx closed] w p]. cbn -[concat].
  intros (HS & HC & Heq).
  unfold StreamIO.sends_of, StreamIO.chunks_of.
  destruct closed.
  - (* a closed stream: only [recv] still does something *)
    clear Heq.
    destruct a as [d|[[c|]|] wr| |]; unfold StreamIO.step, StreamIO._io_cb,
      ByteStream.send, ByteStream.recv, ByteStream.close;
      cbn -[concat]; repeat case_match; simplify_eq; rewrite ?app_nil_r in *;
      stream_fin; try done.
  - (* an open stream: both equalities hold before the step *)
    destruct (Heq eq_refl) as [<- <-]. clear HS HC Heq.
    destruct a as [d|[[c|]|] [[n|]|]| |]; unfold StreamIO.step, StreamIO._io_cb,
      ByteStream._io_cb, ByteStream.send, ByteStream.recv, ByteStream.close;
      cbn -[concat]; repeat case_match; simplify_eq; rewrite ?app_nil_r in *;
      stream_fin; try done.
Qed.

(** Through any sequence of [send], [_io_cb], [recv] and [close] on a
    new stream: the bytes put on the wire followed by those still in
    [_tx_buf] are a prefix of the data passed to [send], in order; the
    buffers handed out by [recv] followed by [_rx_buf] are a prefix of
    what the socket delivered; and as long as the stream is not closed
    both are the whole of it. *)
Theorem stream_conserves_bytes (acts : list StreamIO.action) :
  let l := StreamIO.run acts in
  (StreamIO.wire l ++ ByteStream._tx_buf (StreamIO.stream l))
    `prefix_of` StreamIO.sends_of acts /\
  (concat (StreamIO.polled l) ++ ByteStream._rx_buf (StreamIO.stream l))
    `prefix_of` StreamIO.chunks_of acts /\
  (ByteStream._closed (StreamIO.stream l) = false ->
   StreamIO.wire l ++ ByteStream._tx_buf (StreamIO.stream l) = StreamIO.sends_of acts /\
   concat (StreamIO.polled l) ++ ByteStream._rx_buf (StreamIO.stream l) =
   StreamIO.chunks_of acts).
Proof.
  induction acts as [|a acts IH] using rev_ind; [done|].
  unfold StreamIO.run in *. rewrite fold_left_app. cbn [fold_left].
  assert (Hs : StreamIO.sends_of (acts ++ [a]) =
               StreamIO.sends_of acts ++ StreamIO.sends_of [a]).
  { unfold StreamIO.sends_of. by rewrite omap_app, concat_app. }
  assert (Hc : StreamIO.chunks_of (acts ++ [a]) =
               StreamIO.chunks_of acts ++ StreamIO.chunks_of [a]).
  { unfold StreamIO.chunks_of. by rewrite omap_app, concat_app. }
  rewrite Hs, Hc. by apply stream_step_conserves.
Qed.

(** ** The web client: reassembly and the cost of retries *)

(** However the eight bytes of a reply are cut into the chunks that
    successive [recv] calls return, the receive loop of [_txn] and
    [read_var] puts them together again: it returns the first
    [expect] bytes of what was sent. *)
Theorem web_recv_reassembles (expect sends d : nat) (cs : list bytes)
    (fin : Scripted.ending) (p : list Scripted.script) (out : list bytes) :
  Forall (fun c => c <> []) cs -> (expect <= length (concat cs))%nat ->
  exists w', Web.recv_exact expect expect []
               (Scripted.mk p (Some (sends, cs, fin)) d out) =
             (Ok (take expect (concat cs)), w').
Proof.
  intros Hne Hlen.
  assert (Hgen : forall fuel buf,
            (expect - length buf <= fuel)%nat -> (length buf <= expect)%nat ->
            (expect <= length buf + length (concat cs))%nat ->
            exists w', Web.recv_exact fuel expect buf
                         (Scripted.mk p (Some (sends, cs, fin)) d out) =
                       (Ok (take expect (buf ++ concat cs)), w')).
  { clear Hlen. induction Hne as [|c cs Hc Hne IH]; intros fuel buf Hfuel Hbuf Hsum;
      rewrite web_recv_exact_eq.
    - cbn in Hsum. rewrite decide_False by lia. cbn. rewrite app_nil_r.
      rewrite take_ge by lia. eauto.
    - destruct (decide (length buf < expect)%nat) as [Hlt|Hge].
      2:{ rewrite take_app_length' by lia. eauto. }
      destruct fuel as [|fuel]; [lia|].
      unfold bind. cbn [recv Scripted.net]. unfold Scripted.receive.
      cbn [Scripted.current Scripted.pending Scripted.dialled Scripted.outbox].
      set (n := (expect - length buf)%nat).
      assert (Htk : take n c <> []).
      { destruct c; [done|]. destruct n eqn:En; [lia|done]. }
      assert (Hc1 : (1 <= length c)%nat) by (destruct c; [done|cbn; lia]).
      assert (Hn : n = (expect - length buf)%nat) by done. clearbody n.
      rewrite (decide_False (P:=take n c = [])) by done.
      cbn [concat] in *. rewrite length_app in Hsum.
      destruct (decide (n <= length c)%nat) as [Hfit|Hshort].
      + rewrite web_recv_exact_eq.
        rewrite decide_False by (rewrite length_app, length_take; lia).
        unfold ret. eexists. f_equal. f_equal.
        rewrite take_app. rewrite (take_ge buf) by lia.
        f_equal. rewrite <- Hn. rewrite take_app_le by lia. done.
      + rewrite (take_ge c) by lia. rewrite (drop_ge c) by lia.
        rewrite decide_True by done.
        destruct (IH fuel (buf ++ c)) as (w' & Hrun).
        * rewrite length_app. lia.
        * rewrite length_app. lia.
        * rewrite length_app. lia.
        * rewrite Hrun. rewrite <- app_assoc. eauto. }
  destruct (Hgen expect []) as (w' & Hrun); cbn; [lia..|]. eauto.
Qed.

Lemma web_recv_reassembles_witness :
  exists w', Web.recv_exact 8 8 []
               (Scripted.mk [] (Some (1%nat, [take 3 (frame 0x41 11 7500);
                                              drop 3 (frame 0x41 11 7500)],
                                      Scripted.Timeout)) 1 []) =
             (Ok (take 8 (concat [take 3 (frame 0x41 11 7500);
                                  drop 3 (frame 0x41 11 7500)])), w').
Proof.
  apply (web_recv_reassembles 8 1 1
           [take 3 (frame 0x41 11 7500); drop 3 (frame 0x41 11 7500)]).
  - repeat constructor; discriminate.
  - vm_compute. lia.
Defined.

Section DialsWithin.

Lemma dials_weaken {A} (k k' : nat) (m : M (S:=Scripted.world) A) :
  (k <= k')%nat -> dials_within k m -> dials_within k' m.
Proof. intros Hk Hm w r w' Hrun. specialize (Hm w r w' Hrun). lia. Qed.

Lemma dials_pure {A} (m : M (S:=Scripted.world) A) :
  (forall w, (m w).2 = w) -> dials_within 0 m.
Proof.
  intros Hm w r w' Hrun. specialize (Hm w). rewrite Hrun in Hm. cbn in Hm. subst. lia.
Qed.

Lemma dials_bind {A B} (k1 k2 : nat) (m : M (S:=Scripted.world) A)
    (f : A -> M (S:=Scripted.world) B) :
  dials_within k1 m -> (forall a, dials_within k2 (f a)) ->
  dials_within (k1 + k2) (bind m f).
Proof.
  intros Hm Hf w r w'. unfold bind.
  destruct (m w) as [[a|e|] w1] eqn:Em; specialize (Hm _ _ _ Em).
  - intros Hrun. specialize (Hf a _ _ _ Hrun). lia.
  - intros [= _ <-]. lia.
  - intros [= _ <-]. lia.
Qed.

Lemma dials_try_finally {A} (k1 k2 : nat) (body : M (S:=Scripted.world) A)
    (cleanup : M (S:=Scripted.world) unit) :
  dials_within k1 body -> dials_within k2 cleanup ->
  dials_within (k1 + k2) (try_finally body cleanup).
Proof.
  intros Hb Hc w r w'. unfold try_finally.
  destruct (body w) as [[a|e|] w1] eqn:Eb; specialize (Hb _ _ _ Eb).
  - destruct (cleanup w1) as [[[]|e'|] w2] eqn:Ec; specialize (Hc _ _ _ Ec);
      intros [= _ <-]; lia.
  - destruct (cleanup w1) as [[[]|e'|] w2] eqn:Ec; specialize (Hc _ _ _ Ec);
      intros [= _ <-]; lia.
  - intros [= _ <-]. lia.
Qed.

Lemma dials_try_except {A} (k1 k2 : nat) (body : M (S:=Scripted.world) A)
    (handler : exn -> M (S:=Scripted.world) A) :
  dials_within k1 body -> (forall e, dials_within k2 (handler e)) ->
  dials_within (k1 + k2) (try_except body handler).
Proof.
  intros Hb Hh w r w'. unfold try_except.
  destruct (body w) as [[a|e|] w1] eqn:Eb; specialize (Hb _ _ _ Eb).
  - intros [= _ <-]. lia.
  - intros Hrun. specialize (Hh e _ _ _ Hrun). lia.
  - intros [= _ <-]. lia.
Qed.

Lemma dials_for_range {A} (n k : nat) (body : M (S:=Scripted.world) (option A))
    (orelse : M (S:=Scripted.world) A) :
  dials_within k body -> dials_within 0 orelse ->
  dials_within (n * k) (for_range n body orelse).
Proof.
  intros Hb Ho. induction n as [|n IH]; cbn [for_range]; [done|].
  replace (S n * k)%nat with (k + n * k)%nat by lia.
  apply dials_bind; [done|]. intros [a|]; [|done].
  apply (dials_weaken 0); [lia|]. by apply dials_pure.
Qed.

Lemma dials_send (data : bytes) : dials_within 0 (sendall data).
Proof.
  intros w r w'. cbn. unfold Scripted.send.
  repeat case_match; intros [= _ <-]; cbn; lia.
Qed.

Lemma dials_recv (n : nat) : dials_within 0 (recv n).
Proof.
  intros w r w'. cbn. unfold Scripted.receive.
  repeat case_match; intros [= _ <-]; cbn; lia.
Qed.

Lemma dials_close : dials_within 0 close.
Proof. intros w r w'. cbn. unfold Scripted.hangup, modify. intros [= _ <-]. cbn. lia. Qed.

Lemma dials_dial : dials_within 1 create_connection.
Proof.
  intros w r w'. cbn. unfold Scripted.dial.
  repeat case_match; intros [= _ <-]; cbn; lia.
Qed.

Lemma dials_web_recv_exact (fuel expect : nat) (buf : bytes) :
  dials_within 0 (Web.recv_exact fuel expect buf).
Proof.
  revert buf. induction fuel as [|fuel IH]; intros buf; rewrite web_recv_exact_eq;
    destruct (decide (length buf < expect)%nat); try (by apply dials_pure).
  apply (dials_bind 0 0); [apply dials_recv|]. intros chunk.
  destruct (decide (chunk = [])); [by apply dials_pure|apply IH].
Qed.

Lemma dials_web_attempt (req : bytes) (expect : nat) :
  dials_within 1 (Web.attempt req expect).
Proof.
  unfold Web.attempt, with_connection.
  apply (dials_bind 1 0); [apply dials_dial|]. intros _.
  apply (dials_try_finally 0 0); [|apply dials_close].
  apply (dials_bind 0 0); [apply dials_send|]. intros _. apply dials_web_recv_exact.
Qed.

Lemma dials_web_txn (n : nat) (req : bytes) (expect : nat) :
  dials_within n (Web._txn n req expect).
Proof.
  unfold Web._txn. replace n with (n * 1)%nat at 1 by lia.
  apply dials_for_range; [|by apply dials_pure].
  apply (dials_try_except 1 0); [|intros; by apply dials_pure].
  replace 1%nat with (1 + 0)%nat by lia.
  apply dials_bind; [apply dials_web_attempt|]. intros; by apply dials_pure.
Qed.

Lemma dials_web_write_round (n : nat) (idx val : Z) :
  dials_within (2 * n) (Web.write_round n idx val).
Proof.
  assert (Hreply : forall rsp cmd, dials_within 0 (Web.reply_is rsp cmd)).
  { intros. apply dials_pure. intros w. by rewrite web_reply_is. }
  unfold Web.write_round.
  apply (dials_bind 0 (2 * n)); [by apply dials_pure|]. intros req.
  replace (2 * n)%nat with (n + n)%nat by lia.
  apply dials_bind; [apply dials_web_txn|]. intros rsp.
  apply (dials_bind 0 n); [done|]. intros ready.
  destruct (negb ready); [apply (dials_weaken 0); [lia|by apply dials_pure]|].
  apply (dials_bind 0 n); [by apply dials_pure|]. intros wreq.
  replace n with (n + 0)%nat at 1 by lia.
  apply dials_bind; [apply dials_web_txn|]. intros wrsp.
  apply (dials_bind 0 0); [done|]. intros done'.
  destruct done'; by apply dials_pure.
Qed.
End DialsWithin.

(** Retries are bounded: one [_txn] dials the server at most RETRY_MAX
    times, and one [write_var] at most 2 * RETRY_MAX * RETRY_MAX times,
    on any network and for any arguments. *)
Theorem web_retries_are_bounded (RETRY_MAX : nat) :
  (forall req expect, dials_within RETRY_MAX (Web._txn RETRY_MAX req expect)) /\
  (forall idx val,
     dials_within (2 * RETRY_MAX * RETRY_MAX) (Web.write_var RETRY_MAX idx val)).
Proof.
  split; [intros; apply dials_web_txn|].
  intros idx val. unfold Web.write_var.
  replace (2 * RETRY_MAX * RETRY_MAX)%nat with (RETRY_MAX * (2 * RETRY_MAX))%nat by lia.
  apply dials_for_range; [apply dials_web_write_round|by apply dials_pure].
Qed.

Ltac scripted_ops :=
  cbn [create_connection sendall recv close Scripted.net];
  unfold Scripted.dial, Scripted.send, Scripted.receive, Scripted.hangup, modify;
  cbn [Scripted.pending Scripted.current Scripted.dialled Scripted.outbox].

(** web/Communication.py, [read_var]: what one 8-byte reply gives.  The
    result is the value field of the reply when its command byte is
    READ_ACK (0x41) and the peer took both the request and the confirm;
    it is -1 when the command byte is anything else, or when one of the
    two [sendall] calls fails.  The index byte of the reply is not
    looked at. *)
Theorem web_read_var_reply (idx : Z) (reply : bytes) (sends d : nat)
    (fin : Scripted.ending) (p : list Scripted.script) (out : list bytes)
    (cmd i h v : Z) :
  0 <= idx < 256 -> struct.unpack_BBHI reply = Ok (cmd, i, h, v) ->
  (Web.read_var idx
     (Scripted.mk (Scripted.Accept sends [reply] fin :: p) None d out)).1 =
  Ok (if (2 <=? sends)%nat && (cmd =? 0x41) then v else -1).
Proof.
  intros Hi Hu.
  assert (Hlen : length reply = 8%nat).
  { unfold struct.unpack_BBHI in Hu. destruct (decide (length reply = 8%nat)); [done|discriminate]. }
  assert (Hne : reply <> []) by (intros ->; discriminate).
  destruct (pack_frame 0x40 idx 0) as [Hp40 _]; [lia..|].
  destruct (pack_frame 0x42 idx 0) as [Hp42 _]; [lia..|].
  unfold Web.read_var, try_except, with_connection, try_finally, bind, lift_result, ret.
  scripted_ops. rewrite Hp40. scripted_ops.
  destruct sends as [|[|sends]]; scripted_ops; [reflexivity| |].
  - rewrite web_recv_exact_eq. cbn [length]. rewrite decide_True by lia.
    unfold bind. scripted_ops. rewrite take_ge, drop_ge by lia.
    rewrite (decide_False (P:=reply = [])) by done.
    rewrite app_nil_l, web_recv_exact_eq, decide_False by lia.
    unfold ret. rewrite Hu. cbn beta iota.
    destruct (cmd =? 65); cbn [negb andb]; unfold raise; scripted_ops; [|reflexivity].
    rewrite Hp42. scripted_ops. reflexivity.
  - rewrite web_recv_exact_eq. cbn [length]. rewrite decide_True by lia.
    unfold bind. scripted_ops. rewrite take_ge, drop_ge by lia.
    rewrite (decide_False (P:=reply = [])) by done.
    rewrite app_nil_l, web_recv_exact_eq, decide_False by lia.
    unfold ret. rewrite Hu. cbn beta iota.
    destruct (cmd =? 65); cbn [negb andb]; unfold raise; scripted_ops; [|reflexivity].
    rewrite Hp42. scripted_ops. reflexivity.
Qed.

Lemma web_read_var_reply_witness :
  (Web.read_var 11
     (Scripted.start [Scripted.Accept 2 [frame 0x41 99 7] Scripted.Eof])).1 = Ok 7.
Proof.
  apply (web_read_var_reply 11 (frame 0x41 99 7) 2 0 Scripted.Eof [] [] 0x41 99 0 7);
    [lia | reflexivity].
Defined.


(** ** Visual_ob/Communication.py against server/main.py *)

Lemma visual_ob_recv_spins_live (fuel : nat) (buf : bytes) (w : Live.world) :
  (length buf < 8)%nat -> Live.conn w <> None ->
  drop (Live.taken w) (AsyncServer.written (Live.srv w)) = [] ->
  AsyncServer.writer_closed (Live.srv w) = true ->
  VisualOb.recv_exact fuel 8 buf w = (Stuck, w).
Proof.
  intros Hlt Hc Hd Hcl. induction fuel as [|fuel IH]; rewrite visual_ob_recv_exact_eq;
    rewrite decide_True by done; [reflexivity|].
  unfold bind. cbn [recv Live.net]. unfold Live.receive.
  destruct (Live.conn w); [|done]. rewrite Hd. rewrite decide_True by done.
  rewrite Hcl. rewrite app_nil_r. apply IH.
Qed.

(** Visual_ob/Communication.py, [write_var] against server/main.py: a
    write to a register index at or above the table size does not
    return.  WRITE_REQ is answered with WRITE_READY; WRITE_DATA makes
    the handler raise IndexError and close the connection without a
    reply; the receive loop of [_txn] has no check for the empty chunk
    that [recv] returns from then on, so it never leaves the loop,
    whatever the number of iterations allowed. *)
Theorem visual_ob_write_var_hangs (RETRY_MAX fuel : nat) (idx val : Z)
    (c1 c2 : nat) (ls : list Live.link) (w : Live.world) :
  (1 <= RETRY_MAX)%nat ->
  table_ok (Live.table w) -> _size (Live.table w) <= idx < 256 -> 0 <= idx ->
  0 <= val < 2 ^ 32 ->
  Live.links w = Live.Up c1 :: Live.Up c2 :: ls ->
  ~ (0 < c1 < FRAME_SIZE)%nat -> ~ (0 < c2 < FRAME_SIZE)%nat ->
  (VisualOb.write_var RETRY_MAX fuel idx val w).1 = Stuck.
Proof.
  intros Hn Hok Hidx Hi0 Hv Hl Hc1 Hc2.
  destruct (pack_frame 0x50 idx 0) as [Hp50 _]; [lia..|].
  destruct (pack_frame 0x51 idx 0) as [Hp51 Hl51]; [lia..|].
  destruct (pack_frame 0x52 idx val) as [Hp52 _]; [lia..|].
  destruct (frame_fields 0x50 idx 0) as (Hl50 & Hbb50 & _); [lia..|].
  destruct (frame_fields 0x51 idx 0) as (_ & _ & _ & Hu51 & _); [lia..|].
  destruct (frame_fields 0x52 idx val) as (Hl52 & Hbb52 & Hbbhi52 & _); [lia..|].
  assert (Hne51 : frame 0x51 idx 0 <> []) by (intros E; rewrite E in Hl51; discriminate).
  destruct RETRY_MAX as [|n]; [lia|]. unfold VisualOb.write_var. cbn [for_range].
  unfold bind at 1, VisualOb.write_round, bind at 1, lift_result. rewrite Hp50.
  unfold bind at 1, VisualOb._txn at 1, try_finally, try_except, bind at 1.
  live_ops. rewrite Hl. unfold bind at 1. live_ops.
  rewrite live_pieces_whole by done.
  unfold Live.feed at 1. cbn [fresh AsyncServer.writer_closed].
  rewrite process_single by done.
  rewrite (async_dispatch_write_req _ idx) by done.
  cbn [AsyncServer.var_table AsyncServer.table_log AsyncServer.written
       AsyncServer.in_clients AsyncServer.writer_closed]. rewrite app_nil_l.
  rewrite visual_ob_recv_exact_eq. cbn [length]. rewrite decide_True by lia.
  destruct fuel as [|fuel]; [reflexivity|].
  unfold bind at 1. live_ops. cbn [AsyncServer.written]. rewrite drop_0.
  rewrite (decide_False (P:=frame 0x51 idx 0 = [])) by done.
  rewrite take_ge by lia. rewrite app_nil_l.
  rewrite visual_ob_recv_exact_eq, decide_False by lia. unfold ret at 1.
  live_ops. rewrite bool_decide_eq_true_2 by done. cbn [negb].
  unfold bind at 1. rewrite Hu51. cbn beta iota. change (81 =? 81) with true.
  cbn [negb]. unfold bind at 1. rewrite Hp52.
  unfold bind at 1, VisualOb._txn at 1, try_finally, try_except, bind at 1.
  live_ops. unfold bind at 1. live_ops.
  rewrite live_pieces_whole by done.
  unfold Live.feed at 1. cbn [fresh AsyncServer.writer_closed Live.eof].
  rewrite process_single by done.
  rewrite (async_dispatch_write_data _ idx val 0) by done.
  cbn [AsyncServer.var_table AsyncServer.table_log AsyncServer.written
       AsyncServer.in_clients AsyncServer.writer_closed AsyncServer.cleanup modify snd].
  rewrite set_out_of_range by (unfold Live.table in Hidx; lia).
  cbn [AsyncServer.var_table AsyncServer.table_log AsyncServer.written
       AsyncServer.in_clients AsyncServer.writer_closed AsyncServer.cleanup modify snd].
  rewrite visual_ob_recv_spins_live; [reflexivity|cbn; lia|done|done|done].
Qed.

Lemma visual_ob_write_var_hangs_witness :
  (VisualOb.write_var 5 1000 200 1
     (Live.start (VarTableM.init 100) [Live.Up 0; Live.Up 0])).1 = Stuck.
Proof.
  apply (visual_ob_write_var_hangs 5 1000 200 1 0 0 []
           (Live.start (VarTableM.init 100) [Live.Up 0; Live.Up 0])).
  - lia.
  - apply table_ok_init.
  - simpl. lia.
  - lia.
  - lia.
  - reflexivity.
  - lia.
  - lia.
Defined.

(** ** The web application against server/main.py *)

Lemma set_in_range (t : VarTable) (idx val : Z) :
  table_ok t -> 0 <= idx < _size t ->
  exists t' tr, run (VarTableM.set idx val) t = (Ok tt, t', tr) /\
    _vals t' = <[Z.to_nat idx:=val]> (_vals t) /\ _size t' = _size t.
Proof.
  intros Hok Hr.
  destruct (set_cases t idx val Hok)
    as [[Hn _]|[(_ & Hv & Hrun)|(old & _ & Hv & Hne & Hrun)]].
  - lia.
  - exists t, []. split; [done|]. split; [by rewrite list_insert_id|done].
  - eexists _, _. split; [exact Hrun|]. split; reflexivity.
Qed.

Lemma web_txn_first {W} `{Net W} (n : nat) (req out : bytes) (expect : nat) (w w' : W) :
  Web.attempt req expect w = (Ok out, w') ->
  Web._txn (S n) req expect w = (Ok out, w').
Proof.
  intros Ha. unfold Web._txn. cbn [for_range].
  unfold bind at 1, try_except, bind, ret. by rewrite Ha.
Qed.

Lemma live_attempt_write_req (idx : Z) (cut : nat) (ls : list Live.link) (w : Live.world) :
  0 <= idx < 256 ->
  Live.links w = Live.Up cut :: ls -> ~ (0 < cut < FRAME_SIZE)%nat ->
  exists w', Web.attempt (frame 0x50 idx 0) 8 w = (Ok (frame 0x51 idx 0), w') /\
    Live.links w' = ls /\ Live.table w' = Live.table w.
Proof.
  intros Hi Hl Hcut.
  destruct (frame_fields 0x50 idx 0) as (Hl50 & Hbb50 & _); [lia..|].
  destruct (pack_frame 0x51 idx 0) as [_ Hl51]; [lia..|].
  destruct (live_attempt_up (frame 0x50 idx 0) cut ls w Hl) as [_ Hsome].
  rewrite live_pieces_whole in Hsome by done.
  unfold Live.feed in Hsome. cbn [fresh AsyncServer.writer_closed] in Hsome.
  rewrite process_single in Hsome by done.
  rewrite (async_dispatch_write_req _ idx) in Hsome by done.
  cbn [AsyncServer.var_table AsyncServer.table_log AsyncServer.written
       AsyncServer.in_clients AsyncServer.writer_closed] in Hsome.
  rewrite app_nil_l in Hsome. eexists. split; [by apply Hsome|]. done.
Qed.

Lemma live_attempt_write_data_whole (idx val : Z) (cut : nat) (ls : list Live.link)
    (w : Live.world) :
  table_ok (Live.table w) -> 0 <= idx < _size (Live.table w) -> idx < 256 ->
  0 <= val < 2 ^ 32 ->
  Live.links w = Live.Up cut :: ls -> ~ (0 < cut < FRAME_SIZE)%nat ->
  exists w', Web.attempt (frame 0x52 idx val) 8 w = (Ok (frame 0x53 idx 0), w') /\
    Live.links w' = ls /\
    _vals (Live.table w') = <[Z.to_nat idx:=val]> (_vals (Live.table w)) /\
    _size (Live.table w') = _size (Live.table w).
Proof.
  intros Hok Hr Hi Hv Hl Hcut.
  destruct (frame_fields 0x52 idx val) as (Hl52 & Hbb & Hbbhi & _); [lia..|].
  destruct (pack_frame 0x53 idx 0) as [_ Hl53]; [lia..|].
  destruct (live_attempt_up (frame 0x52 idx val) cut ls w Hl) as [_ Hsome].
  rewrite live_pieces_whole in Hsome by done.
  unfold Live.feed in Hsome. cbn [fresh AsyncServer.writer_closed] in Hsome.
  rewrite process_single in Hsome by done.
  rewrite (async_dispatch_write_data _ idx val 0) in Hsome by done.
  cbn [fresh AsyncServer.var_table] in Hsome.
  destruct (set_in_range (AsyncServer.var_table (Live.srv w)) idx val Hok Hr)
    as (t' & tr & Hrun & Hvals & Hsz).
  rewrite Hrun in Hsome.
  cbn [AsyncServer.var_table AsyncServer.table_log AsyncServer.written
       AsyncServer.in_clients AsyncServer.writer_closed] in Hsome.
  rewrite app_nil_l in Hsome. eexists. split; [by apply Hsome|]. done.
Qed.

(** [write_var] over two links that are up and deliver whole: the first
    pass succeeds, and the table differs in register [idx] only. *)
Lemma live_write_var_whole (n : nat) (idx val : Z) (c1 c2 : nat) (ls : list Live.link)
    (w : Live.world) :
  table_ok (Live.table w) -> 0 <= idx < _size (Live.table w) -> idx < 256 ->
  0 <= val < 2 ^ 32 ->
  Live.links w = Live.Up c1 :: Live.Up c2 :: ls ->
  ~ (0 < c1 < FRAME_SIZE)%nat -> ~ (0 < c2 < FRAME_SIZE)%nat ->
  exists w', Web.write_var (S n) idx val w = (Ok true, w') /\
    Live.links w' = ls /\
    _vals (Live.table w') = <[Z.to_nat idx:=val]> (_vals (Live.table w)) /\
    _size (Live.table w') = _size (Live.table w).
Proof.
  intros Hok Hr Hi Hv Hl Hc1 Hc2.
  destruct (live_attempt_write_req idx c1 (Live.Up c2 :: ls) w) as (w1 & Ha1 & Hl1 & Ht1);
    [lia|done|done|].
  destruct (live_attempt_write_data_whole idx val c2 ls w1) as (w2 & Ha2 & Hl2 & Hv2 & Hs2);
    [by rewrite Ht1|by rewrite Ht1|done|done|done|done|].
  apply (web_txn_first n) in Ha1, Ha2.
  destruct (frame_fields 0x51 idx 0) as (_ & _ & _ & _ & Hr51); [lia..|].
  destruct (frame_fields 0x53 idx 0) as (_ & _ & _ & _ & Hr53); [lia..|].
  destruct (web_write_round_eq (S n) live_net_returns idx val w) as (rsp & w1' & Ht & Hrest);
    [lia|done|].
  rewrite Ha1 in Ht. injection Ht as <- <-. rewrite Hr51 in Hrest.
  destruct Hrest as (wrsp & w2' & Ht & Hround).
  rewrite Ha2 in Ht. injection Ht as <- <-. rewrite Hr53 in Hround.
  exists w2. split.
  - unfold Web.write_var. cbn [for_range]. unfold bind at 1. by rewrite Hround.
  - rewrite Hv2, Hs2, Ht1. done.
Qed.

(** [write_var] with a value that does not fit 32 bits, over a link that
    is up: WRITE_REQ is exchanged, then [struct.pack] raises. *)
Lemma live_write_var_bad_value (n : nat) (idx val : Z) (cut : nat) (ls : list Live.link)
    (w : Live.world) :
  0 <= idx < 256 -> ~ (0 <= val < 2 ^ 32) ->
  Live.links w = Live.Up cut :: ls -> ~ (0 < cut < FRAME_SIZE)%nat ->
  exists w', Web.write_var (S n) idx val w = (Raise StructError, w') /\
    Live.links w' = ls /\ Live.table w' = Live.table w.
Proof.
  intros Hi Hv Hl Hcut.
  destruct (live_attempt_write_req idx cut ls w) as (w1 & Ha1 & Hl1 & Ht1); [done..|].
  apply (web_txn_first n) in Ha1.
  destruct (pack_frame 0x50 idx 0) as [Hp50 _]; [lia..|].
  destruct (frame_fields 0x51 idx 0) as (_ & _ & _ & _ & Hr51); [lia..|].
  exists w1. split; [|done].
  unfold Web.write_var. cbn [for_range].
  remember (for_range n (Web.write_round (S n) idx val) (ret false)) as rest.
  unfold bind at 1, Web.write_round, bind at 1, lift_result. rewrite Hp50.
  unfold bind at 1. rewrite Ha1. unfold bind at 1. rewrite web_reply_is, Hr51.
  cbn [negb]. unfold bind at 1. rewrite pack_BBHI_out_of_range by tauto. done.
Qed.

Lemma live_read_var_delivers (idx v : Z) (cut : nat) (ls : list Live.link)
    (w : Live.world) :
  Live.links w = Live.Up cut :: ls -> ~ (0 < cut < FRAME_SIZE)%nat ->
  0 <= idx < 256 -> 0 <= v < 2 ^ 32 ->
  _vals (Live.table w) !! Z.to_nat idx = Some v ->
  exists w', Web.read_var idx w = (Ok v, w') /\ Live.table w' = Live.table w /\
             Live.links w' = ls.
Proof.
  intros Hl Hcut Hi Hv Hval.
  destruct (pack_frame 0x40 idx 0) as [Hp40 _]; [lia..|].
  destruct (pack_frame 0x41 idx v) as [Hp41 Hlen41]; [lia..|].
  destruct (pack_frame 0x42 idx 0) as [Hp42 _]; [lia..|].
  destruct (frame_fields 0x40 idx 0) as (Hl40 & Hbb40 & _); [lia..|].
  destruct (frame_fields 0x41 idx v) as (_ & _ & _ & Hu41 & _); [lia..|].
  destruct (frame_fields 0x42 idx 0) as (Hl42 & Hbb42 & _); [lia..|].
  assert (Hget : py_getitem (_vals (AsyncServer.var_table (Live.srv w))) idx = Ok v).
  { unfold py_getitem. rewrite py_index_in_range.
    - unfold Live.table in Hval. by rewrite Hval.
    - apply lookup_lt_Some in Hval. unfold Live.table in Hval. lia. }
  assert (Hne : frame 0x41 idx v <> []) by (by destruct (frame 0x41 idx v)).
  unfold Web.read_var, try_except, with_connection, try_finally, bind, lift_result, ret.
  live_ops. rewrite Hl. rewrite Hp40. live_ops.
  rewrite live_pieces_whole by done.
  unfold Live.feed at 1. cbn [fresh AsyncServer.writer_closed].
  rewrite process_single by done.
  rewrite (async_dispatch_read_req _ idx) by done.
  cbn [AsyncServer.var_table AsyncServer.table_log AsyncServer.written
       AsyncServer.in_clients AsyncServer.writer_closed].
  rewrite Hget, Hp41. rewrite app_nil_l.
  rewrite web_recv_exact_eq. cbn [length]. rewrite decide_True by lia.
  unfold bind. live_ops. cbn [AsyncServer.written]. rewrite drop_0.
  rewrite (decide_False (P:=frame 0x41 idx v = [])) by done.
  rewrite take_ge by lia.
  rewrite (decide_False (P:=frame 0x41 idx v = [])) by done.
  rewrite app_nil_l, web_recv_exact_eq. rewrite decide_False by lia.
  unfold ret. rewrite Hu41. cbn beta iota. change (65 =? 65) with true. cbn [negb].
  rewrite Hp42. live_ops.
  rewrite live_pieces_whole by done.
  unfold Live.feed at 1. cbn [AsyncServer.writer_closed].
  rewrite process_single by done.
  rewrite (dispatch_confirm _ idx) by done.
  cbn [AsyncServer.cleanup modify snd]. unfold Live.eof.
  cbn [AsyncServer.var_table AsyncServer.table_log AsyncServer.written
       AsyncServer.in_clients AsyncServer.writer_closed].
  eexists. split; [reflexivity|]. split; reflexivity.
Qed.

Lemma live_read_var_unreachable (idx : Z) (w : Live.world) :
  Live.links w = [] \/ (exists ls, Live.links w = Live.Down :: ls) ->
  exists w', Web.read_var idx w = (Ok (-1), w') /\ Live.table w' = Live.table w /\
             Live.links w' = tail (Live.links w).
Proof.
  intros Hl.
  unfold Web.read_var, try_except, with_connection, try_finally, bind, lift_result, ret.
  live_ops. destruct Hl as [Hl|[ls Hl]]; rewrite Hl; eexists; (split; [reflexivity|done]).
Qed.

Lemma live_txn_unreachable (n : nat) (req : bytes) (w : Live.world) :
  Live.links w = [] ->
  exists w', Web._txn n req 8 w = (Ok [], w') /\ Live.table w' = Live.table w /\
             Live.links w' = [].
Proof.
  unfold Web._txn. revert w. induction n as [|n IH]; intros w Hl; cbn [for_range].
  - by exists w.
  - destruct (IH (Live.mk (Live.srv w) [] None 0 (S (Live.dialled w))))
      as (w' & IH' & Ht & Hl'); [done|].
    remember (for_range n _ _) as rest.
    unfold bind at 1, try_except, bind, ret. rewrite live_attempt_down by auto.
    rewrite Hl. cbn [tail]. subst rest. rewrite IH'. by exists w'.
Qed.

Lemma live_write_var_unreachable (n : nat) (idx val : Z) (w : Live.world) :
  0 <= idx < 256 -> Live.links w = [] ->
  exists w', Web.write_var n idx val w = (Ok false, w') /\
    Live.table w' = Live.table w /\ Live.links w' = [].
Proof.
  intros Hi. unfold Web.write_var. generalize n at 1. intros k. revert w.
  destruct (pack_frame 0x50 idx 0) as [Hp50 _]; [lia..|].
  induction k as [|k IH]; intros w Hl; cbn [for_range].
  - by exists w.
  - remember (for_range k (Web.write_round n idx val) (ret false)) as rest.
    unfold bind at 1, Web.write_round, bind at 1, lift_result. rewrite Hp50.
    unfold bind at 1.
    destruct (live_txn_unreachable n (frame 0x50 idx 0) w Hl) as (w1 & -> & Ht1 & Hl1).
    unfold bind at 1. rewrite web_reply_is. cbn [reply_ok length bool_decide negb andb].
    change (reply_ok [] 81) with false. cbn [negb]. unfold ret at 1. subst rest.
    destruct (IH w1 Hl1) as (w' & -> & Ht & Hl'). exists w'. by rewrite Ht, Ht1.
Qed.
Lemma new_val_zero (action : string) (old : Z) :
  0 <= old -> WebMain.new_val action old 0 = old.
Proof. intros Ho. unfold WebMain.new_val. case_bool_decide; lia. Qed.

(** One product of an order, over links that deliver. *)
Lemma live_exec_product (n : nat) (order : WebMain.Order) (action : string)
    (results : list (WebMain.Product * WebMain.result_entry))
    (p : WebMain.Product) (reg old : Z) (w : Live.world) :
  let nv := WebMain.new_val action old (WebMain.quantity order p) in
  table_ok (Live.table w) -> 0 <= reg < _size (Live.table w) -> reg < 256 ->
  _vals (Live.table w) !! Z.to_nat reg = Some old -> 0 <= old < 2 ^ 32 ->
  0 <= WebMain.quantity order p -> 0 <= nv < 2 ^ 32 ->
  Forall delivers (Live.links w) -> (3 <= length (Live.links w))%nat ->
  exists results' w',
    WebMain.exec_product (S n) order action results (p, reg) w = (Ok results', w') /\
    _vals (Live.table w') = <[Z.to_nat reg:=nv]> (_vals (Live.table w)) /\
    _size (Live.table w') = _size (Live.table w) /\
    exists k, (k <= 3)%nat /\ Live.links w' = drop k (Live.links w).
Proof.
  intros nv Hok Hr Hi Hold Ho Hq Hnv Hls Hlen. unfold WebMain.exec_product.
  destruct (WebMain.quantity order p <=? 0) eqn:Hq0.
  - apply Z.leb_le in Hq0. assert (Hz : WebMain.quantity order p = 0) by lia.
    exists results, w. split; [done|]. split.
    + subst nv. rewrite Hz, new_val_zero by lia. by rewrite list_insert_id.
    + split; [done|]. exists 0%nat. split; [lia|by rewrite drop_0].
  - destruct (Live.links w) as [|[|c0] [|[|c1] [|[|c2] ls]]] eqn:Hl; cbn [length] in Hlen;
      try lia;
      repeat match goal with
             | H : Forall _ (_ :: _) |- _ => apply Forall_cons in H; destruct H as [? H]
             end;
      try done.
    destruct (live_read_var_delivers reg old c0 (Live.Up c1 :: Live.Up c2 :: ls) w)
      as (w1 & Hread & Ht1 & Hl1); [done|done|lia|done|done|].
    destruct (live_write_var_whole n reg nv c1 c2 ls w1)
      as (w2 & Hwrite & Hl2 & Hv2 & Hs2);
      [by rewrite Ht1|by rewrite Ht1|done|done|done|done|done|].
    unfold bind at 1. rewrite Hread. unfold bind at 1. fold nv. rewrite Hwrite.
    eexists _, w2. split; [reflexivity|]. rewrite Hv2, Hs2, Ht1.
    split; [done|]. split; [done|]. exists 3%nat. split; [lia|done].
Qed.

Lemma live_exec_products (n : nat) (order : WebMain.Order) (action : string)
    (o16 o17 o18 : Z) (w : Live.world) :
  let n16 := WebMain.new_val action o16 (WebMain.quantity_a order) in
  let n17 := WebMain.new_val action o17 (WebMain.quantity_b order) in
  let n18 := WebMain.new_val action o18 (WebMain.quantity_c order) in
  table_ok (Live.table w) -> 19 <= _size (Live.table w) ->
  _vals (Live.table w) !! 16%nat = Some o16 ->
  _vals (Live.table w) !! 17%nat = Some o17 ->
  _vals (Live.table w) !! 18%nat = Some o18 ->
  0 <= o16 < 2 ^ 32 -> 0 <= o17 < 2 ^ 32 -> 0 <= o18 < 2 ^ 32 ->
  0 <= WebMain.quantity_a order -> 0 <= WebMain.quantity_b order ->
  0 <= WebMain.quantity_c order ->
  0 <= n16 < 2 ^ 32 -> 0 <= n17 < 2 ^ 32 -> 0 <= n18 < 2 ^ 32 ->
  Forall delivers (Live.links w) -> (9 <= length (Live.links w))%nat ->
  exists results w',
    WebMain.exec_products (S n) order action [] WebMain.EXEC_REG_MAP w = (Ok results, w') /\
    _vals (Live.table w') =
    <[18%nat:=n18]> (<[17%nat:=n17]> (<[16%nat:=n16]> (_vals (Live.table w)))).
Proof.
  intros n16 n17 n18 Hok Hsz H16 H17 H18 Ho16 Ho17 Ho18 Hqa Hqb Hqc Hn16 Hn17 Hn18 Hls Hlen.
  unfold WebMain.EXEC_REG_MAP. cbn [WebMain.exec_products].
  assert (Hr16 : 0 <= 16 < _size (Live.table w)) by lia.
  assert (Hlen1 : (3 <= length (Live.links w))%nat) by lia.
  destruct (live_exec_product n order action [] WebMain.A 16 o16 w
              Hok Hr16 eq_refl H16 Ho16 Hqa Hn16 Hls Hlen1)
    as (r1 & w1 & He1 & Hv1 & Hs1 & k1 & Hk1 & Hl1).
  assert (Hok1 : table_ok (Live.table w1)).
  { unfold table_ok in *. rewrite Hv1, Hs1, length_insert. done. }
  assert (Hr17 : 0 <= 17 < _size (Live.table w1)) by lia.
  assert (H17' : _vals (Live.table w1) !! Z.to_nat 17 = Some o17).
  { rewrite Hv1. rewrite list_lookup_insert_ne by done. exact H17. }
  assert (Hls1 : Forall delivers (Live.links w1)).
  { rewrite Hl1. by apply Forall_drop. }
  assert (Hlen2 : (3 <= length (Live.links w1))%nat).
  { rewrite Hl1, length_drop. lia. }
  destruct (live_exec_product n order action r1 WebMain.B 17 o17 w1
              Hok1 Hr17 eq_refl H17' Ho17 Hqb Hn17 Hls1 Hlen2)
    as (r2 & w2 & He2 & Hv2 & Hs2 & k2 & Hk2 & Hl2).
  assert (Hok2 : table_ok (Live.table w2)).
  { unfold table_ok in *. rewrite Hv2, Hs2, length_insert. done. }
  assert (Hr18 : 0 <= 18 < _size (Live.table w2)) by lia.
  assert (H18' : _vals (Live.table w2) !! Z.to_nat 18 = Some o18).
  { rewrite Hv2, list_lookup_insert_ne by done.
    rewrite Hv1, list_lookup_insert_ne by done. exact H18. }
  assert (Hls2 : Forall delivers (Live.links w2)).
  { rewrite Hl2. by apply Forall_drop. }
  assert (Hlen3 : (3 <= length (Live.links w2))%nat).
  { rewrite Hl2, Hl1, !length_drop. lia. }
  destruct (live_exec_product n order action r2 WebMain.C 18 o18 w2
              Hok2 Hr18 eq_refl H18' Ho18 Hqc Hn18 Hls2 Hlen3)
    as (r3 & w3 & He3 & Hv3 & Hs3 & k3 & Hk3 & Hl3).
  exists r3, w3. split.
  - unfold bind at 1. rewrite He1. unfold bind at 1. rewrite He2.
    unfold bind at 1. rewrite He3. done.
  - rewrite Hv3, Hv2, Hv1. done.
Qed.

Lemma find_order_assign_status (order_id st : string) (os : list WebMain.Order)
    (order : WebMain.Order) :
  WebMain.find_order order_id os = Some order ->
  WebMain.find_order order_id (WebMain.assign_status order_id st os) =
  Some (WebMain.with_status st order).
Proof.
  unfold WebMain.find_order. induction os as [|o os IH]; [done|].
  cbn [find WebMain.assign_status]. case_bool_decide as Hid.
  - intros [= <-]. cbn [find WebMain.with_status WebMain.id].
    by rewrite bool_decide_eq_true_2.
  - intros Hf. cbn [find]. rewrite bool_decide_eq_false_2 by done. by apply IH.
Qed.

(** What [exec_order] does once its checks have passed. *)
Lemma exec_order_passed {W} `{Net W} (n : nat) (order_id action : string)
    (order : WebMain.Order) (s : WebMain.state (W:=W)) :
  WebMain.find_order order_id (WebMain.orders s) = Some order ->
  (action = "produce"%string -> WebMain.status order = "pending"%string) ->
  (action = "return"%string -> WebMain.status order = "executed"%string) ->
  WebMain.total_quantity order <> 0 ->
  WebMain.exec_order n order_id action s =
  match WebMain.exec_products n order action [] WebMain.EXEC_REG_MAP (WebMain.world s) with
  | (Ok results, w') =>
      let os := if bool_decide (action = "produce"%string) then
                  WebMain.assign_status order_id "executed" (WebMain.orders s)
                else if bool_decide (action = "return"%string) then
                  WebMain.assign_status order_id "returned" (WebMain.orders s)
                else WebMain.orders s in
      (Ok (WebMain.Response (action, results)), WebMain.mkState w' os (Some os))
  | (Raise e, w') => (Raise e, WebMain.mkState w' (WebMain.orders s) (WebMain.ORDER_FILE s))
  | (Stuck, w') => (Stuck, WebMain.mkState w' (WebMain.orders s) (WebMain.ORDER_FILE s))
  end.
Proof.
  intros Hf Hp Hr Ht. unfold WebMain.exec_order, WebMain.list_orders.
  unfold bind at 1. rewrite Hf.
  assert (E1 : bool_decide (action = "produce"%string) &&
               negb (bool_decide (WebMain.status order = "pending"%string)) = false).
  { destruct (decide (action = "produce"%string)) as [Ha|Ha].
    - by rewrite (bool_decide_eq_true_2 _ (Hp Ha)), andb_false_r.
    - by rewrite (bool_decide_eq_false_2 _ Ha). }
  assert (E2 : bool_decide (action = "return"%string) &&
               negb (bool_decide (WebMain.status order = "executed"%string)) = false).
  { destruct (decide (action = "return"%string)) as [Ha|Ha].
    - by rewrite (bool_decide_eq_true_2 _ (Hr Ha)), andb_false_r.
    - by rewrite (bool_decide_eq_false_2 _ Ha). }
  rewrite E1, E2. apply Z.eqb_neq in Ht. rewrite Ht.
  unfold bind at 1, WebMain.comm.
  destruct (WebMain.exec_products n order action [] WebMain.EXEC_REG_MAP (WebMain.world s))
    as [[results|e|] w']; [|done..].
  unfold bind, WebMain._save_orders, modify, ret.
  repeat case_bool_decide; reflexivity.
Qed.
(** web/main.py, [exec_order] against server/main.py over links that
    deliver: once the status checks have passed, registers 16, 17 and
    18 end as [old + quantity] for action "produce" and as
    [max(0, old - quantity)] for every other action, no other register
    changes, and the response is ok.  The status becomes "executed"
    after "produce" and "returned" after "return"; an action that is
    neither passes both status checks, is applied to the registers as a
    return, and leaves the status as it was.  The orders are saved. *)
Theorem exec_order_updates_registers (RETRY_MAX : nat) (order_id action : string)
    (order : WebMain.Order) (o16 o17 o18 : Z) (s : WebMain.state (W:=Live.world)) :
  let t := Live.table (WebMain.world s) in
  let n16 := WebMain.new_val action o16 (WebMain.quantity_a order) in
  let n17 := WebMain.new_val action o17 (WebMain.quantity_b order) in
  let n18 := WebMain.new_val action o18 (WebMain.quantity_c order) in
  (1 <= RETRY_MAX)%nat ->
  WebMain.find_order order_id (WebMain.orders s) = Some order ->
  (action = "produce"%string -> WebMain.status order = "pending"%string) ->
  (action = "return"%string -> WebMain.status order = "executed"%string) ->
  0 <= WebMain.quantity_a order -> 0 <= WebMain.quantity_b order ->
  0 <= WebMain.quantity_c order -> WebMain.total_quantity order <> 0 ->
  table_ok t -> 19 <= _size t ->
  _vals t !! 16%nat = Some o16 -> _vals t !! 17%nat = Some o17 ->
  _vals t !! 18%nat = Some o18 ->
  0 <= o16 < 2 ^ 32 -> 0 <= o17 < 2 ^ 32 -> 0 <= o18 < 2 ^ 32 ->
  0 <= n16 < 2 ^ 32 -> 0 <= n17 < 2 ^ 32 -> 0 <= n18 < 2 ^ 32 ->
  Forall delivers (Live.links (WebMain.world s)) ->
  (9 <= length (Live.links (WebMain.world s)))%nat ->
  exists results s',
    WebMain.exec_order RETRY_MAX order_id action s =
    (Ok (WebMain.Response (action, results)), s') /\
    _vals (Live.table (WebMain.world s')) =
    <[18%nat:=n18]> (<[17%nat:=n17]> (<[16%nat:=n16]> (_vals t))) /\
    WebMain.orders s' =
    (if bool_decide (action = "produce"%string) then
       WebMain.assign_status order_id "executed" (WebMain.orders s)
     else if bool_decide (action = "return"%string) then
       WebMain.assign_status order_id "returned" (WebMain.orders s)
     else WebMain.orders s) /\
    WebMain.ORDER_FILE s' = Some (WebMain.orders s').
Proof.
  intros t n16 n17 n18 Hn Hf Hp Hr Hqa Hqb Hqc Htot Hok Hsz H16 H17 H18 Ho16 Ho17 Ho18
    Hn16 Hn17 Hn18 Hls Hlen.
  destruct RETRY_MAX as [|n]; [lia|].
  rewrite (exec_order_passed (S n) order_id action order s Hf Hp Hr Htot).
  destruct (live_exec_products n order action o16 o17 o18 (WebMain.world s)
              Hok Hsz H16 H17 H18 Ho16 Ho17 Ho18 Hqa Hqb Hqc Hn16 Hn17 Hn18 Hls Hlen)
    as (results & w' & -> & Hv).
  eexists results, _. split; [reflexivity|]. cbn [WebMain.world WebMain.orders
    WebMain.ORDER_FILE]. done.
Qed.

Lemma exec_order_updates_registers_witness :
  let order := WebMain.mkOrder "a1b2c3d4" 3 0 2 "normal" "2025-06-01" "ACME" "pending"
                 "2025-05-20T08:00:00" in
  let s := WebMain.mkState
             (Live.start (VarTableM.init 100) (replicate 9 (Live.Up 0))) [order] None in
  exists results s',
    WebMain.exec_order 5 "a1b2c3d4" "produce" s =
    (Ok (WebMain.Response ("produce"%string, results)), s') /\
    _vals (Live.table (WebMain.world s')) =
    <[18%nat:=2]> (<[17%nat:=0]> (<[16%nat:=3]> (replicate 100 0))) /\
    WebMain.orders s' = [WebMain.with_status "executed" order] /\
    WebMain.ORDER_FILE s' = Some (WebMain.orders s').
Proof.
  intros order s.
  apply (exec_order_updates_registers 5 "a1b2c3d4" "produce" order 0 0 0 s).
  - lia.
  - reflexivity.
  - intros _. reflexivity.
  - intros Ha. discriminate Ha.
  - simpl. lia.
  - simpl. lia.
  - simpl. lia.
  - vm_compute. discriminate.
  - apply table_ok_init.
  - simpl. lia.
  - reflexivity.
  - reflexivity.
  - reflexivity.
  - lia.
  - lia.
  - lia.
  - change (0 <= 3 < 2 ^ 32). lia.
  - change (0 <= 0 < 2 ^ 32). lia.
  - change (0 <= 2 < 2 ^ 32). lia.
  - repeat constructor; simpl; unfold FRAME_SIZE; lia.
  - simpl. lia.
Defined.

Lemma exec_order_response {W} `{Net W} (n : nat) (order_id action : string)
    (body : string * list (WebMain.Product * WebMain.result_entry))
    (s s' : WebMain.state (W:=W)) :
  WebMain.exec_order n order_id action s = (Ok (WebMain.Response body), s') ->
  exists order,
    WebMain.find_order order_id (WebMain.orders s) = Some order /\
    (action = "produce"%string -> WebMain.status order = "pending"%string) /\
    (action = "return"%string -> WebMain.status order = "executed"%string) /\
    WebMain.total_quantity order <> 0.
Proof.
  unfold WebMain.exec_order, WebMain.list_orders. unfold bind at 1.
  destruct (WebMain.find_order order_id (WebMain.orders s)) as [order|]; [|discriminate].
  intros Hrun. exists order. split; [done|].
  destruct (decide (action = "produce"%string)) as [Ha|Ha];
    destruct (decide (WebMain.status order = "pending"%string)) as [Hs|Hs];
    destruct (decide (action = "return"%string)) as [Ha'|Ha'];
    destruct (decide (WebMain.status order = "executed"%string)) as [Hs'|Hs'];
    rewrite ?(bool_decide_eq_true_2 _ Ha), ?(bool_decide_eq_false_2 _ Ha),
      ?(bool_decide_eq_true_2 _ Hs), ?(bool_decide_eq_false_2 _ Hs),
      ?(bool_decide_eq_true_2 _ Ha'), ?(bool_decide_eq_false_2 _ Ha'),
      ?(bool_decide_eq_true_2 _ Hs'), ?(bool_decide_eq_false_2 _ Hs') in Hrun;
    cbn [andb negb] in Hrun; try discriminate;
    (destruct (WebMain.total_quantity order =? 0) eqn:Ht; [discriminate|];
     apply Z.eqb_neq in Ht; repeat split; (done || congruence)).
Qed.

(** web/main.py, [exec_order]: a request that is answered with an HTTP
    error (404 unknown order, 409 wrong status, 400 empty order) has
    done nothing: no socket call, no change of the orders, nothing
    saved. *)
Theorem exec_order_rejects_before_io {W} `{Net W} (RETRY_MAX : nat)
    (order_id action : string) (code : Z) (s s' : WebMain.state (W:=W)) :
  WebMain.exec_order RETRY_MAX order_id action s = (Ok (WebMain.HTTPException code), s') ->
  s' = s /\ (code = 404 \/ code = 409 \/ code = 400).
Proof.
  unfold WebMain.exec_order, WebMain.list_orders. unfold bind at 1.
  destruct (WebMain.find_order order_id (WebMain.orders s)) as [order|].
  - destruct (_ && _); [intros [= <- <-]; auto|].
    destruct (_ && _); [intros [= <- <-]; auto|].
    destruct (_ =? 0); [intros [= <- <-]; auto|].
    unfold bind at 1, WebMain.comm.
    destruct (WebMain.exec_products _ _ _ _ _ _) as [[results|e|] w']; [|discriminate..].
    unfold bind, WebMain._save_orders, modify, ret.
    repeat case_bool_decide; discriminate.
  - intros [= <- <-]. auto.
Qed.

Lemma exec_order_rejects_before_io_witness :
  let s := WebMain.mkState (Scripted.start []) [] None in
  WebMain.exec_order 5 "a1b2c3d4" "produce" s = (Ok (WebMain.HTTPException 404), s) /\
  (s = s /\ (404 = 404 \/ 404 = 409 \/ 404 = 400)).
Proof.
  intros s. split; [reflexivity|].
  apply (exec_order_rejects_before_io 5 "a1b2c3d4" "produce" 404 s s). reflexivity.
Defined.
(** web/main.py, [exec_order] and [delete_order]: what the status
    checks lock, and what they do not.  After a "produce" or a "return"
    that was answered ok, a further "produce", a repetition of the same
    action and a [delete_order] without [force] are each answered 409
    and change nothing.  An action that is neither "produce" nor
    "return" is not locked: answered ok, it has left the orders (and so
    the status) as they were, and the same request is never answered
    with an HTTP error afterwards, so the return it applies to the
    registers can be repeated any number of times. *)
Theorem exec_order_status_gate {W} `{Net W} (RETRY_MAX : nat) (order_id action : string)
    (body : string * list (WebMain.Product * WebMain.result_entry))
    (s s' : WebMain.state (W:=W)) :
  WebMain.exec_order RETRY_MAX order_id action s = (Ok (WebMain.Response body), s') ->
  (action = "produce"%string \/ action = "return"%string ->
   WebMain.exec_order RETRY_MAX order_id "produce" s' =
   (Ok (WebMain.HTTPException 409), s') /\
   WebMain.exec_order RETRY_MAX order_id action s' =
   (Ok (WebMain.HTTPException 409), s') /\
   WebMain.delete_order order_id false s' = (Ok (WebMain.HTTPException 409), s')) /\
  (action <> "produce"%string -> action <> "return"%string ->
   WebMain.orders s' = WebMain.orders s /\
   forall code s'',
     WebMain.exec_order RETRY_MAX order_id action s' <>
     (Ok (WebMain.HTTPException code), s'')).
Proof.
  intros Hrun.
  destruct (exec_order_response RETRY_MAX order_id action body s s' Hrun)
    as (order & Hf & Hp & Hr & Htot).
  rewrite (exec_order_passed RETRY_MAX order_id action order s Hf Hp Hr Htot) in Hrun.
  destruct (WebMain.exec_products _ _ _ _ _ _) as [[results|e|] w']; [|discriminate..].
  cbn zeta in Hrun. injection Hrun as _ <-. split.
  - intros Hact.
    assert (exists st, st <> "pending"%string /\
              (action = "return"%string -> st <> "executed"%string) /\
              WebMain.find_order order_id (WebMain.orders
                (WebMain.mkState w'
                   (if bool_decide (action = "produce"%string) then
                      WebMain.assign_status order_id "executed" (WebMain.orders s)
                    else if bool_decide (action = "return"%string) then
                      WebMain.assign_status order_id "returned" (WebMain.orders s)
                    else WebMain.orders s)
                   (Some (if bool_decide (action = "produce"%string) then
                      WebMain.assign_status order_id "executed" (WebMain.orders s)
                    else if bool_decide (action = "return"%string) then
                      WebMain.assign_status order_id "returned" (WebMain.orders s)
                    else WebMain.orders s)))) = Some (WebMain.with_status st order))
      as (st & Hst & Hst' & Hf').
    { cbn [WebMain.orders]. destruct Hact as [->| ->].
      - exists "executed"%string. rewrite bool_decide_eq_true_2 by done.
        split; [done|]. split; [done|]. by apply find_order_assign_status.
      - exists "returned"%string. rewrite bool_decide_eq_false_2 by done.
        rewrite bool_decide_eq_true_2 by done.
        split; [done|]. split; [done|]. by apply find_order_assign_status. }
    set (s1 := WebMain.mkState _ _ _) in *. clearbody s1.
    assert (Hprod : WebMain.exec_order RETRY_MAX order_id "produce" s1 =
                    (Ok (WebMain.HTTPException 409), s1)).
    { unfold WebMain.exec_order, WebMain.list_orders. unfold bind at 1. rewrite Hf'.
      cbn [WebMain.status WebMain.with_status].
      rewrite (bool_decide_eq_true_2 ("produce"%string = "produce"%string)) by done.
      by rewrite (bool_decide_eq_false_2 _ Hst). }
    split; [done|]. split.
    + destruct Hact as [->| ->]; [done|].
      unfold WebMain.exec_order, WebMain.list_orders. unfold bind at 1. rewrite Hf'.
      cbn [WebMain.status WebMain.with_status].
      rewrite (bool_decide_eq_false_2 ("return"%string = "produce"%string)) by done.
      rewrite (bool_decide_eq_true_2 ("return"%string = "return"%string)) by done.
      by rewrite (bool_decide_eq_false_2 _ (Hst' eq_refl)).
    + unfold WebMain.delete_order, WebMain.list_orders. unfold bind at 1. rewrite Hf'.
      cbn [WebMain.status WebMain.with_status].
      by rewrite (bool_decide_eq_false_2 _ Hst).
  - intros Hnp Hnr.
    rewrite (bool_decide_eq_false_2 _ Hnp), (bool_decide_eq_false_2 _ Hnr).
    cbn [WebMain.orders]. split; [done|]. intros code s''.
    rewrite (exec_order_passed RETRY_MAX order_id action order
               (WebMain.mkState w' (WebMain.orders s) (Some (WebMain.orders s)))
               Hf Hp Hr Htot).
    destruct (WebMain.exec_products _ _ _ _ _ _) as [[results'|e|] w'']; discriminate.
Qed.

Lemma exec_order_status_gate_witness :
  let order := WebMain.mkOrder "a1b2c3d4" 3 0 2 "normal" "2025-06-01" "ACME" "pending"
                 "2025-05-20T08:00:00" in
  let s := WebMain.mkState (Scripted.start []) [order] None in
  let produced := (WebMain.exec_order 2 "a1b2c3d4" "produce" s).2 in
  let scrapped := (WebMain.exec_order 2 "a1b2c3d4" "scrap" s).2 in
  (WebMain.exec_order 2 "a1b2c3d4" "produce" produced =
   (Ok (WebMain.HTTPException 409), produced) /\
   WebMain.exec_order 2 "a1b2c3d4" "produce" produced =
   (Ok (WebMain.HTTPException 409), produced) /\
   WebMain.delete_order "a1b2c3d4" false produced =
   (Ok (WebMain.HTTPException 409), produced)) /\
  (WebMain.orders scrapped = [order] /\
   forall code s'',
     WebMain.exec_order 2 "a1b2c3d4" "scrap" scrapped <>
     (Ok (WebMain.HTTPException code), s'')).
Proof.
  intros order s produced scrapped. split.
  - apply (exec_order_status_gate 2 "a1b2c3d4" "produce"
             ("produce"%string,
              [(WebMain.A, WebMain.mkEntry 16 (-1) 2 3);
               (WebMain.C, WebMain.mkEntry 18 (-1) 1 2)]) s produced).
    + vm_compute. reflexivity.
    + left. reflexivity.
  - apply (exec_order_status_gate 2 "a1b2c3d4" "scrap"
             ("scrap"%string,
              [(WebMain.A, WebMain.mkEntry 16 (-1) 0 3);
               (WebMain.C, WebMain.mkEntry 18 (-1) 0 2)]) s scrapped).
    + vm_compute. reflexivity.
    + intros Ha. discriminate Ha.
    + intros Ha. discriminate Ha.
Defined.

Lemma live_exec_product_unreachable (n : nat) (order : WebMain.Order) (action : string)
    (results : list (WebMain.Product * WebMain.result_entry))
    (p : WebMain.Product) (reg : Z) (w : Live.world) :
  let q := WebMain.quantity order p in
  0 <= reg < 256 -> Live.links w = [] ->
  exists w',
    WebMain.exec_product n order action results (p, reg) w =
    (Ok (results ++
         if q <=? 0 then []
         else [(p, WebMain.mkEntry reg (-1) (WebMain.new_val action (-1) q) q)]), w') /\
    Live.table w' = Live.table w /\ Live.links w' = [].
Proof.
  intros q Hi Hl. unfold WebMain.exec_product. fold q. destruct (q <=? 0).
  - exists w. by rewrite app_nil_r.
  - destruct (live_read_var_unreachable reg w) as (w1 & Hread & Ht1 & Hl1); [auto|].
    rewrite Hl in Hl1. cbn [tail] in Hl1.
    destruct (live_write_var_unreachable n reg (WebMain.new_val action (-1) q) w1 Hi Hl1)
      as (w2 & Hwrite & Ht2 & Hl2).
    unfold bind at 1. rewrite Hread. unfold bind at 1. rewrite Hwrite.
    exists w2. split; [done|]. by rewrite Ht2, Ht1.
Qed.

(** web/main.py, [exec_order] with the register server unreachable:
    every [read_var] gives -1 and every [write_var] gives up, neither is
    checked, so the request is answered ok, the order is marked
    executed (or returned) and saved, and no register has changed.  The
    response reports -1 as the old value and what was computed from
    it as the new one. *)
Theorem exec_order_server_unreachable (RETRY_MAX : nat) (order_id action : string)
    (order : WebMain.Order) (s : WebMain.state (W:=Live.world)) :
  WebMain.find_order order_id (WebMain.orders s) = Some order ->
  (action = "produce"%string -> WebMain.status order = "pending"%string) ->
  (action = "return"%string -> WebMain.status order = "executed"%string) ->
  WebMain.total_quantity order <> 0 ->
  Live.links (WebMain.world s) = [] ->
  exists s',
    WebMain.exec_order RETRY_MAX order_id action s =
    (Ok (WebMain.Response
           (action,
            omap (fun item : WebMain.Product * Z =>
                    let q := WebMain.quantity order item.1 in
                    if q <=? 0 then None
                    else Some (item.1, WebMain.mkEntry item.2 (-1)
                                         (WebMain.new_val action (-1) q) q))
                 WebMain.EXEC_REG_MAP)), s') /\
    Live.table (WebMain.world s') = Live.table (WebMain.world s) /\
    WebMain.orders s' =
    (if bool_decide (action = "produce"%string) then
       WebMain.assign_status order_id "executed" (WebMain.orders s)
     else if bool_decide (action = "return"%string) then
       WebMain.assign_status order_id "returned" (WebMain.orders s)
     else WebMain.orders s) /\
    WebMain.ORDER_FILE s' = Some (WebMain.orders s').
Proof.
  intros Hf Hp Hr Htot Hl.
  rewrite (exec_order_passed RETRY_MAX order_id action order s Hf Hp Hr Htot).
  unfold WebMain.EXEC_REG_MAP. cbn [WebMain.exec_products omap list_omap fst snd].
  destruct (live_exec_product_unreachable RETRY_MAX order action [] WebMain.A 16
              (WebMain.world s)) as (w1 & He1 & Ht1 & Hl1); [lia|done|].
  destruct (live_exec_product_unreachable RETRY_MAX order action
              ([] ++ if WebMain.quantity order WebMain.A <=? 0 then []
                     else [(WebMain.A, WebMain.mkEntry 16 (-1)
                              (WebMain.new_val action (-1) (WebMain.quantity order WebMain.A))
                              (WebMain.quantity order WebMain.A))])
              WebMain.B 17 w1) as (w2 & He2 & Ht2 & Hl2); [lia|done|].
  destruct (live_exec_product_unreachable RETRY_MAX order action
              (([] ++ if WebMain.quantity order WebMain.A <=? 0 then []
                      else [(WebMain.A, WebMain.mkEntry 16 (-1)
                               (WebMain.new_val action (-1) (WebMain.quantity order WebMain.A))
                               (WebMain.quantity order WebMain.A))]) ++
               if WebMain.quantity order WebMain.B <=? 0 then []
               else [(WebMain.B, WebMain.mkEntry 17 (-1)
                        (WebMain.new_val action (-1) (WebMain.quantity order WebMain.B))
                        (WebMain.quantity order WebMain.B))])
              WebMain.C 18 w2) as (w3 & He3 & Ht3 & Hl3); [lia|done|].
  unfold bind at 1. rewrite He1. unfold bind at 1. rewrite He2.
  unfold bind at 1. rewrite He3. unfold ret. cbn zeta.
  eexists. split.
  - f_equal. f_equal. f_equal. f_equal. rewrite app_nil_l.
    destruct (WebMain.quantity order WebMain.A <=? 0),
      (WebMain.quantity order WebMain.B <=? 0),
      (WebMain.quantity order WebMain.C <=? 0); reflexivity.
  - cbn [WebMain.world WebMain.orders WebMain.ORDER_FILE]. by rewrite Ht3, Ht2, Ht1.
Qed.

Lemma exec_order_server_unreachable_witness :
  let order := WebMain.mkOrder "a1b2c3d4" 3 0 2 "normal" "2025-06-01" "ACME" "pending"
                 "2025-05-20T08:00:00" in
  let s := WebMain.mkState (Live.start (VarTableM.init 100) []) [order] None in
  exists s',
    WebMain.exec_order 5 "a1b2c3d4" "produce" s =
    (Ok (WebMain.Response
           ("produce"%string,
            [(WebMain.A, WebMain.mkEntry 16 (-1) 2 3);
             (WebMain.C, WebMain.mkEntry 18 (-1) 1 2)])), s') /\
    Live.table (WebMain.world s') = VarTableM.init 100 /\
    WebMain.orders s' = [WebMain.with_status "executed" order] /\
    WebMain.ORDER_FILE s' = Some (WebMain.orders s').
Proof.
  intros order s.
  apply (exec_order_server_unreachable 5 "a1b2c3d4" "produce" order s).
  - reflexivity.
  - intros _. reflexivity.
  - intros Ha. discriminate Ha.
  - vm_compute. discriminate.
  - reflexivity.
Defined.

(** web/main.py, [exec_order] when the read fails and the write goes
    through: [read_var] returns -1 over a link that is down, the -1 is
    taken for the register's value, and the two links that follow carry
    the write.  For an order of product A alone, "produce" leaves
    register 16 at [quantity_a - 1], whatever it held before. *)
Theorem exec_order_after_failed_read (RETRY_MAX : nat) (order_id : string)
    (order : WebMain.Order) (c1 c2 : nat) (ls : list Live.link)
    (s : WebMain.state (W:=Live.world)) :
  let t := Live.table (WebMain.world s) in
  let qa := WebMain.quantity_a order in
  (1 <= RETRY_MAX)%nat ->
  WebMain.find_order order_id (WebMain.orders s) = Some order ->
  WebMain.status order = "pending"%string ->
  0 < qa <= 2 ^ 32 -> WebMain.quantity_b order = 0 -> WebMain.quantity_c order = 0 ->
  table_ok t -> 16 < _size t ->
  Live.links (WebMain.world s) = Live.Down :: Live.Up c1 :: Live.Up c2 :: ls ->
  ~ (0 < c1 < FRAME_SIZE)%nat -> ~ (0 < c2 < FRAME_SIZE)%nat ->
  exists s',
    WebMain.exec_order RETRY_MAX order_id "produce" s =
    (Ok (WebMain.Response
           ("produce"%string, [(WebMain.A, WebMain.mkEntry 16 (-1) (qa - 1) qa)])), s') /\
    _vals (Live.table (WebMain.world s')) = <[16%nat:=qa - 1]> (_vals t).
Proof.
  intros t qa Hn Hf Hst Hqa Hqb Hqc Hok Hsz Hl Hc1 Hc2.
  destruct RETRY_MAX as [|n]; [lia|].
  rewrite (exec_order_passed (S n) order_id "produce" order s Hf); [|done|done|].
  2:{ unfold WebMain.total_quantity. fold qa. lia. }
  unfold WebMain.EXEC_REG_MAP. cbn [WebMain.exec_products].
  assert (He : exists w',
             WebMain.exec_product (S n) order "produce" [] (WebMain.A, 16) (WebMain.world s) =
             (Ok [(WebMain.A, WebMain.mkEntry 16 (-1) (qa - 1) qa)], w') /\
             _vals (Live.table w') = <[16%nat:=qa - 1]> (_vals t)).
  { unfold WebMain.exec_product. cbn [WebMain.quantity]. fold qa.
    destruct (qa <=? 0) eqn:Hq0; [apply Z.leb_le in Hq0; lia|].
    destruct (live_read_var_unreachable 16 (WebMain.world s)) as (w1 & Hread & Ht1 & Hl1);
      [eauto|].
    rewrite Hl in Hl1. cbn [tail] in Hl1.
    assert (Hnv : WebMain.new_val "produce" (-1) qa = qa - 1).
    { unfold WebMain.new_val. rewrite bool_decide_eq_true_2 by done. lia. }
    destruct (live_write_var_whole n 16 (qa - 1) c1 c2 ls w1)
      as (w2 & Hwrite & Hl2 & Hv2 & Hs2);
      [by rewrite Ht1|rewrite Ht1; fold t; lia|lia|lia|done|done|done|].
    unfold bind at 1. rewrite Hread. unfold bind at 1. rewrite Hnv, Hwrite.
    exists w2. split; [done|]. rewrite Hv2, Ht1. done. }
  destruct He as (w1 & He & Hv1).
  unfold bind at 1. rewrite He.
  unfold bind at 1, WebMain.exec_product at 1. cbn [WebMain.quantity]. rewrite Hqb.
  cbn [Z.leb Z.compare]. unfold ret at 1.
  unfold bind at 1, WebMain.exec_product at 1. cbn [WebMain.quantity]. rewrite Hqc.
  cbn [Z.leb Z.compare]. unfold ret.
  cbn zeta. rewrite bool_decide_eq_true_2 by done.
  eexists. split; [reflexivity|]. cbn [WebMain.world]. done.
Qed.

Lemma exec_order_after_failed_read_witness :
  let order := WebMain.mkOrder "a1b2c3d4" 3 0 0 "normal" "2025-06-01" "ACME" "pending"
                 "2025-05-20T08:00:00" in
  let t := apply_sets [(16, 40)] (VarTableM.init 100) in
  let s := WebMain.mkState (Live.start t [Live.Down; Live.Up 0; Live.Up 0]) [order] None in
  _vals t !! 16%nat = Some 40 /\
  exists s',
    WebMain.exec_order 5 "a1b2c3d4" "produce" s =
    (Ok (WebMain.Response
           ("produce"%string, [(WebMain.A, WebMain.mkEntry 16 (-1) 2 3)])), s') /\
    _vals (Live.table (WebMain.world s')) = <[16%nat:=2]> (_vals t).
Proof.
  intros order t s. split; [reflexivity|].
  apply (exec_order_after_failed_read 5 "a1b2c3d4" order 0 0 [] s).
  - lia.
  - reflexivity.
  - reflexivity.
  - change (0 < 3 <= 2 ^ 32). lia.
  - reflexivity.
  - reflexivity.
  - vm_compute. reflexivity.
  - vm_compute. reflexivity.
  - reflexivity.
  - unfold FRAME_SIZE. lia.
  - unfold FRAME_SIZE. lia.
Defined.

(** web/main.py, [exec_order] when a sum does not fit 32 bits: the
    products are written one after the other, and [write_var] raises
    struct.error for the first new value of 2^32 or more.  With product
    A in range and product B not, register 16 has already been
    increased when the exception leaves [exec_order]; the order is
    still as it was, so still pending, and nothing has been saved. *)
Theorem exec_order_overflow_is_partial (RETRY_MAX : nat) (order_id : string)
    (order : WebMain.Order) (o16 o17 : Z) (s : WebMain.state (W:=Live.world)) :
  let t := Live.table (WebMain.world s) in
  let qa := WebMain.quantity_a order in
  let qb := WebMain.quantity_b order in
  (1 <= RETRY_MAX)%nat ->
  WebMain.find_order order_id (WebMain.orders s) = Some order ->
  WebMain.status order = "pending"%string ->
  0 < qa -> 0 < qb -> 0 <= WebMain.quantity_c order ->
  table_ok t -> 19 <= _size t ->
  _vals t !! 16%nat = Some o16 -> _vals t !! 17%nat = Some o17 ->
  0 <= o16 -> o16 + qa < 2 ^ 32 -> 0 <= o17 < 2 ^ 32 -> 2 ^ 32 <= o17 + qb ->
  Forall delivers (Live.links (WebMain.world s)) ->
  (5 <= length (Live.links (WebMain.world s)))%nat ->
  exists s',
    WebMain.exec_order RETRY_MAX order_id "produce" s = (Raise StructError, s') /\
    _vals (Live.table (WebMain.world s')) = <[16%nat:=o16 + qa]> (_vals t) /\
    WebMain.orders s' = WebMain.orders s /\
    WebMain.ORDER_FILE s' = WebMain.ORDER_FILE s.
Proof.
  intros t qa qb Hn Hf Hst Hqa Hqb Hqc Hok Hsz H16 H17 Ho16 Hn16 Ho17 Hn17 Hls Hlen.
  destruct RETRY_MAX as [|n]; [lia|].
  rewrite (exec_order_passed (S n) order_id "produce" order s Hf); [|done|done|].
  2:{ unfold WebMain.total_quantity. fold qa qb. lia. }
  unfold WebMain.EXEC_REG_MAP. cbn [WebMain.exec_products].
  assert (Hnv : forall o q, WebMain.new_val "produce" o q = o + q).
  { intros o q. unfold WebMain.new_val. by rewrite bool_decide_eq_true_2. }
  assert (Hr16 : 0 <= 16 < _size (Live.table (WebMain.world s))) by (fold t; lia).
  assert (Hlen1 : (3 <= length (Live.links (WebMain.world s)))%nat) by lia.
  assert (Hqa' : 0 <= WebMain.quantity order WebMain.A) by (cbn; fold qa; lia).
  assert (Hn16' : 0 <= WebMain.new_val "produce" o16 (WebMain.quantity order WebMain.A)
                  < 2 ^ 32) by (rewrite Hnv; cbn; fold qa; lia).
  assert (Ho16' : 0 <= o16 < 2 ^ 32) by lia.
  destruct (live_exec_product n order "produce" [] WebMain.A 16 o16 (WebMain.world s)
              Hok Hr16 eq_refl H16 Ho16' Hqa' Hn16' Hls Hlen1)
    as (r1 & w1 & He1 & Hv1 & Hs1 & k1 & Hk1 & Hl1).
  rewrite Hnv in Hv1. cbn [WebMain.quantity] in Hv1. fold qa in Hv1.
  unfold bind at 1. rewrite He1.
  assert (Hls1 : Forall delivers (Live.links w1)) by (rewrite Hl1; by apply Forall_drop).
  assert (Hlen2 : (2 <= length (Live.links w1))%nat) by (rewrite Hl1, length_drop; lia).
  destruct (Live.links w1) as [|[|c0] [|[|c1] ls]] eqn:Hl1'; cbn [length] in Hlen2;
    try lia;
    repeat match goal with
           | H : Forall _ (_ :: _) |- _ => apply Forall_cons in H; destruct H as [? H]
           end;
    try done.
  destruct (live_read_var_delivers 17 o17 c0 (Live.Up c1 :: ls) w1)
    as (w2 & Hread & Ht2 & Hl2); [done|done|lia|done| |].
  { rewrite Hv1. rewrite list_lookup_insert_ne by done. exact H17. }
  destruct (live_write_var_bad_value n 17 (o17 + qb) c1 ls w2)
    as (w3 & Hwrite & Hl3 & Ht3); [lia|lia|done|done|].
  unfold bind at 1, WebMain.exec_product at 1. cbn [WebMain.quantity]. fold qb.
  destruct (qb <=? 0) eqn:Hq0; [apply Z.leb_le in Hq0; lia|].
  unfold bind at 1. rewrite Hread. unfold bind at 1. rewrite Hnv, Hwrite.
  eexists. split; [reflexivity|]. cbn [WebMain.world WebMain.orders WebMain.ORDER_FILE].
  rewrite Ht3, Ht2, Hv1. done.
Qed.

Lemma exec_order_overflow_is_partial_witness :
  let order := WebMain.mkOrder "a1b2c3d4" 3 5 0 "normal" "2025-06-01" "ACME" "pending"
                 "2025-05-20T08:00:00" in
  let t := apply_sets [(17, 4294967295)] (VarTableM.init 100) in
  let s := WebMain.mkState (Live.start t (replicate 5 (Live.Up 0))) [order] None in
  exists s',
    WebMain.exec_order 5 "a1b2c3d4" "produce" s = (Raise StructError, s') /\
    _vals (Live.table (WebMain.world s')) = <[16%nat:=0 + 3]> (_vals t) /\
    WebMain.orders s' = [order] /\
    WebMain.ORDER_FILE s' = None.
Proof.
  intros order t s.
  apply (exec_order_overflow_is_partial 5 "a1b2c3d4" order 0 4294967295 s).
  - lia.
  - reflexivity.
  - reflexivity.
  - change (0 < 3). lia.
  - change (0 < 5). lia.
  - change (0 <= 0). lia.
  - vm_compute. reflexivity.
  - vm_compute. discriminate.
  - reflexivity.
  - reflexivity.
  - lia.
  - change (0 + 3 < 2 ^ 32). lia.
  - lia.
  - change (2 ^ 32 <= 4294967295 + 5). lia.
  - repeat constructor; simpl; unfold FRAME_SIZE; lia.
  - simpl. lia.
Defined.
Lemma web_read_all_returns {W} `{Net W} (addrs : list Z) (w : W) :
  net_returns W ->
  exists d w', WebMain.read_all addrs w = (Ok d, w') /\
    d.*1 = addrs /\ Forall read_result d.*2.
Proof.
  intros Hnet. revert w. induction addrs as [|addr addrs IH]; intros w.
  - exists [], w. done.
  - cbn [WebMain.read_all].
    destruct (web_read_var_returns Hnet addr w) as (v & w1 & Hread & Hv).
    destruct (IH w1) as (d & w2 & Hd & Hk & Hvs).
    exists ((addr, v) :: d), w2. split.
    + unfold bind at 1. rewrite Hread. unfold bind at 1. by rewrite Hd.
    + cbn [fmap list_fmap fst snd]. split; [by f_equal|by constructor].
Qed.

(** web/main.py, [get_registers]: the response always has the nineteen
    keys 0 to 18, in that order, and never fails: whatever the network
    and the server do, each value is the value field of a READ_ACK
    reply or -1, the value [read_var] returns for a register it could
    not read. *)
Theorem get_registers_always_answers {W} `{Net W} (w : W) :
  net_returns W ->
  exists d w', WebMain.get_registers w = (Ok d, w') /\
    d.*1 = WebMain.REG_LIST /\ length d = 19%nat /\ Forall read_result d.*2.
Proof.
  intros Hnet. unfold WebMain.get_registers.
  destruct (web_read_all_returns WebMain.REG_LIST w Hnet) as (d & w' & Hd & Hk & Hv).
  exists d, w'. split; [done|]. split; [done|]. split; [|done].
  by rewrite <- (length_fmap fst), Hk.
Qed.

Lemma get_registers_always_answers_witness :
  exists d w', WebMain.get_registers (Scripted.start []) = (Ok d, w') /\
    d.*1 = WebMain.REG_LIST /\ length d = 19%nat /\ Forall read_result d.*2.
Proof.
  apply (get_registers_always_answers (Scripted.start [])). apply scripted_net_returns.
Defined.

Lemma live_read_all (a k : nat) (w : Live.world) :
  (a + k <= length (_vals (Live.table w)))%nat -> (a + k <= 256)%nat ->
  Forall (fun v => 0 <= v < 2 ^ 32) (_vals (Live.table w)) ->
  Forall delivers (Live.links w) -> (k <= length (Live.links w))%nat ->
  exists w',
    WebMain.read_all (map Z.of_nat (seq a k)) w =
    (Ok (zip (map Z.of_nat (seq a k)) (take k (drop a (_vals (Live.table w))))), w') /\
    Live.table w' = Live.table w /\ Live.links w' = drop k (Live.links w).
Proof.
  revert a w. induction k as [|k IH]; intros a w Hlen H256 Hvals Hls Hk.
  - exists w. by rewrite drop_0.
  - cbn [seq map WebMain.read_all].
    destruct (lookup_lt_is_Some_2 (_vals (Live.table w)) a) as [v Hv]; [lia|].
    destruct (Live.links w) as [|[|c] ls] eqn:Hl; cbn [length] in Hk; [lia| |].
    { apply Forall_cons in Hls. by destruct Hls. }
    apply Forall_cons in Hls. destruct Hls as [Hc Hls].
    destruct (live_read_var_delivers (Z.of_nat a) v c ls w) as (w1 & Hread & Ht1 & Hl1);
      [done|done|lia| |by rewrite Nat2Z.id|].
    { by apply (Forall_lookup_1 _ _ _ _ Hvals Hv). }
    destruct (IH (S a) w1) as (w2 & Hrest & Ht2 & Hl2);
      [rewrite Ht1; lia|lia|by rewrite Ht1|by rewrite Hl1|rewrite Hl1; lia|].
    exists w2. split.
    + unfold bind at 1. rewrite Hread. unfold bind at 1. rewrite Hrest. unfold ret.
      rewrite Ht1. rewrite (drop_S _ v a Hv). done.
    + rewrite Ht2, Ht1, Hl2, Hl1. done.
Qed.

(** web/main.py, [get_registers] against server/main.py over links that
    deliver: when every register holds a value of 32 bits, the response
    pairs each of the keys 0 to 18 with the value of that register, and
    the table is as before. *)
Theorem get_registers_reads_table (w : Live.world) :
  let t := Live.table w in
  table_ok t -> 19 <= _size t ->
  Forall (fun v => 0 <= v < 2 ^ 32) (_vals t) ->
  Forall delivers (Live.links w) -> (19 <= length (Live.links w))%nat ->
  exists w',
    WebMain.get_registers w = (Ok (zip WebMain.REG_LIST (take 19 (_vals t))), w') /\
    Live.table w' = t.
Proof.
  intros t Hok Hsz Hvals Hls Hlen. unfold table_ok in Hok. fold t in Hok.
  destruct (live_read_all 0 19 w) as (w' & Hrun & Ht & _);
    [fold t; lia|lia|done|done|done|].
  exists w'. split; [|done]. unfold WebMain.get_registers, WebMain.REG_LIST.
  rewrite Hrun. by rewrite drop_0.
Qed.

Lemma get_registers_reads_table_witness :
  let t := apply_sets [(16, 40); (7, 1200)] (VarTableM.init 100) in
  exists w',
    WebMain.get_registers (Live.start t (replicate 19 (Live.Up 0))) =
    (Ok (zip WebMain.REG_LIST (take 19 (_vals t))), w') /\
    Live.table w' = t.
Proof.
  intros t.
  apply (get_registers_reads_table (Live.start t (replicate 19 (Live.Up 0)))).
  - vm_compute. reflexivity.
  - vm_compute. discriminate.
  - let l := eval vm_compute in (_vals t) in
    change (Forall (fun v => 0 <= v < 2 ^ 32) l).
    repeat (apply Forall_cons; split; [lia|]). constructor.
  - repeat constructor; simpl; unfold FRAME_SIZE; lia.
  - simpl. lia.
Defined.

(** web/main.py, [write_register]: for a register index of one byte and
    a value of 32 bits the response is ok, with the index and the value
    sent back, whatever [write_var] returned: its result is dropped, so
    a write that failed after all retries is answered like one that
    succeeded. *)
Theorem write_register_answers_ok {W} `{Net W} (RETRY_MAX : nat) (reg val : Z) (w : W) :
  net_returns W -> 0 <= reg < 256 -> 0 <= val < 2 ^ 32 ->
  exists b w',
    Web.write_var RETRY_MAX reg val w = (Ok b, w') /\
    WebMain.write_register RETRY_MAX reg val w = (Ok (true, reg, val), w').
Proof.
  intros Hnet Hi Hv.
  destruct (web_write_loop RETRY_MAX Hnet RETRY_MAX reg val w Hi Hv) as (b & w' & Hrun & _).
  exists b, w'. unfold WebMain.write_register, Web.write_var.
  unfold bind. by rewrite Hrun.
Qed.

Lemma write_register_answers_ok_witness :
  Web.write_var 5 16 40 (Scripted.start []) = (Ok false, Scripted.mk [] None 25 []) /\
  exists b w',
    Web.write_var 5 16 40 (Scripted.start []) = (Ok b, w') /\
    WebMain.write_register 5 16 40 (Scripted.start []) = (Ok (true, 16, 40), w').
Proof.
  split; [vm_compute; reflexivity|].
  apply (write_register_answers_ok 5 16 40 (Scripted.start []));
    [apply scripted_net_returns|lia|lia].
Defined.
(** ** The console of server/main.py *)

(** server/main.py, [console]: the pairs typed before the first bad
    entry are applied to the table in order, and the first bad entry
    ends the console without an exception: text that is no integer (or
    the end of the input) at either prompt, or an index outside the
    table.  What is typed after it is never read. *)
Theorem console_stops_at_first_error (ps : list (Z * Z)) (stop rest : list (option Z))
    (t : VarTable) (tr : list event) :
  table_ok t ->
  Forall (fun p => 0 <= p.1 < _size t) ps ->
  stop = [None] \/ (exists idx, stop = [Some idx; None]) \/
  (exists idx val, stop = [Some idx; Some val] /\ ~ (0 <= idx < _size t)) ->
  exists tr',
    ServerMain.console (ServerMain.typed ps ++ stop ++ rest) (t, tr) =
    (Ok tt, (apply_sets ps t, tr')).
Proof.
  intros Hok Hps Hstop. revert t tr Hok Hps Hstop.
  induction ps as [|[i v] ps IH]; intros t tr Hok Hps Hstop.
  - cbn [ServerMain.typed flat_map app]. unfold apply_sets. cbn [fold_left].
    destruct Hstop as [->|[[idx ->]|(idx & val & -> & Hidx)]].
    + by exists tr.
    + by exists tr.
    + cbn [app ServerMain.console]. unfold bind at 1, try_except, bind at 1.
      rewrite set_with_log, set_out_of_range by done. by exists (tr ++ []).
  - apply Forall_cons in Hps. destruct Hps as [Hi Hps]. cbn [fst] in Hi.
    change (apply_sets ((i, v) :: ps) t)
      with (apply_sets ps (run (VarTableM.set i v) t).1.2).
    destruct (run_set_table_ok t i v Hok) as [Hok' Hsz].
    destruct (set_in_range t i v Hok Hi) as (t' & tr1 & Hrun & _).
    rewrite Hrun in *. cbn [fst snd] in *.
    destruct (IH t' (tr ++ tr1) Hok') as [tr' Hc].
    { eapply Forall_impl; [exact Hps|]. intros p Hp. cbn beta in *. by rewrite Hsz. }
    { destruct Hstop as [?|[?|(idx & val & ? & ?)]]; [auto|auto|].
      right. right. exists idx, val. by rewrite Hsz. }
    exists tr'. unfold ServerMain.typed. cbn [flat_map app fst snd ServerMain.console].
    unfold bind at 1, try_except, bind at 1. rewrite set_with_log, Hrun.
    unfold ret at 1. exact Hc.
Qed.

Lemma console_stops_at_first_error_witness :
  exists tr',
    ServerMain.console
      (ServerMain.typed [(11, 7500); (3, 8)] ++ [Some 100; Some 1] ++ [Some 3; Some 9])
      (VarTableM.init 100, []) =
    (Ok tt, (apply_sets [(11, 7500); (3, 8)] (VarTableM.init 100), tr')).
Proof.
  apply (console_stops_at_first_error [(11, 7500); (3, 8)] [Some 100; Some 1]
           [Some 3; Some 9] (VarTableM.init 100) []).
  - apply table_ok_init.
  - repeat constructor; simpl; lia.
  - right. right. exists 100, 1. split; [reflexivity|]. simpl. lia.
Defined.
